(** * The BFTTF font cache of nxdumptool (bfttf.c)

    A shallow embedding of [bfttfInitialize], [bfttfExit],
    [bfttfGetFontByType] and [bfttfDecodeFont], and the properties of the
    font cache that follow from the code.

    Conventions.
    - C unsigned integers are [Z] with the wrap-around written out
      ([u8], [u32], [u64]).
    - Memory is a block heap: a pointer is a block name and a byte offset,
      [NULL] is [None], and a block that was freed is no longer in the heap
      (a pointer to it dangles).
    - [None] as the result of an operation stands for undefined behaviour
      of the C code (access outside a live block, [free] of a pointer that
      is not a live allocation, index outside [g_fontInfo]) or for a loop
      that ran out of fuel; the lemmas named [_defined] show where neither
      happens.
    - [g_bfttfMutex] is not modelled: the embedding is the sequential
      behaviour of one caller. *)

From Stdlib Require Import ZArith Lia String.
From stdpp Require Import gmap list.
From coqutil Require Import Byte Word.LittleEndianList.
Local Open Scope Z_scope.

(** ** Machine integers and the macros of nxdt_utils.h *)

Definition u8 (z : Z) : Z := z mod 2 ^ 8.
Definition u32 (z : Z) : Z := z mod 2 ^ 32.
Definition u64 (z : Z) : Z := z mod 2 ^ 64.

(** [#define IS_ALIGNED(x, y) (((x) & ((y) - 1)) == 0)] *)
Definition IS_ALIGNED (x y : Z) : bool := Z.land x (y - 1) =? 0.

(** ** Memory *)

(** A pointer: the block it points into and the byte offset inside it. *)
Definition ptr : Type := positive * Z.

Definition ptr_add (p : ptr) (n : Z) : ptr := (p.1, p.2 + n).

(** Read of one byte through a pointer, [p[k]]. *)
Definition read_byte (h : gmap positive (list byte)) (p : ptr) (k : Z) : option byte :=
  buf ← h !! p.1;
  if 0 <=? p.2 + k then buf !! Z.to_nat (p.2 + k) else None.

(** [malloc]: a block that is not live; its contents are unspecified
    (zeroes here; every path of the code overwrites or frees it). *)
Definition fresh_block (h : gmap positive (list byte)) : positive := fresh (dom h).

Definition alloc (n : Z) (h : gmap positive (list byte)) : ptr * gmap positive (list byte) :=
  let b := fresh_block h in
  ((b, 0), <[b := replicate (Z.to_nat n) Byte.x00]> h).

(** [free(p)] for a non-null [p]: defined only on the start of a live
    block. *)
Definition free (p : ptr) (h : gmap positive (list byte)) : option (gmap positive (list byte)) :=
  match h !! p.1 with
  | Some _ => if p.2 =? 0 then Some (delete p.1 h) else None
  | None => None
  end.

(** A 32-bit load and store at byte offset [off] of a block, little endian
    (the target is AArch64). *)
Definition in_bounds (buf : list byte) (off : Z) : bool :=
  (0 <=? off) && (off + 4 <=? Z.of_nat (length buf)).

Definition load_u32 (buf : list byte) (off : Z) : option Z :=
  if in_bounds buf off
  then Some (le_combine (take 4 (drop (Z.to_nat off) buf)))
  else None.

Definition store_u32 (buf : list byte) (off : Z) (w : Z) : option (list byte) :=
  if in_bounds buf off
  then Some (take (Z.to_nat off) buf ++ le_split 4 w ++ drop (Z.to_nat off + 4) buf)
  else None.

(** ** bfttf.c: types and constants *)

Record BfttfFontInfo := mkFontInfo {
  fi_title_id : Z;          (* u64 title_id *)
  fi_path : string;         (* char path[64] *)
  fi_size : Z;              (* u32 size *)
  fi_data : option ptr      (* u8 *data *)
}.

Definition g_bfttfKey : Z := 0x06186249.

(** ** bfttfDecodeFont *)

(** The loop [for(u32 i = 8; i < (font_info->size - 8); i += 4)], whose
    body loads the 32-bit word at [font_info->data + i], XORs it with
    [g_bfttfKey] and stores it back, on the block [buf] that
    [font_info->data] points into at offset [base]. *)
Fixpoint decode_loop (fuel : nat) (size base i : Z) (buf : list byte) : option (list byte) :=
  if i <? u32 (size - 8) then
    match fuel with
    | O => None
    | S fuel' =>
        w ← load_u32 buf (base + i);
        buf' ← store_u32 buf (base + i) (Z.lxor w g_bfttfKey);
        decode_loop fuel' size base (u32 (i + 4)) buf'
    end
  else Some buf.

Definition bfttfDecodeFont (font_info : option BfttfFontInfo) (h : gmap positive (list byte))
  : option (bool * gmap positive (list byte)) :=
  match font_info with
  | None => Some (false, h)
  | Some fi =>
      if (fi_size fi <=? 8) || negb (IS_ALIGNED (fi_size fi) 4) then Some (false, h)
      else
        match fi_data fi with
        | None => Some (false, h)
        | Some (b, base) =>
            buf ← h !! b;
            buf' ← decode_loop (Z.to_nat (fi_size fi)) (fi_size fi) base 8 buf;
            Some (true, <[b := buf']> h)
        end
  end.

(** What the loop computes, as a function on the bytes from offset 8 on:
    the first [n] words are XORed with the key, the rest is kept. *)
Definition xor_word (bs : list byte) : list byte :=
  le_split 4 (Z.lxor (le_combine bs) g_bfttfKey).

Fixpoint xor_words (n : nat) (l : list byte) : list byte :=
  match n with
  | O => l
  | S n' => xor_word (take 4 l) ++ xor_words n' (drop 4 l)
  end.

(** The number of words the loop visits for a buffer of [size] bytes:
    offsets 8, 12, ... below [size - 8]. *)
Definition words_decoded (size : Z) : nat := Z.to_nat ((size - 16) / 4).

(** The transform on a block: bytes before [base + 8] are kept, then
    [words_decoded size] words are XORed with the key. *)
Definition decoded (size base : Z) (buf : list byte) : list byte :=
  take (Z.to_nat (base + 8)) buf
    ++ xor_words (words_decoded size) (drop (Z.to_nat (base + 8)) buf).

(** Modelled from the spec: bfttf.h, which declares [BfttfFontData], is
    not among the sources.  The fields are the three that
    [bfttfGetFontByType] assigns, the view "pointer + size" of the spec
    and the type it was asked for. *)
Record BfttfFontData := mkFontData {
  fd_type : Z;              (* u8 type *)
  fd_size : Z;              (* u32 size *)
  fd_ptr : option ptr       (* void *ptr *)
}.

(** Modelled from the spec: the enumeration [BfttfFontType] of bfttf.h is
    not among the sources.  The spec keeps one slot per table entry, in an
    "array indexed by logical asset type", so the enumerated range is the
    seven entries of [g_fontInfo]. *)
Definition BfttfFontType_Total : Z := 7.

(** The static table, as initialised at load time. *)
Definition g_fontInfo_init : list BfttfFontInfo := [
  mkFontInfo 0x0100000000000811 "/nintendo_udsg-r_std_003.bfttf" 0 None;
  mkFontInfo 0x0100000000000810 "/nintendo_ext_003.bfttf" 0 None;
  mkFontInfo 0x0100000000000810 "/nintendo_ext2_003.bfttf" 0 None;
  mkFontInfo 0x0100000000000812 "/nintendo_udsg-r_ko_003.bfttf" 0 None;
  mkFontInfo 0x0100000000000814 "/nintendo_udsg-r_org_zh-cn_003.bfttf" 0 None;
  mkFontInfo 0x0100000000000814 "/nintendo_udsg-r_ext_zh-cn_003.bfttf" 0 None;
  mkFontInfo 0x0100000000000813 "/nintendo_udjxh-db_zh-tw_003.bfttf" 0 None
].

(** [MAX_ELEMENTS(g_fontInfo)] *)
Definition g_fontInfoCount : nat := Eval cbv in length g_fontInfo_init.

(** ** The platform

    [bfttfInitialize] calls into title.c, nca.c, romfs.c and the C
    allocator.  None of them is part of these sources: they are a
    parameter of the model.  Each call may depend on and change a state of
    the platform ([World]: storage, the temporary NCA and RomFS contexts,
    the allocator's budget) and returns what the code inspects. *)
Record Platform := {
  World : Type;
  TitleInfo : Type;
  FileEntry : Type;
  (* calloc(1, sizeof(NcaContext)): whether the result is non-null *)
  calloc_NcaContext : World -> bool * World;
  (* titleGetInfoFromStorageByTitleId(NcmStorageId_BuiltInSystem, title_id) *)
  titleGetInfoFromStorageByTitleId : Z -> World -> option TitleInfo * World;
  (* ncaInitializeContext(nca_ctx, ..., titleGetContentInfoByTypeAndIdOffset(title_info, ...), NULL) *)
  ncaInitializeContext : TitleInfo -> World -> bool * World;
  (* romfsInitializeContext(&romfs_ctx, &(nca_ctx->fs_ctx[0])) *)
  romfsInitializeContext : World -> bool * World;
  (* romfsGetFileEntryByPath(&romfs_ctx, path) *)
  romfsGetFileEntryByPath : string -> World -> option FileEntry * World;
  (* romfs_file_entry->size *)
  file_entry_size : FileEntry -> Z;
  (* malloc(n): whether the allocator grants the request *)
  malloc_succeeds : Z -> World -> bool * World;
  (* romfsReadFileEntryData(&romfs_ctx, entry, out, n, offset): the bytes
     read, or failure *)
  romfsReadFileEntryData : FileEntry -> Z -> Z -> World -> option (list byte) * World;
  (* romfsFreeContext(&romfs_ctx) *)
  romfsFreeContext : World -> World;
  (* free(nca_ctx) *)
  free_NcaContext : World -> World
}.

(** The calls made to the platform, in order. *)
Inductive Call :=
| CallCallocNcaContext
| CallTitleGetInfo (title_id : Z)
| CallNcaInitializeContext (title_id : Z)
| CallRomfsInitializeContext (title_id : Z)
| CallRomfsGetFileEntryByPath (path : string)
| CallMalloc (n : Z)
| CallRomfsReadFileEntryData (path : string) (n : Z)
| CallRomfsFreeContext
| CallFreeNcaContext.

Section Cache.
Variable P : Platform.

(** The globals of bfttf.c, the heap, the platform, and the trace of
    platform calls. *)
Record State := mkState {
  g_bfttfInterfaceInit : bool;
  g_fontInfo : list BfttfFontInfo;
  heap : gmap positive (list byte);
  world : World P;
  calls : list Call
}.

Definition set_init (b : bool) (s : State) : State :=
  mkState b (g_fontInfo s) (heap s) (world s) (calls s).
Definition set_fontInfo (l : list BfttfFontInfo) (s : State) : State :=
  mkState (g_bfttfInterfaceInit s) l (heap s) (world s) (calls s).
Definition set_heap (h : gmap positive (list byte)) (s : State) : State :=
  mkState (g_bfttfInterfaceInit s) (g_fontInfo s) h (world s) (calls s).
Definition set_world (w : World P) (c : Call) (s : State) : State :=
  mkState (g_bfttfInterfaceInit s) (g_fontInfo s) (heap s) w (calls s ++ [c]).

(** Computations on the state that may be undefined. *)
Definition M (A : Type) : Type := State -> option (A * State).

#[global] Instance M_ret : MRet M := fun A (a : A) s => Some (a, s).
#[global] Instance M_bind : MBind M := fun A B (f : A -> M B) (m : M A) s =>
  match m s with
  | Some (a, s') => f a s'
  | None => None
  end.

Definition get_state : M State := fun s => Some (s, s).
Definition modify (f : State -> State) : M unit := fun s => Some (tt, f s).

Definition platform_call {A} (c : Call) (f : World P -> A * World P) : M A :=
  fun s => let '(a, w) := f (world s) in Some (a, set_world w c s).

Definition platform_do (c : Call) (f : World P -> World P) : M unit :=
  fun s => Some (tt, set_world (f (world s)) c s).

(** [&(g_fontInfo[i])] read and written through. *)
Definition font_info (i : nat) : M BfttfFontInfo :=
  fun s => match g_fontInfo s !! i with
           | Some fi => Some (fi, s)
           | None => None
           end.

Definition with_size (n : Z) (fi : BfttfFontInfo) : BfttfFontInfo :=
  mkFontInfo (fi_title_id fi) (fi_path fi) n (fi_data fi).
Definition with_data (p : option ptr) (fi : BfttfFontInfo) : BfttfFontInfo :=
  mkFontInfo (fi_title_id fi) (fi_path fi) (fi_size fi) p.

Definition set_size (i : nat) (n : Z) : M unit :=
  fi ← font_info i;
  modify (fun s => set_fontInfo (<[i := with_size n fi]> (g_fontInfo s)) s).

Definition set_data (i : nat) (p : option ptr) : M unit :=
  fi ← font_info i;
  modify (fun s => set_fontInfo (<[i := with_data p fi]> (g_fontInfo s)) s).

(** [malloc(n)] *)
Definition alloc_block (n : Z) : M (option ptr) :=
  fun s => let '(p, h) := alloc n (heap s) in Some (Some p, set_heap h s).

Definition malloc (n : Z) : M (option ptr) :=
  ok ← platform_call (CallMalloc n) (malloc_succeeds P n);
  if ok : bool then alloc_block n else mret None.

(** [free(font_info->data)]; [free(NULL)] does nothing. *)
Definition free_block (p : ptr) : M unit :=
  fun s => match free p (heap s) with
           | Some h => Some (tt, set_heap h s)
           | None => None
           end.

Definition free_data (i : nat) : M unit :=
  fi ← font_info i;
  match fi_data fi with
  | None => mret tt
  | Some p => free_block p
  end.

(** The bytes a successful read leaves in the block: at most [n] bytes,
    written from the pointer on. *)
Definition write_bytes (buf : list byte) (off n : Z) (bs : list byte) : option (list byte) :=
  let bs' := take (Z.to_nat n) bs in
  if (0 <=? off) && (off + Z.of_nat (length bs') <=? Z.of_nat (length buf))
  then Some (take (Z.to_nat off) buf ++ bs' ++ drop (Z.to_nat off + length bs') buf)
  else None.

(** The bytes read, stored through the pointer [p]. *)
Definition write_block (p : option ptr) (n : Z) (bs : list byte) : M unit :=
  fun s => match p with
           | Some (b, off) =>
               match heap s !! b with
               | Some buf =>
                   match write_bytes buf off n bs with
                   | Some buf' => Some (tt, set_heap (<[b := buf']> (heap s)) s)
                   | None => None
                   end
               | None => None
               end
           | None => None
           end.

(** [romfsReadFileEntryData(&romfs_ctx, romfs_file_entry, font_info->data, n, 0)] *)
Definition read_entry (i : nat) (e : FileEntry P) (n : Z) : M bool :=
  fi ← font_info i;
  r ← platform_call (CallRomfsReadFileEntryData (fi_path fi) n)
        (romfsReadFileEntryData P e n 0);
  match r with
  | Some bs => write_block (fi_data fi) n bs;; mret true
  | None => mret false
  end.

(** [bfttfDecodeFont(font_info)] on the global heap. *)
Definition decode_block (fi : BfttfFontInfo) : M bool :=
  fun s => match bfttfDecodeFont (Some fi) (heap s) with
           | Some (r, h) => Some (r, set_heap h s)
           | None => None
           end.

Definition decode_font (i : nat) : M bool :=
  fi ← font_info i;
  decode_block fi.

(** ** bfttfInitialize *)

(** Lines 91-110: title info, NCA context, RomFS context. *)
Definition open_container (title_id : Z) : M bool :=
  title_info ← platform_call (CallTitleGetInfo title_id)
                 (titleGetInfoFromStorageByTitleId P title_id);
  match title_info with
  | None => mret false
  | Some ti =>
      ok ← platform_call (CallNcaInitializeContext title_id) (ncaInitializeContext P ti);
      if negb ok then mret false
      else platform_call (CallRomfsInitializeContext title_id) (romfsInitializeContext P)
  end.

(** Lines 116-160: file entry, size check, allocation, read, decode.
    The result is whether [count] is increased. *)
Definition fetch_font (i : nat) : M bool :=
  fi ← font_info i;
  e ← platform_call (CallRomfsGetFileEntryByPath (fi_path fi))
        (romfsGetFileEntryByPath P (fi_path fi));
  match e with
  | None => mret false
  | Some e =>
      let n := u64 (file_entry_size P e) in
      if n =? 0 then mret false
      else
        p ← malloc n;
        set_data i p;;
        match p with
        | None => mret false
        | Some _ =>
            ok ← read_entry i e n;
            if negb ok then free_data i;; set_data i None;; mret false
            else
              set_size i (u32 n);;
              ok ← decode_font i;
              if negb ok then free_data i;; set_data i None;; set_size i 0;; mret false
              else mret true
        end
  end.

(** One iteration of the loop over [g_fontInfo]; the result is whether the
    font was retrieved and the new value of [prev_title_id]. *)
Definition font_body (i : nat) (prev_title_id : Z) : M (bool * Z) :=
  fi ← font_info i;
  if negb (fi_title_id fi =? prev_title_id) then
    ok ← open_container (fi_title_id fi);
    if negb ok then mret (false, prev_title_id)
    else r ← fetch_font i; mret (r, fi_title_id fi)
  else r ← fetch_font i; mret (r, prev_title_id).

Fixpoint font_loop (idx : list nat) (count prev_title_id : Z) : M Z :=
  match idx with
  | [] => mret count
  | i :: idx' =>
      '(ok, prev_title_id') ← font_body i prev_title_id;
      font_loop idx' (if ok : bool then u32 (count + 1) else count) prev_title_id'
  end.

Definition bfttfInitialize : M bool :=
  s ← get_state;
  let ret := g_bfttfInterfaceInit s in
  if ret then platform_do CallRomfsFreeContext (romfsFreeContext P);; mret ret
  else
    nca_ctx ← platform_call CallCallocNcaContext (calloc_NcaContext P);
    if negb nca_ctx then
      platform_do CallRomfsFreeContext (romfsFreeContext P);; mret false
    else
      count ← font_loop (seq 0 g_fontInfoCount) 0 0;
      let ret := 0 <? count in
      modify (set_init ret);;
      platform_do CallRomfsFreeContext (romfsFreeContext P);;
      platform_do CallFreeNcaContext (free_NcaContext P);;
      mret ret.

(** ** bfttfExit *)

Fixpoint exit_loop (idx : list nat) : M unit :=
  match idx with
  | [] => mret tt
  | i :: idx' => set_size i 0;; free_data i;; exit_loop idx'
  end.

Definition bfttfExit : M unit :=
  exit_loop (seq 0 g_fontInfoCount);;
  modify (set_init false).

(** ** bfttfGetFontByType

    [font_data] is the caller's descriptor ([None] for a null pointer);
    the result carries the descriptor as the call leaves it. *)
Definition bfttfGetFontByType (font_data : option BfttfFontData) (font_type : Z)
  : M (bool * option BfttfFontData) :=
  match font_data with
  | None => mret (false, font_data)
  | Some _ =>
      if BfttfFontType_Total <=? font_type then mret (false, font_data)
      else
        fi ← font_info (Z.to_nat font_type);
        match fi_data fi with
        | None => mret (false, font_data)
        | Some data =>
            if fi_size fi <=? 8 then mret (false, font_data)
            else mret (true, Some (mkFontData font_type (u32 (fi_size fi - 8))
                                     (Some (ptr_add data 8))))
        end
  end.

End Cache.

Arguments mkState {P}.
Arguments g_bfttfInterfaceInit {P}.
Arguments g_fontInfo {P}.
Arguments heap {P}.
Arguments world {P}.
Arguments calls {P}.

(** The state at program start: the static initialisers, an empty heap. *)
Definition initial_state (P : Platform) (w : World P) : State P :=
  mkState false g_fontInfo_init ∅ w [].

(** ** Concrete platforms, to run the model

    A platform whose state is a clock that ticks at every title lookup and
    every [malloc]; title lookups and allocations succeed or fail by the
    clock, every file has the given contents. *)
Definition clock_platform (title_ok : Z -> nat -> bool) (malloc_ok : nat -> bool)
    (contents : string -> option (list byte)) : Platform := {|
  World := nat;
  TitleInfo := Z;
  FileEntry := list byte;
  calloc_NcaContext := fun w => (true, w);
  titleGetInfoFromStorageByTitleId := fun tid w =>
    (if title_ok tid w then Some tid else None, S w);
  ncaInitializeContext := fun _ w => (true, w);
  romfsInitializeContext := fun w => (true, w);
  romfsGetFileEntryByPath := fun path w => (contents path, w);
  file_entry_size := fun e => Z.of_nat (length e);
  malloc_succeeds := fun _ w => (malloc_ok w, S w);
  romfsReadFileEntryData := fun e n off w =>
    (Some (take (Z.to_nat n) (drop (Z.to_nat off) e)), w);
  romfsFreeContext := fun w => w;
  free_NcaContext := fun w => w
|}.

(** A platform on which nothing fails; every file is [contents]. *)
Definition quiet_platform (contents : list byte) : Platform :=
  clock_platform (fun _ _ => true) (fun _ => true) (fun _ => Some contents).

(** A 12-byte file: an 8-byte header and one payload word. *)
Definition file12 : list byte :=
  [Byte.x01; Byte.x02; Byte.x03; Byte.x04; Byte.x05; Byte.x06; Byte.x07; Byte.x08;
   Byte.xaa; Byte.xbb; Byte.xcc; Byte.xdd].

(** A 24-byte file: header and four payload words. *)
Definition file24 : list byte :=
  file12 ++ [Byte.x10; Byte.x11; Byte.x12; Byte.x13; Byte.x20; Byte.x21; Byte.x22; Byte.x23;
             Byte.x30; Byte.x31; Byte.x32; Byte.x33].

(** A cache in which only the first font is loaded, from [file24]. *)
Definition one_font_state : State (quiet_platform file24) :=
  mkState (P := quiet_platform file24) true
    (<[0%nat := mkFontInfo 0x0100000000000811 "/nintendo_udsg-r_std_003.bfttf" 24
                  (Some (1%positive, 0))]> g_fontInfo_init)
    {[1%positive := decoded 24 0 file24]} 0%nat [].

(** ** What a slot looks like after one iteration of the loop *)

(** The slot holds a font: a block allocated by this run of the loop, of
    the length of the file, with the size field the length truncated to
    32 bits. *)
Definition loaded (h h' : gmap positive (list byte)) (fi' : BfttfFontInfo) : Prop :=
  exists b buf,
    fi_data fi' = Some (b, 0) /\ h !! b = None /\ h' !! b = Some buf /\
    fi_size fi' = u32 (Z.of_nat (length buf)) /\
    8 < fi_size fi' /\ fi_size fi' mod 4 = 0.

(** The slot holds nothing: size 0, and the pointer is null or was not
    touched. *)
Definition released (fi fi' : BfttfFontInfo) : Prop :=
  fi_title_id fi' = fi_title_id fi /\ fi_path fi' = fi_path fi /\
  fi_size fi' = 0 /\ (fi_data fi' = None \/ fi_data fi' = fi_data fi).

(** The effect of the fetch of font [i] (lines 116-160) from [s] to [s']:
    only slot [i] changes; on success it holds a fresh block, on failure
    the heap is as before and the slot holds no buffer. *)
Definition slot_step {P : Platform} (i : nat) (s s' : State P) (ok : bool) : Prop :=
  g_bfttfInterfaceInit s' = g_bfttfInterfaceInit s /\
  (exists cs, calls s' = calls s ++ cs) /\
  exists fi fi',
    g_fontInfo s !! i = Some fi /\
    g_fontInfo s' = <[i := fi']> (g_fontInfo s) /\
    if ok then
      exists buf,
        fi' = mkFontInfo (fi_title_id fi) (fi_path fi) (u32 (Z.of_nat (length buf)))
                (Some (fresh_block (heap s), 0)) /\
        8 < fi_size fi' /\ fi_size fi' mod 4 = 0 /\
        heap s' = <[fresh_block (heap s) := buf]> (heap s)
    else
      heap s' = heap s /\
      (fi' = fi \/ fi' = with_data None fi \/ fi' = with_size 0 (with_data None fi)).

(** The effect of the loop over the entries [idx] from [s] to [s'], with
    [count] going to [count']. *)
Definition loop_post {P : Platform} (idx : list nat) (s s' : State P) (count count' : Z) : Prop :=
  g_bfttfInterfaceInit s' = g_bfttfInterfaceInit s /\
  length (g_fontInfo s') = length (g_fontInfo s) /\
  (forall j, j ∉ idx -> g_fontInfo s' !! j = g_fontInfo s !! j) /\
  (forall b buf, heap s !! b = Some buf -> heap s' !! b = Some buf) /\
  (forall i fi fi', i ∈ idx ->
     g_fontInfo s !! i = Some fi -> g_fontInfo s' !! i = Some fi' ->
     loaded (heap s) (heap s') fi' \/ released fi fi') /\
  (forall b, is_Some (heap s' !! b) ->
     is_Some (heap s !! b) \/
     exists i fi', i ∈ idx /\ g_fontInfo s' !! i = Some fi' /\
                   8 < fi_size fi' /\ fi_data fi' = Some (b, 0)) /\
  (forall i j fi' fj', i ∈ idx -> j ∈ idx ->
     g_fontInfo s' !! i = Some fi' -> g_fontInfo s' !! j = Some fj' ->
     8 < fi_size fi' -> 8 < fi_size fj' -> fi_data fi' = fi_data fj' -> i = j) /\
  count <= count' /\
  (count < count' <->
   exists i fi', i ∈ idx /\ g_fontInfo s' !! i = Some fi' /\ 8 < fi_size fi').

(** Every non-null data pointer of the cache is the start of a live block
    of its own. *)
Definition owned {P : Platform} (s : State P) : Prop :=
  forall i fi p,
    g_fontInfo s !! i = Some fi -> fi_data fi = Some p ->
    p.2 = 0 /\ is_Some (heap s !! p.1) /\
    forall j fj q, g_fontInfo s !! j = Some fj -> fi_data fj = Some q ->
                   q.1 = p.1 -> j = i.

(** The bytes of the view that [bfttfGetFontByType] hands out. *)
Definition view_bytes (h : gmap positive (list byte)) (fd : BfttfFontData) : list (option byte) :=
  match fd_ptr fd with
  | Some p => (fun k => read_byte h p (Z.of_nat k)) <$> seq 0 (Z.to_nat (fd_size fd))
  | None => []
  end.

(** A platform short of memory at first: the clock ticks twelve times in a
    first run of [bfttfInitialize] (five title lookups, seven
    allocations), and [malloc] fails until then. *)
Definition low_memory_platform : Platform :=
  clock_platform (fun _ _ => true) (fun w => 12 <=? w)%nat (fun _ => Some file24).

(** A platform on which the lookup of title 0100000000000810 fails once,
    at the time entry 1 of the table asks for it (clock 2: after the
    lookup and the allocation for entry 0), and succeeds afterwards. *)
Definition flaky_title_platform : Platform :=
  clock_platform
    (fun title_id w => negb ((title_id =? 0x0100000000000810) && (w =? 2)%nat))
    (fun _ => true) (fun _ => Some file24).

(** The title lookups of a trace. *)
Definition title_lookups (cs : list Call) : list Z :=
  omap (fun c => match c with CallTitleGetInfo t => Some t | _ => None end) cs.

(** The files read in a trace. *)
Definition file_reads (cs : list Call) : list string :=
  omap (fun c => match c with CallRomfsReadFileEntryData p _ => Some p | _ => None end) cs.

(** ** Further definitions used to state properties *)

(** [b] is the block some slot's data pointer points into. *)
Definition slot_block {P : Platform} (s : State P) (b : positive) : Prop :=
  exists i fi base, g_fontInfo s !! i = Some fi /\ fi_data fi = Some (b, base).

(** The calls that open a container (lines 91-110 of bfttfInitialize). *)
Definition container_call (c : Call) : bool :=
  match c with
  | CallTitleGetInfo _ | CallNcaInitializeContext _ | CallRomfsInitializeContext _ => true
  | _ => false
  end.

(** A platform without memory for the temporary NCA context; nothing else
    fails. *)
Definition no_nca_platform : Platform := {|
  World := unit;
  TitleInfo := unit;
  FileEntry := list byte;
  calloc_NcaContext := fun w => (false, w);
  titleGetInfoFromStorageByTitleId := fun _ w => (Some tt, w);
  ncaInitializeContext := fun _ w => (true, w);
  romfsInitializeContext := fun w => (true, w);
  romfsGetFileEntryByPath := fun _ w => (Some file24, w);
  file_entry_size := fun e => Z.of_nat (length e);
  malloc_succeeds := fun _ w => (true, w);
  romfsReadFileEntryData := fun e n off w =>
    (Some (take (Z.to_nat n) (drop (Z.to_nat off) e)), w);
  romfsFreeContext := fun w => w;
  free_NcaContext := fun w => w
|}.

(** A computation that, whenever it returns, has extended the trace by
    calls that all satisfy [Q]. *)
Definition appends {P : Platform} (Q : Call -> Prop) {A} (m : M P A) : Prop :=
  forall s a s', m s = Some (a, s') -> exists cs, calls s' = calls s ++ cs /\ Forall Q cs.

(** ** The outcome of each table entry, from the platform's answers

    A reference the code is compared with: what one run of the loop of
    [bfttfInitialize] gets served, as a function of the platform alone.
    The steps of an entry and its six failures are those of the spec
    (the Initialize contract and its error taxonomy): the container is
    opened, the path resolved, a zero-length entry rejected, the buffer
    allocated, the bytes read and the transform applied.  A failure ends
    the entry; the next entry is served from the state of the platform
    the failure left. *)
Inductive Failure : Type :=
  | ContainerOpenFailure
  | PathResolutionFailure
  | ZeroLengthEntry
  | AllocationFailure
  | ReadFailure
  | DecodePreconditionFailure.

(** What an entry ends with: a failure, or the length of the file and the
    decoded contents of its buffer. *)
Definition Served : Type := Failure + Z * list byte.

Definition fetched (r : Served) : bool :=
  match r with
  | inr _ => true
  | inl _ => false
  end.

(** An answer, the state the platform is left in, and the calls made. *)
Record Reply (P : Platform) (A : Type) : Type := mkReply {
  reply : A;
  reply_world : World P;
  reply_calls : list Call
}.

Arguments mkReply {P A}.
Arguments reply {P A}.
Arguments reply_world {P A}.
Arguments reply_calls {P A}.

(** The buffer a read of [bs] leaves in a new block of [n] bytes. *)
Definition read_into (n : Z) (bs : list byte) : list byte :=
  default [] (write_bytes (replicate (Z.to_nat n) Byte.x00) 0 n bs).

Section Reference.
Variable P : Platform.

(** Opening the container of title [title_id]: title info, NCA context,
    RomFS context, each asked only if the one before was granted. *)
Definition serve_open (title_id : Z) (w : World P) : Reply P bool :=
  let r1 := titleGetInfoFromStorageByTitleId P title_id w in
  match r1.1 with
  | None => mkReply false r1.2 [CallTitleGetInfo title_id]
  | Some ti =>
      let r2 := ncaInitializeContext P ti r1.2 in
      if r2.1 then
        let r3 := romfsInitializeContext P r2.2 in
        mkReply r3.1 r3.2
          [CallTitleGetInfo title_id; CallNcaInitializeContext title_id;
           CallRomfsInitializeContext title_id]
      else
        mkReply false r2.2 [CallTitleGetInfo title_id; CallNcaInitializeContext title_id]
  end.

(** The font at [path] in the open container. *)
Definition serve_font (path : string) (w : World P) : Reply P Served :=
  let c1 := CallRomfsGetFileEntryByPath path in
  let r1 := romfsGetFileEntryByPath P path w in
  match r1.1 with
  | None => mkReply (inl PathResolutionFailure) r1.2 [c1]
  | Some e =>
      let n := u64 (file_entry_size P e) in
      if n =? 0 then mkReply (inl ZeroLengthEntry) r1.2 [c1]
      else
        let c2 := CallMalloc n in
        let r2 := malloc_succeeds P n r1.2 in
        if r2.1 then
          let c3 := CallRomfsReadFileEntryData path n in
          let r3 := romfsReadFileEntryData P e n 0 r2.2 in
          match r3.1 with
          | None => mkReply (inl ReadFailure) r3.2 [c1; c2; c3]
          | Some bs =>
              if (8 <? u32 n) && (u32 n mod 4 =? 0)
              then mkReply (inr (n, decoded (u32 n) 0 (read_into n bs))) r3.2 [c1; c2; c3]
              else mkReply (inl DecodePreconditionFailure) r3.2 [c1; c2; c3]
          end
        else mkReply (inl AllocationFailure) r2.2 [c1; c2]
  end.

(** One entry of the table, [prev] being the title of the container that
    is open (0 at first): the container is opened unless it is the open
    one.  The answer carries the title of the container open afterwards. *)
Definition serve_entry (prev : Z) (fi : BfttfFontInfo) (w : World P) : Reply P (Served * Z) :=
  if fi_title_id fi =? prev then
    let r := serve_font (fi_path fi) w in
    mkReply (reply r, prev) (reply_world r) (reply_calls r)
  else
    let o := serve_open (fi_title_id fi) w in
    if reply o then
      let r := serve_font (fi_path fi) (reply_world o) in
      mkReply (reply r, fi_title_id fi) (reply_world r) (reply_calls o ++ reply_calls r)
    else mkReply (inl ContainerOpenFailure, prev) (reply_world o) (reply_calls o).

(** The entries of the table in order, whatever the entries before
    ended with. *)
Fixpoint serve_table (table : list BfttfFontInfo) (prev : Z) (w : World P)
  : Reply P (list Served) :=
  match table with
  | [] => mkReply [] w []
  | fi :: rest =>
      let r := serve_entry prev fi w in
      let t := serve_table rest (reply r).2 (reply_world r) in
      mkReply ((reply r).1 :: reply t) (reply_world t) (reply_calls r ++ reply_calls t)
  end.

End Reference.

(** ** nxdt_utils.h: the alignment macros

    The macros on operands of one unsigned type of [w] bits (u32 and u64
    in the callers): sums and differences wrap, [~] is the complement
    within the width.  In [ALIGN_UP] the sum [x + (y - 1)] wraps at [w]
    bits, which is what C computes for a type at least as wide as [int]
    ([32 <= w]); operands of a narrower type are promoted to [int], where
    the sum does not wrap, and that case is not modelled.
    [#define ALIGN_UP(x, y)   (((x) + ((y) - 1)) & ~((y) - 1))]
    [#define ALIGN_DOWN(x, y) ((x) & ~((y) - 1))]
    [#define IS_POWER_OF_TWO(x) (((x) & ((x) - 1)) == 0)] *)
Definition wrap (w z : Z) : Z := z mod 2 ^ w.

Definition bit_not (w v : Z) : Z := wrap w (Z.lnot v).

Definition ALIGN_UP (w x y : Z) : Z :=
  Z.land (wrap w (x + wrap w (y - 1))) (bit_not w (wrap w (y - 1))).

Definition ALIGN_DOWN (w x y : Z) : Z :=
  Z.land x (bit_not w (wrap w (y - 1))).

Definition IS_POWER_OF_TWO (w x : Z) : bool :=
  Z.land x (wrap w (x - 1)) =? 0.

(** ** nacp.h: the inline helpers

    [nacpIsValidIconContext], [nacpIsValidContext] and [nacpFreeContext].
    The contexts of romfs.h are not part of these sources: their types,
    their all-zero values and the two release functions are a parameter.
    The release functions work on memory of their own (the platform
    state); the heap below holds what a [NacpContext] points to: byte
    buffers (the NACP, the icons, the XML) and the array of icon
    contexts. *)
Record NacpPlatform := {
  NWorld : Type;
  RomFileSystemContext : Type;
  RomFileSystemFileEntryPatch : Type;
  (* the values after memset(.., 0, ..) *)
  romfs_ctx_zero : RomFileSystemContext;
  nca_patch_zero : RomFileSystemFileEntryPatch;
  (* romfsFreeContext(&(nacp_ctx->romfs_ctx)) *)
  nacp_romfsFreeContext : RomFileSystemContext -> NWorld -> RomFileSystemContext * NWorld;
  (* romfsFreeFileEntryPatch(&(nacp_ctx->nca_patch)) *)
  romfsFreeFileEntryPatch :
    RomFileSystemFileEntryPatch -> NWorld -> RomFileSystemFileEntryPatch * NWorld
}.

Definition NacpLanguage_Count : Z := 16.

Record NacpIconContext := mkNacpIconContext {
  language : Z;               (* u8 language *)
  icon_size : Z;              (* u64 icon_size *)
  icon_data : option ptr      (* u8 *icon_data *)
}.

(** What a block of the heap holds. *)
Inductive NacpObj :=
| ObjBytes (bs : list byte)
| ObjIcons (icons : list NacpIconContext).

(** [free(p)] on this heap, as [free] above. *)
Definition free_obj (p : ptr) (h : gmap positive NacpObj) : option (gmap positive NacpObj) :=
  match h !! p.1 with
  | Some _ => if p.2 =? 0 then Some (delete p.1 h) else None
  | None => None
  end.

(** [if (p) free(p);] *)
Definition free_if (p : option ptr) (h : gmap positive NacpObj) : option (gmap positive NacpObj) :=
  match p with
  | None => Some h
  | Some q => free_obj q h
  end.

(** [icon_ctx[i]] for a pointer to the start of an array of icon
    contexts. *)
Definition icon_at (h : gmap positive NacpObj) (p : ptr) (i : Z) : option NacpIconContext :=
  match h !! p.1 with
  | Some (ObjIcons l) => if (p.2 =? 0) && (0 <=? i) then l !! Z.to_nat i else None
  | _ => None
  end.

Definition is_null (p : option ptr) : bool :=
  match p with
  | None => true
  | Some _ => false
  end.

(** [return (icon_ctx && icon_ctx->language < NacpLanguage_Count &&
    icon_ctx->icon_size && icon_ctx->icon_data);] *)
Definition nacpIsValidIconContext (icon_ctx : option NacpIconContext) : bool :=
  match icon_ctx with
  | None => false
  | Some ic =>
      (language ic <? NacpLanguage_Count) && negb (icon_size ic =? 0)
      && negb (is_null (icon_data ic))
  end.

(** The loop of [nacpIsValidContext]:
    [for(u8 i = 0; i < nacp_ctx->icon_count; i++)
       if (!nacpIsValidIconContext(&(nacp_ctx->icon_ctx[i]))) return false;] *)
Fixpoint valid_icons (fuel : nat) (h : gmap positive NacpObj) (count : Z) (icons : option ptr)
    (i : Z) : option bool :=
  if i <? count then
    match fuel, icons with
    | S fuel', Some p =>
        ic ← icon_at h p i;
        if negb (nacpIsValidIconContext (Some ic)) then Some false
        else valid_icons fuel' h count icons (u8 (i + 1))
    | _, _ => None
    end
  else Some true.

(** The loop of [nacpFreeContext]:
    [for(u8 i = 0; i < nacp_ctx->icon_count; i++)
       if (nacp_ctx->icon_ctx[i].icon_data) free(nacp_ctx->icon_ctx[i].icon_data);] *)
Fixpoint free_icons (fuel : nat) (count : Z) (p : ptr) (i : Z) (h : gmap positive NacpObj)
  : option (gmap positive NacpObj) :=
  if i <? count then
    match fuel with
    | S fuel' =>
        ic ← icon_at h p i;
        h' ← free_if (icon_data ic) h;
        free_icons fuel' count p (u8 (i + 1)) h'
    | O => None
    end
  else Some h.

Section Nacp.
Variable NP : NacpPlatform.

Record NacpContext := mkNacpContext {
  nca_ctx : option ptr;
  romfs_ctx : RomFileSystemContext NP;
  romfs_file_entry : option ptr;
  nca_patch : RomFileSystemFileEntryPatch NP;
  data : option ptr;
  data_hash : list byte;
  icon_count : Z;                         (* u8 *)
  icon_ctx : option ptr;
  authoring_tool_xml : option ptr;
  authoring_tool_xml_size : Z
}.

(** [memset(nacp_ctx, 0, sizeof(NacpContext))] *)
Definition nacp_zero : NacpContext :=
  mkNacpContext None (romfs_ctx_zero NP) None (nca_patch_zero NP) None
    (replicate 32 Byte.x00) 0 None None 0.

Definition nacpIsValidContext (nacp_ctx : option NacpContext) (h : gmap positive NacpObj)
  : option bool :=
  match nacp_ctx with
  | None => Some false
  | Some c =>
      if is_null (nca_ctx c) || is_null (romfs_file_entry c) || is_null (data c)
         || ((icon_count c =? 0) && negb (is_null (icon_ctx c)))
         || (negb (icon_count c =? 0) && is_null (icon_ctx c))
      then Some false
      else valid_icons 256 h (icon_count c) (icon_ctx c) 0
  end.

(** The result is the context as the call leaves it, the heap and the
    platform state. *)
Definition nacpFreeContext (nacp_ctx : option NacpContext)
    (h : gmap positive NacpObj) (w : NWorld NP)
  : option (option NacpContext * gmap positive NacpObj * NWorld NP) :=
  match nacp_ctx with
  | None => Some (None, h, w)
  | Some c =>
      let w1 := (nacp_romfsFreeContext NP (romfs_ctx c) w).2 in
      let w2 := (romfsFreeFileEntryPatch NP (nca_patch c) w1).2 in
      h1 ← free_if (data c) h;
      h2 ← match icon_ctx c with
           | Some p => h' ← free_icons 256 (icon_count c) p 0 h1; free_obj p h'
           | None => Some h1
           end;
      h3 ← free_if (authoring_tool_xml c) h2;
      Some (Some nacp_zero, h3, w2)
  end.

End Nacp.

Arguments nca_ctx {NP}.
Arguments romfs_ctx {NP}.
Arguments romfs_file_entry {NP}.
Arguments nca_patch {NP}.
Arguments data {NP}.
Arguments data_hash {NP}.
Arguments icon_count {NP}.
Arguments icon_ctx {NP}.
Arguments authoring_tool_xml {NP}.
Arguments authoring_tool_xml_size {NP}.

(** The blocks a context owns: the NACP, the data of its first
    [icon_count] icons, the icon array, the XML. *)
Definition icon_blocks (icons : list NacpIconContext) : list positive :=
  omap (fun ic => fst <$> icon_data ic) icons.

Definition nacp_blocks {NP : NacpPlatform} (c : NacpContext NP) (icons : list NacpIconContext)
  : list positive :=
  option_list (fst <$> data c)
    ++ icon_blocks (take (Z.to_nat (icon_count c)) icons)
    ++ option_list (fst <$> icon_ctx c)
    ++ option_list (fst <$> authoring_tool_xml c).

(** Every pointer of the context is the start of a live block of its own,
    and the icon array holds [icon_count] icon contexts. *)
Definition nacp_owned {NP : NacpPlatform} (c : NacpContext NP) (icons : list NacpIconContext)
    (h : gmap positive NacpObj) : Prop :=
  0 <= icon_count c < 2 ^ 8 /\
  (Z.to_nat (icon_count c) <= length icons)%nat /\
  (forall p, icon_ctx c = Some p -> h !! p.1 = Some (ObjIcons icons)) /\
  (icon_ctx c = None -> icons = []) /\
  (forall p, data c = Some p \/ icon_ctx c = Some p \/ authoring_tool_xml c = Some p \/
             (exists ic, ic ∈ take (Z.to_nat (icon_count c)) icons /\ icon_data ic = Some p) ->
             p.2 = 0) /\
  NoDup (nacp_blocks c icons) /\
  (forall b, b ∈ nacp_blocks c icons -> is_Some (h !! b)).

(** A platform whose contexts hold nothing. *)
Definition unit_nacp_platform : NacpPlatform := {|
  NWorld := unit;
  RomFileSystemContext := unit;
  RomFileSystemFileEntryPatch := unit;
  romfs_ctx_zero := tt;
  nca_patch_zero := tt;
  nacp_romfsFreeContext := fun r w => (r, w);
  romfsFreeFileEntryPatch := fun r w => (r, w)
|}.

(** A context with two icons. *)
Definition two_icons : list NacpIconContext :=
  [mkNacpIconContext 0 4 (Some (3%positive, 0)); mkNacpIconContext 2 4 (Some (4%positive, 0))].

Definition nacp_example : NacpContext unit_nacp_platform :=
  mkNacpContext unit_nacp_platform (Some (9%positive, 0)) tt (Some (8%positive, 0)) tt
    (Some (1%positive, 0)) (replicate 32 Byte.x00) 2 (Some (2%positive, 0)) None 0.

Definition nacp_example_heap : gmap positive NacpObj :=
  <[1%positive := ObjBytes file24]>
    (<[2%positive := ObjIcons two_icons]>
       (<[3%positive := ObjBytes file12]> (<[4%positive := ObjBytes file12]> ∅))).

(** [h'] is [h] without the blocks [bs]. *)
Definition freed (bs : list positive) (h h' : gmap positive NacpObj) : Prop :=
  forall b, h' !! b = if decide (b ∈ bs) then None else h !! b.

Definition valid_icon (ic : NacpIconContext) : Prop :=
  language ic < NacpLanguage_Count /\ icon_size ic <> 0 /\ icon_data ic <> None.
(** ** Lemmas on the decode step *)

Lemma u32_small z : 0 <= z < 2 ^ 32 -> u32 z = z.
Proof. intros H. unfold u32. apply Z.mod_small, H. Qed.

Lemma IS_ALIGNED_4 x : IS_ALIGNED x 4 = true <-> x mod 4 = 0.
Proof.
  unfold IS_ALIGNED. rewrite Z.eqb_eq.
  change (4 - 1) with (Z.ones 2). rewrite Z.land_ones by lia.
  change (2 ^ 2) with 4. reflexivity.
Qed.

Lemma lxor_key_bound w : 0 <= w < 2 ^ 32 -> 0 <= Z.lxor w g_bfttfKey < 2 ^ 32.
Proof.
  intros [Hw0 Hw]. assert (Hk : 0 <= g_bfttfKey) by (unfold g_bfttfKey; lia).
  split; [apply Z.lxor_nonneg; lia |].
  assert (Hn : 0 <= Z.lxor w g_bfttfKey) by (apply Z.lxor_nonneg; lia).
  destruct (Z.eq_dec (Z.lxor w g_bfttfKey) 0) as [-> | Hne]; [lia |].
  apply Z.log2_lt_pow2; [lia |].
  eapply Z.le_lt_trans; [apply Z.log2_lxor; lia |].
  apply Z.max_lub_lt.
  - destruct (Z.eq_dec w 0) as [-> | Hw']; [simpl; lia |].
    apply Z.log2_lt_pow2; lia.
  - unfold g_bfttfKey. vm_compute. reflexivity.
Qed.

Lemma length_xor_word bs : length (xor_word bs) = 4%nat.
Proof. unfold xor_word. apply length_le_split. Qed.

Lemma xor_word_involutive bs : length bs = 4%nat -> xor_word (xor_word bs) = bs.
Proof.
  intros Hl. unfold xor_word at 1. unfold xor_word.
  rewrite le_combine_split.
  assert (Hb : 0 <= le_combine bs < 2 ^ 32).
  { pose proof (le_combine_bound bs) as H. rewrite Hl in H. exact H. }
  change (2 ^ (Z.of_nat 4 * 8)) with (2 ^ 32).
  rewrite Z.mod_small by (apply lxor_key_bound, Hb).
  rewrite Z.lxor_assoc, Z.lxor_nilpotent, Z.lxor_0_r.
  apply split_le_combine', Hl.
Qed.

Lemma length_xor_words n l :
  (4 * n <= length l)%nat -> length (xor_words n l) = length l.
Proof.
  revert l. induction n as [| n IH]; intros l Hl; cbn [xor_words]; [reflexivity |].
  rewrite length_app, length_xor_word, IH by (rewrite length_drop; lia).
  rewrite length_drop. lia.
Qed.

Lemma xor_words_involutive n l :
  (4 * n <= length l)%nat -> xor_words n (xor_words n l) = l.
Proof.
  revert l. induction n as [| n IH]; intros l Hl; cbn [xor_words]; [reflexivity |].
  rewrite (take_app_length' _ _ 4 (eq_sym (length_xor_word _))).
  rewrite (drop_app_length' _ _ 4 (eq_sym (length_xor_word _))).
  rewrite xor_word_involutive by (rewrite length_take; lia).
  rewrite IH by (rewrite length_drop; lia).
  apply take_drop.
Qed.

Lemma take_drop_middle3 {A} (l1 l2 l3 : list A) (o k : nat) :
  length l1 = o -> length l2 = k ->
  take (o + k) (l1 ++ l2 ++ l3) = l1 ++ l2 /\ drop (o + k) (l1 ++ l2 ++ l3) = l3.
Proof.
  intros H1 H2. rewrite app_assoc.
  assert (Hl : (o + k)%nat = length (l1 ++ l2)) by (rewrite length_app; lia).
  split; [apply take_app_length', Hl | apply drop_app_length', Hl].
Qed.

Lemma decode_loop_done fuel size base i buf :
  u32 (size - 8) <= i -> decode_loop fuel size base i buf = Some buf.
Proof.
  intros H. destruct fuel; cbn [decode_loop];
    destruct (Z.ltb_spec i (u32 (size - 8))); (lia || reflexivity).
Qed.

Lemma decode_loop_run n : forall fuel size base i buf,
  (n <= fuel)%nat -> 8 <= size < 2 ^ 32 -> 0 <= i -> i + 4 * Z.of_nat n = size - 8 ->
  0 <= base -> base + size - 8 <= Z.of_nat (length buf) ->
  decode_loop fuel size base i buf =
    Some (take (Z.to_nat (base + i)) buf ++ xor_words n (drop (Z.to_nat (base + i)) buf)).
Proof.
  induction n as [| n IH]; intros fuel size base i buf Hf Hs Hi Hn Hb Hlen.
  - rewrite decode_loop_done by (rewrite u32_small; lia).
    cbn [xor_words]. rewrite take_drop. reflexivity.
  - destruct fuel as [| fuel]; [lia |]. cbn [decode_loop].
    rewrite (u32_small (size - 8)) by lia.
    destruct (Z.ltb_spec i (size - 8)) as [Hlt | Hge]; [| lia].
    unfold load_u32, store_u32, in_bounds.
    destruct (Z.leb_spec 0 (base + i)) as [_ | ?]; [| lia].
    destruct (Z.leb_spec (base + i + 4) (Z.of_nat (length buf))) as [_ | ?]; [| lia].
    cbn [andb mbind option_bind].
    set (o := Z.to_nat (base + i)).
    fold (xor_word (take 4 (drop o buf))).
    set (buf' := take o buf ++ xor_word (take 4 (drop o buf)) ++ drop (o + 4) buf).
    assert (Hlo : length (take o buf) = o) by (rewrite length_take; lia).
    destruct (take_drop_middle3 (take o buf) (xor_word (take 4 (drop o buf)))
                (drop (o + 4) buf) o 4 Hlo (length_xor_word _)) as [Ht Hd].
    rewrite (u32_small (i + 4)) by lia.
    rewrite (IH fuel size base (i + 4) buf') by
      (try lia; unfold buf'; rewrite !length_app, length_xor_word, length_take, length_drop; lia).
    replace (Z.to_nat (base + (i + 4))) with (o + 4)%nat by lia.
    fold buf' in Ht, Hd. rewrite Ht, Hd.
    cbn [xor_words]. rewrite drop_drop, <- app_assoc. reflexivity.
Qed.

Lemma decode_loop_decoded size base buf :
  8 < size < 2 ^ 32 -> size mod 4 = 0 -> 0 <= base ->
  base + size <= Z.of_nat (length buf) ->
  decode_loop (Z.to_nat size) size base 8 buf = Some (decoded size base buf).
Proof.
  intros Hs Ha Hb Hl. unfold decoded, words_decoded.
  destruct (Z.lt_ge_cases size 16) as [Hlt | Hge].
  - rewrite decode_loop_done by (rewrite u32_small; lia).
    replace (Z.to_nat ((size - 16) / 4)) with 0%nat
      by (assert ((size - 16) / 4 < 0) by (apply Z.div_lt_upper_bound; lia); lia).
    cbn [xor_words]. rewrite take_drop. reflexivity.
  - assert (Hq : size - 16 = 4 * ((size - 16) / 4)).
    { apply Z.div_exact; [lia |].
      rewrite <- Zminus_mod_idemp_l, Ha. reflexivity. }
    assert (0 <= (size - 16) / 4) by (apply Z.div_pos; lia).
    apply decode_loop_run; lia.
Qed.

Lemma bfttfDecodeFont_decoded fi h b base buf :
  fi_data fi = Some (b, base) -> h !! b = Some buf ->
  8 < fi_size fi < 2 ^ 32 -> fi_size fi mod 4 = 0 ->
  0 <= base -> base + fi_size fi <= Z.of_nat (length buf) ->
  bfttfDecodeFont (Some fi) h = Some (true, <[b := decoded (fi_size fi) base buf]> h).
Proof.
  intros Hd Hh Hs Ha Hb Hl. unfold bfttfDecodeFont.
  destruct (Z.leb_spec (fi_size fi) 8) as [? | _]; [lia |].
  apply IS_ALIGNED_4 in Ha. rewrite Ha, Hd, Hh. cbn [negb orb mbind option_bind].
  rewrite decode_loop_decoded by (try apply IS_ALIGNED_4; assumption).
  reflexivity.
Qed.

Lemma take_decoded size base (buf : list byte) :
  0 <= base -> base + 8 <= Z.of_nat (length buf) ->
  take (Z.to_nat (base + 8)) (decoded size base buf) = take (Z.to_nat (base + 8)) buf
  /\ drop (Z.to_nat (base + 8)) (decoded size base buf)
     = xor_words (words_decoded size) (drop (Z.to_nat (base + 8)) buf).
Proof.
  intros Hb Hl. unfold decoded.
  assert (Hlen : Z.to_nat (base + 8) = length (take (Z.to_nat (base + 8)) buf))
    by (rewrite length_take; lia).
  split; [apply take_app_length', Hlen | apply drop_app_length', Hlen].
Qed.

Lemma words_decoded_fit size base (buf : list byte) :
  8 < size -> 0 <= base -> base + size <= Z.of_nat (length buf) ->
  (4 * words_decoded size <= length (drop (Z.to_nat (base + 8)) buf))%nat.
Proof.
  intros Hs Hb Hl. unfold words_decoded. rewrite length_drop.
  assert (Hq : 4 * ((size - 16) / 4) <= size - 16) by (apply Z.mul_div_le; lia).
  lia.
Qed.

Lemma decoded_involutive size base (buf : list byte) :
  8 < size -> 0 <= base -> base + size <= Z.of_nat (length buf) ->
  decoded size base (decoded size base buf) = buf.
Proof.
  intros Hs Hb Hl.
  destruct (take_decoded size base buf) as [Ht Hd]; [lia | lia |].
  unfold decoded at 1. rewrite Ht, Hd.
  rewrite xor_words_involutive by (apply words_decoded_fit; assumption).
  apply take_drop.
Qed.

Lemma length_decoded size base (buf : list byte) :
  8 < size -> 0 <= base -> base + size <= Z.of_nat (length buf) ->
  length (decoded size base buf) = length buf.
Proof.
  intros Hs Hb Hl. unfold decoded.
  rewrite length_app, length_xor_words by (apply words_decoded_fit; assumption).
  rewrite length_take, length_drop. lia.
Qed.

(** C2.  For every buffer of [size] bytes with [size > 8], [size] a
    multiple of 4 and a non-null data pointer, decoding succeeds, and
    decoding the result again succeeds and gives back the original heap,
    hence the original buffer byte for byte. *)
Theorem bfttfDecodeFont_involution fi h b base buf :
  fi_data fi = Some (b, base) -> h !! b = Some buf ->
  8 < fi_size fi < 2 ^ 32 -> fi_size fi mod 4 = 0 ->
  0 <= base -> base + fi_size fi <= Z.of_nat (length buf) ->
  exists h',
    bfttfDecodeFont (Some fi) h = Some (true, h') /\
    bfttfDecodeFont (Some fi) h' = Some (true, h).
Proof.
  intros Hd Hh Hs Ha Hb Hl.
  exists (<[b := decoded (fi_size fi) base buf]> h). split.
  - apply bfttfDecodeFont_decoded; assumption.
  - rewrite (bfttfDecodeFont_decoded fi _ b base (decoded (fi_size fi) base buf));
      try assumption.
    + rewrite decoded_involutive by lia.
      rewrite insert_insert_eq, insert_id by assumption. reflexivity.
    + apply lookup_insert_eq.
    + rewrite length_decoded by lia. assumption.
Qed.

Lemma bfttfDecodeFont_involution_witness :
  exists h',
    bfttfDecodeFont (Some (mkFontInfo 0 "" 24 (Some (1%positive, 0))))
      {[1%positive := file24]} = Some (true, h') /\
    bfttfDecodeFont (Some (mkFontInfo 0 "" 24 (Some (1%positive, 0)))) h'
      = Some (true, {[1%positive := file24]}).
Proof.
  apply (bfttfDecodeFont_involution _ _ 1%positive 0 file24);
    [reflexivity | reflexivity | cbn; lia | reflexivity | lia | cbn; lia].
Defined.

(** C8.  When the descriptor is null, the size is at most 8 or not a
    multiple of 4, or the data pointer is null, [bfttfDecodeFont] returns
    false and the heap, hence the buffer, is unchanged. *)
Theorem bfttfDecodeFont_rejects font_info h :
  (font_info = None \/
   exists fi, font_info = Some fi /\
     (fi_size fi <= 8 \/ fi_size fi mod 4 <> 0 \/ fi_data fi = None)) ->
  bfttfDecodeFont font_info h = Some (false, h).
Proof.
  intros [-> | (fi & -> & Hc)]; [reflexivity |].
  unfold bfttfDecodeFont.
  destruct (Z.leb_spec (fi_size fi) 8) as [Hle | Hgt]; [reflexivity |].
  destruct (IS_ALIGNED (fi_size fi) 4) eqn:Hal; cbn [negb orb]; [| reflexivity].
  apply IS_ALIGNED_4 in Hal.
  destruct Hc as [Hc | [Hc | Hc]]; [lia | lia |].
  rewrite Hc. reflexivity.
Qed.

Lemma bfttfDecodeFont_rejects_witness :
  bfttfDecodeFont (Some (mkFontInfo 0 "" 10 (Some (1%positive, 0))))
    {[1%positive := file12]} = Some (false, {[1%positive := file12]}).
Proof.
  apply bfttfDecodeFont_rejects. right.
  exists (mkFontInfo 0 "" 10 (Some (1%positive, 0))).
  split; [reflexivity |]. right; left. vm_compute. discriminate.
Defined.

(** The words the loop visits end 8 bytes before the end of the buffer:
    the last 8 bytes of a decoded font are the bytes as fetched. *)
Lemma drop_xor_words n : forall l : list byte,
  (4 * n <= length l)%nat -> drop (4 * n) (xor_words n l) = drop (4 * n) l.
Proof.
  induction n as [| n IH]; intros l Hl; [reflexivity |].
  cbn [xor_words]. replace (4 * S n)%nat with (4 + 4 * n)%nat by lia.
  rewrite <- !drop_drop.
  rewrite (drop_app_length' _ _ 4 (eq_sym (length_xor_word _))).
  apply IH. rewrite length_drop. lia.
Qed.

Lemma decoded_keeps_tail size (buf : list byte) :
  8 < size -> size mod 4 = 0 -> Z.of_nat (length buf) = size ->
  drop (Z.to_nat (size - 8)) (decoded size 0 buf) = drop (Z.to_nat (size - 8)) buf.
Proof.
  intros Hs Ha Hl.
  destruct (Z.lt_ge_cases size 16) as [Hlt | Hge].
  - unfold decoded, words_decoded.
    replace (Z.to_nat ((size - 16) / 4)) with 0%nat
      by (assert ((size - 16) / 4 < 0) by (apply Z.div_lt_upper_bound; lia); lia).
    cbn [xor_words]. rewrite take_drop. reflexivity.
  - assert (Hq : size - 16 = 4 * ((size - 16) / 4)).
    { apply Z.div_exact; [lia |]. rewrite <- Zminus_mod_idemp_l, Ha. reflexivity. }
    assert (0 <= (size - 16) / 4) by (apply Z.div_pos; lia).
    replace (Z.to_nat (size - 8)) with (Z.to_nat (0 + 8) + 4 * words_decoded size)%nat
      by (unfold words_decoded; lia).
    rewrite <- !drop_drop.
    destruct (take_decoded size 0 buf) as [_ Hd]; [lia | lia |].
    rewrite Hd. apply drop_xor_words.
    apply (words_decoded_fit size 0 buf); lia.
Qed.

(** ** The state monad *)

Section CacheProperties.
Variable P : Platform.

Lemma bind_Some {A B} (m : M P A) (f : A -> M P B) s r s' :
  (m ≫= f) s = Some (r, s') <-> exists a s1, m s = Some (a, s1) /\ f a s1 = Some (r, s').
Proof.
  unfold mbind, M_bind. split.
  - destruct (m s) as [[a s1] |]; [eauto | discriminate].
  - intros (a & s1 & -> & H). exact H.
Qed.

Lemma bind_run {A B} (m : M P A) (f : A -> M P B) s a s1 :
  m s = Some (a, s1) -> (m ≫= f) s = f a s1.
Proof. intros H. unfold mbind, M_bind. rewrite H. reflexivity. Qed.

Lemma font_info_run i (s : State P) fi :
  g_fontInfo s !! i = Some fi -> font_info P i s = Some (fi, s).
Proof. intros H. unfold font_info. rewrite H. reflexivity. Qed.

Lemma font_info_Some i (s : State P) fi s' :
  font_info P i s = Some (fi, s') <-> g_fontInfo s !! i = Some fi /\ s' = s.
Proof.
  unfold font_info. destruct (g_fontInfo s !! i) as [fi0 |]; split.
  - intros [= -> ->]. auto.
  - intros [[= ->] ->]. reflexivity.
  - discriminate.
  - intros [[=] _].
Qed.

Lemma set_size_run i n (s : State P) fi :
  g_fontInfo s !! i = Some fi ->
  set_size P i n s = Some (tt, set_fontInfo P (<[i := with_size n fi]> (g_fontInfo s)) s).
Proof. intros H. unfold set_size. rewrite (bind_run _ _ _ _ _ (font_info_run _ _ _ H)). reflexivity. Qed.

Lemma set_data_run i p (s : State P) fi :
  g_fontInfo s !! i = Some fi ->
  set_data P i p s = Some (tt, set_fontInfo P (<[i := with_data p fi]> (g_fontInfo s)) s).
Proof. intros H. unfold set_data. rewrite (bind_run _ _ _ _ _ (font_info_run _ _ _ H)). reflexivity. Qed.

(** ** bfttfGetFontByType *)

Lemma bfttfGetFontByType_state (s : State P) fd ty r s' :
  bfttfGetFontByType P fd ty s = Some (r, s') -> s' = s.
Proof.
  unfold bfttfGetFontByType. destruct fd as [d |]; [| intros [= _ ->]; reflexivity].
  destruct (BfttfFontType_Total <=? ty); [intros [= _ ->]; reflexivity |].
  intros H. apply bind_Some in H as (fi & s1 & H1 & H2).
  apply font_info_Some in H1 as [_ ->].
  destruct (fi_data fi); [destruct (fi_size fi <=? 8) |];
    injection H2 as _ ->; reflexivity.
Qed.

(** C4.  For a type below [BfttfFontType_Total] whose slot holds a buffer
    of size [S > 8], the lookup succeeds with size [S - 8] and pointer
    [data + 8], and the first byte of the view is byte 8 of the cached
    buffer; when the type is out of range, or the slot's size is at most 8
    or its buffer is absent, the lookup returns false. *)
Theorem bfttfGetFontByType_view (s : State P) (fd : BfttfFontData) (font_type : Z) :
  (forall fi p,
      font_type < BfttfFontType_Total ->
      g_fontInfo s !! Z.to_nat font_type = Some fi ->
      8 < fi_size fi < 2 ^ 32 -> fi_data fi = Some p ->
      bfttfGetFontByType P (Some fd) font_type s
        = Some ((true, Some (mkFontData font_type (fi_size fi - 8) (Some (ptr_add p 8)))), s)
      /\ read_byte (heap s) (ptr_add p 8) 0 = read_byte (heap s) p 8)
  /\ (BfttfFontType_Total <= font_type \/
      (exists fi, g_fontInfo s !! Z.to_nat font_type = Some fi /\
                  (fi_size fi <= 8 \/ fi_data fi = None)) ->
      bfttfGetFontByType P (Some fd) font_type s = Some ((false, Some fd), s)).
Proof.
  split.
  - intros fi p Hty Hfi Hs Hd. split.
    + unfold bfttfGetFontByType.
      destruct (Z.leb_spec BfttfFontType_Total font_type) as [? | _]; [lia |].
      rewrite (bind_run _ _ _ _ _ (font_info_run _ _ _ Hfi)). rewrite Hd.
      destruct (Z.leb_spec (fi_size fi) 8) as [? | _]; [lia |].
      rewrite u32_small by lia. reflexivity.
    + unfold read_byte, ptr_add. cbn [fst snd]. rewrite Z.add_0_r. reflexivity.
  - unfold bfttfGetFontByType.
    destruct (Z.leb_spec BfttfFontType_Total font_type) as [Hge | Hlt]; [reflexivity |].
    intros [? | (fi & Hfi & Hc)]; [lia |].
    rewrite (bind_run _ _ _ _ _ (font_info_run _ _ _ Hfi)).
    destruct (fi_data fi) as [p |]; [| reflexivity].
    destruct Hc as [Hc | Hc]; [| discriminate].
    destruct (Z.leb_spec (fi_size fi) 8) as [_ | ?]; [reflexivity | lia].
Qed.

(** C10.  The lookup never changes the state; when it returns false the
    caller's descriptor is what it was; it returns true, and writes the
    three fields, only when the descriptor is non-null, the type is in
    range, and the slot has a size above 8 and a buffer. *)
Theorem bfttfGetFontByType_frame (s : State P) fd font_type r fd' s' :
  bfttfGetFontByType P fd font_type s = Some ((r, fd'), s') ->
  s' = s /\
  (r = false -> fd' = fd) /\
  (r = true ->
     exists d fi p,
       fd = Some d /\ font_type < BfttfFontType_Total /\
       g_fontInfo s !! Z.to_nat font_type = Some fi /\
       8 < fi_size fi /\ fi_data fi = Some p /\
       fd' = Some (mkFontData font_type (u32 (fi_size fi - 8)) (Some (ptr_add p 8)))).
Proof.
  intros H. split; [eapply bfttfGetFontByType_state, H |].
  unfold bfttfGetFontByType in H.
  destruct fd as [d |]; [| injection H as <- <- _; split; [reflexivity | discriminate]].
  destruct (Z.leb_spec BfttfFontType_Total font_type) as [Hge | Hlt];
    [injection H as <- <- _; split; [reflexivity | discriminate] |].
  apply bind_Some in H as (fi & s1 & H1 & H2).
  apply font_info_Some in H1 as [Hfi ->].
  destruct (fi_data fi) as [p |] eqn:Hd;
    [| injection H2 as <- <- _; split; [reflexivity | discriminate]].
  destruct (Z.leb_spec (fi_size fi) 8) as [Hle | Hgt];
    injection H2 as <- <- _; (split; [try reflexivity; discriminate |]); [discriminate |].
  intros _. exists d, fi, p. auto 10.
Qed.

(** ** bfttfExit *)

Lemma set_size_Some i n (s : State P) u s' :
  set_size P i n s = Some (u, s') ->
  exists fi, g_fontInfo s !! i = Some fi /\
             s' = set_fontInfo P (<[i := with_size n fi]> (g_fontInfo s)) s.
Proof.
  unfold set_size. intros H. apply bind_Some in H as (fi & s1 & H1 & H2).
  apply font_info_Some in H1 as [Hfi ->]. injection H2 as _ <-. eauto.
Qed.

Lemma free_data_Some i (s : State P) u s' :
  free_data P i s = Some (u, s') ->
  exists fi, g_fontInfo s !! i = Some fi /\
    ((fi_data fi = None /\ s' = s) \/
     (exists p h, fi_data fi = Some p /\ free p (heap s) = Some h /\ s' = set_heap P h s)).
Proof.
  unfold free_data. intros H. apply bind_Some in H as (fi & s1 & H1 & H2).
  apply font_info_Some in H1 as [Hfi ->]. exists fi. split; [exact Hfi |].
  destruct (fi_data fi) as [p |].
  - right. unfold free_block in H2. destruct (free p (heap s)) as [h |] eqn:Hf; [| discriminate].
    injection H2 as _ <-. eauto.
  - left. injection H2 as _ <-. auto.
Qed.

Lemma free_Some p (h h' : gmap positive (list byte)) :
  free p h = Some h' -> is_Some (h !! p.1) /\ p.2 = 0 /\ h' = delete p.1 h.
Proof.
  unfold free. destruct (h !! p.1) as [buf |]; [| discriminate].
  destruct (Z.eqb_spec p.2 0); [| discriminate]. intros [= <-]. eauto.
Qed.

Lemma with_size_idemp n fi : with_size n (with_size n fi) = with_size n fi.
Proof. reflexivity. Qed.

(** The loop of [bfttfExit] sets the size of every slot it visits to 0 and
    leaves every other field of every slot, the data pointer among them,
    as it was. *)
Lemma exit_loop_slots idx : forall (s : State P) u s',
  exit_loop P idx s = Some (u, s') ->
  g_bfttfInterfaceInit s' = g_bfttfInterfaceInit s /\
  world s' = world s /\ calls s' = calls s /\
  forall i, g_fontInfo s' !! i =
    if decide (i ∈ idx) then with_size 0 <$> g_fontInfo s !! i else g_fontInfo s !! i.
Proof.
  induction idx as [| k idx IH]; intros s u s' H.
  - injection H as _ <-. repeat split; reflexivity.
  - cbn [exit_loop] in H.
    apply bind_Some in H as (u1 & s1 & H1 & H). apply bind_Some in H as (u2 & s2 & H2 & H).
    apply set_size_Some in H1 as (fi & Hfi & ->).
    apply free_data_Some in H2 as (fi2 & Hfi2 & Hs2).
    apply IH in H as (Hinit & Hw & Hc & Hsl).
    assert (Hg : g_fontInfo s2 = <[k := with_size 0 fi]> (g_fontInfo s)
                 /\ g_bfttfInterfaceInit s2 = g_bfttfInterfaceInit s
                 /\ world s2 = world s /\ calls s2 = calls s).
    { destruct Hs2 as [[_ ->] | (p & h & _ & _ & ->)]; repeat split; reflexivity. }
    destruct Hg as (Hg & Hi2 & Hw2 & Hc2).
    rewrite Hinit, Hw, Hc, Hi2, Hw2, Hc2. repeat split; try reflexivity.
    intros i. rewrite Hsl, Hg. clear Hsl.
    assert (Hk : (k < length (g_fontInfo s))%nat) by (eapply lookup_lt_Some, Hfi).
    destruct (decide (i = k)) as [-> | Hne].
    + rewrite list_lookup_insert_eq by exact Hk. rewrite Hfi.
      rewrite (decide_True (P := k ∈ k :: idx)) by (left).
      destruct (decide (k ∈ idx)); reflexivity.
    + rewrite list_lookup_insert_ne by congruence.
      destruct (decide (i ∈ idx)) as [Hin | Hnin].
      * rewrite decide_True by (right; exact Hin). reflexivity.
      * rewrite decide_False; [reflexivity |].
        intros Hin. apply elem_of_cons in Hin as [? | ?]; contradiction.
Qed.

Lemma bfttfExit_slots (s : State P) u s' :
  bfttfExit P s = Some (u, s') ->
  g_bfttfInterfaceInit s' = false /\
  forall i, g_fontInfo s' !! i =
    if decide (i < g_fontInfoCount)%nat then with_size 0 <$> g_fontInfo s !! i
    else g_fontInfo s !! i.
Proof.
  unfold bfttfExit. intros H. apply bind_Some in H as (u1 & s1 & H1 & H2).
  injection H2 as _ <-. apply exit_loop_slots in H1 as (_ & _ & _ & Hsl).
  split; [reflexivity |]. intros i. cbn [g_fontInfo set_init]. rewrite Hsl.
  destruct (decide (i < g_fontInfoCount)%nat) as [Hlt | Hge].
  - rewrite decide_True; [reflexivity |]. apply elem_of_seq. lia.
  - rewrite decide_False; [reflexivity |]. rewrite elem_of_seq. lia.
Qed.

Lemma lookup_after_exit (s : State P) u s' fd font_type :
  length (g_fontInfo s) = g_fontInfoCount ->
  bfttfExit P s = Some (u, s') ->
  bfttfGetFontByType P fd font_type s' = Some ((false, fd), s').
Proof.
  intros Hlen H. apply bfttfExit_slots in H as [_ Hsl].
  unfold bfttfGetFontByType. destruct fd as [d |]; [| reflexivity].
  destruct (Z.leb_spec BfttfFontType_Total font_type) as [Hge | Hlt]; [reflexivity |].
  assert (Hi : (Z.to_nat font_type < g_fontInfoCount)%nat)
    by (unfold BfttfFontType_Total in Hlt; unfold g_fontInfoCount; lia).
  destruct (lookup_lt_is_Some_2 (g_fontInfo s) (Z.to_nat font_type)) as [fi Hfi];
    [lia |].
  specialize (Hsl (Z.to_nat font_type)). rewrite decide_True, Hfi in Hsl by exact Hi.
  rewrite (bind_run _ _ _ _ _ (font_info_run _ _ _ Hsl)).
  cbn [with_size fi_data fi_size]. destruct (fi_data fi); reflexivity.
Qed.

(** ** bfttfInitialize: one font *)

Lemma platform_call_run {A} c (f : World P -> A * World P) (s : State P) :
  platform_call P c f s = Some ((f (world s)).1, set_world P (f (world s)).2 c s).
Proof. unfold platform_call. destruct (f (world s)). reflexivity. Qed.

Lemma fresh_block_None (h : gmap positive (list byte)) : h !! fresh_block h = None.
Proof.
  unfold fresh_block. apply (not_elem_of_dom (D := gset positive)).
  apply (is_fresh (dom h)).
Qed.

Lemma free_data_run i (s : State P) fi b buf :
  g_fontInfo s !! i = Some fi -> fi_data fi = Some (b, 0) -> heap s !! b = Some buf ->
  free_data P i s = Some (tt, set_heap P (delete b (heap s)) s).
Proof.
  intros Hfi Hd Hb. unfold free_data.
  rewrite (bind_run _ _ _ _ _ (font_info_run _ _ _ Hfi)), Hd.
  unfold free_block, free. cbn [fst snd]. rewrite Hb. reflexivity.
Qed.

Lemma write_bytes_fresh n bs :
  0 <= n ->
  exists buf', write_bytes (replicate (Z.to_nat n) Byte.x00) 0 n bs = Some buf'
               /\ Z.of_nat (length buf') = n.
Proof.
  intros Hn. unfold write_bytes.
  assert (Hl : (length (take (Z.to_nat n) bs) <= Z.to_nat n)%nat)
    by (rewrite length_take; lia).
  rewrite length_replicate.
  destruct (Z.leb_spec (0 + Z.of_nat (length (take (Z.to_nat n) bs))) (Z.of_nat (Z.to_nat n)))
    as [_ | ?]; [| lia].
  cbn [Z.leb andb]. eexists. split; [reflexivity |].
  rewrite !length_app, length_take, length_drop, length_replicate, length_take. cbn. lia.
Qed.

Lemma u32_range z : 0 <= u32 z < 2 ^ 32.
Proof. unfold u32. apply Z.mod_pos_bound. lia. Qed.

Lemma u32_le z : 0 <= z -> u32 z <= z.
Proof. intros H. unfold u32. apply Z.mod_le; lia. Qed.

Lemma u64_range z : 0 <= u64 z < 2 ^ 64.
Proof. unfold u64. apply Z.mod_pos_bound. lia. Qed.

(** [bfttfDecodeFont] on a slot whose pointer is the start of a live block
    at least as long as the size field: it is defined, and either rejects
    the font and leaves the heap alone, or decodes the block in place. *)
Lemma bfttfDecodeFont_live fi (h : gmap positive (list byte)) b buf :
  fi_data fi = Some (b, 0) -> h !! b = Some buf ->
  0 <= fi_size fi < 2 ^ 32 -> fi_size fi <= Z.of_nat (length buf) ->
  (bfttfDecodeFont (Some fi) h = Some (false, h)
   /\ (fi_size fi <= 8 \/ fi_size fi mod 4 <> 0))
  \/ (bfttfDecodeFont (Some fi) h = Some (true, <[b := decoded (fi_size fi) 0 buf]> h)
      /\ 8 < fi_size fi /\ fi_size fi mod 4 = 0).
Proof.
  intros Hd Hb Hs Hl.
  destruct (Z.le_gt_cases (fi_size fi) 8) as [Hle | Hgt].
  { left. split; [| auto]. apply bfttfDecodeFont_rejects. right. exists fi. auto. }
  destruct (Z.eq_dec (fi_size fi mod 4) 0) as [Ha | Ha].
  - right. split; [| auto]. eapply bfttfDecodeFont_decoded; eauto; lia.
  - left. split; [| auto]. apply bfttfDecodeFont_rejects. right. exists fi. auto.
Qed.

Lemma malloc_run_fail n (s : State P) :
  (malloc_succeeds P n (world s)).1 = false ->
  malloc P n s = Some (None, set_world P (malloc_succeeds P n (world s)).2 (CallMalloc n) s).
Proof.
  intros H. unfold malloc.
  rewrite (bind_run _ _ _ _ _ (platform_call_run _ _ _)), H. reflexivity.
Qed.

Lemma malloc_run_ok n (s : State P) :
  (malloc_succeeds P n (world s)).1 = true ->
  malloc P n s =
    Some (Some (fresh_block (heap s), 0),
          set_heap P (<[fresh_block (heap s) := replicate (Z.to_nat n) Byte.x00]> (heap s))
            (set_world P (malloc_succeeds P n (world s)).2 (CallMalloc n) s)).
Proof.
  intros H. unfold malloc.
  rewrite (bind_run _ _ _ _ _ (platform_call_run _ _ _)), H. reflexivity.
Qed.

Lemma read_entry_run_fail i e n (s : State P) fi :
  g_fontInfo s !! i = Some fi ->
  (romfsReadFileEntryData P e n 0 (world s)).1 = None ->
  read_entry P i e n s =
    Some (false, set_world P (romfsReadFileEntryData P e n 0 (world s)).2
                   (CallRomfsReadFileEntryData (fi_path fi) n) s).
Proof.
  intros Hfi H. unfold read_entry.
  rewrite (bind_run _ _ _ _ _ (font_info_run _ _ _ Hfi)).
  rewrite (bind_run _ _ _ _ _ (platform_call_run _ _ _)), H. reflexivity.
Qed.

Lemma read_entry_run_ok i e n (s : State P) fi bs b buf buf' :
  g_fontInfo s !! i = Some fi ->
  (romfsReadFileEntryData P e n 0 (world s)).1 = Some bs ->
  fi_data fi = Some (b, 0) -> heap s !! b = Some buf ->
  write_bytes buf 0 n bs = Some buf' ->
  read_entry P i e n s =
    Some (true, set_heap P (<[b := buf']> (heap s))
                  (set_world P (romfsReadFileEntryData P e n 0 (world s)).2
                     (CallRomfsReadFileEntryData (fi_path fi) n) s)).
Proof.
  intros Hfi H Hd Hb Hw. unfold read_entry.
  rewrite (bind_run _ _ _ _ _ (font_info_run _ _ _ Hfi)).
  rewrite (bind_run _ _ _ _ _ (platform_call_run _ _ _)), H, Hd.
  unfold mbind at 1, M_bind, write_block. cbn [heap set_world]. rewrite Hb, Hw.
  reflexivity.
Qed.

Lemma decode_font_run i (s : State P) fi r h :
  g_fontInfo s !! i = Some fi ->
  bfttfDecodeFont (Some fi) (heap s) = Some (r, h) ->
  decode_font P i s = Some (r, set_heap P h s).
Proof.
  intros Hfi H. unfold decode_font.
  rewrite (bind_run _ _ _ _ _ (font_info_run _ _ _ Hfi)).
  unfold decode_block. rewrite H. reflexivity.
Qed.

Lemma fetch_font_spec i (s : State P) fi :
  g_fontInfo s !! i = Some fi ->
  exists ok s', fetch_font P i s = Some (ok, s') /\ slot_step i s s' ok.
Proof.
  intros Hfi. unfold fetch_font.
  rewrite (bind_run _ _ _ _ _ (font_info_run _ _ _ Hfi)).
  rewrite (bind_run _ _ _ _ _ (platform_call_run _ _ _)).
  set (s1 := set_world P _ _ s).
  assert (Hl : (i < length (g_fontInfo s))%nat) by (eapply lookup_lt_Some, Hfi).
  destruct ((romfsGetFileEntryByPath P (fi_path fi) (world s)).1) as [e |].
  2: { exists false, s1. split; [reflexivity |].
       split; [reflexivity |]. split; [eexists; reflexivity |].
       exists fi, fi. rewrite list_insert_id by exact Hfi. auto. }
  set (n := u64 (file_entry_size P e)).
  destruct (Z.eqb_spec n 0) as [Hn0 | Hn0].
  { exists false, s1. split; [reflexivity |].
    split; [reflexivity |]. split; [eexists; reflexivity |].
    exists fi, fi. rewrite list_insert_id by exact Hfi. auto. }
  assert (Hn : 0 < n < 2 ^ 64) by (pose proof (u64_range (file_entry_size P e)); fold n in H; lia).
  destruct ((malloc_succeeds P n (world s1)).1) eqn:Hm.
  2: { rewrite (bind_run _ _ _ _ _ (malloc_run_fail _ _ Hm)).
       erewrite bind_run by (apply set_data_run; exact Hfi).
       eexists false, _. split; [reflexivity |].
       split; [reflexivity |]. split; [eexists; cbn; rewrite <- app_assoc; reflexivity |].
       exists fi, (with_data None fi). cbn. repeat split; auto. }
  rewrite (bind_run _ _ _ _ _ (malloc_run_ok _ _ Hm)).
  set (b := fresh_block (heap s1)).
  erewrite bind_run by (apply set_data_run; exact Hfi).
  set (fi1 := with_data (Some (b, 0)) fi).
  match goal with |- context [read_entry P i e n ≫= _] =>
    match goal with |- exists ok s', (_ ≫= _) ?st = _ /\ _ => set (s2 := st) end end.
  assert (Hfi1 : g_fontInfo s2 !! i = Some fi1)
    by (cbn; apply list_lookup_insert_eq; exact Hl).
  assert (Hb2 : heap s2 !! b = Some (replicate (Z.to_nat n) Byte.x00))
    by (cbn; apply lookup_insert_eq).
  assert (Hfresh : heap s !! b = None) by apply fresh_block_None.
  destruct ((romfsReadFileEntryData P e n 0 (world s2)).1) as [bs |] eqn:Hr.
  2: { rewrite (bind_run _ _ _ _ _ (read_entry_run_fail _ _ _ _ _ Hfi1 Hr)). cbn [negb].
       erewrite bind_run by (eapply free_data_run; [exact Hfi1 | reflexivity | exact Hb2]).
       erewrite bind_run by (apply set_data_run; exact Hfi1).
       eexists false, _. split; [reflexivity |].
       split; [reflexivity |]. split; [eexists; cbn; rewrite <- !app_assoc; reflexivity |].
       exists fi, (with_data None fi). cbn.
       rewrite list_insert_insert_eq, delete_insert_id by exact Hfresh.
       repeat split; auto. }
  destruct (write_bytes_fresh n bs) as (buf1 & Hw & Hlen1); [lia |].
  rewrite (bind_run _ _ _ _ _ (read_entry_run_ok _ _ _ _ _ _ _ _ _ Hfi1 Hr eq_refl Hb2 Hw)).
  cbn [negb].
  erewrite bind_run by (apply set_size_run; cbn; exact Hfi1).
  set (fi2 := with_size (u32 n) fi1).
  match goal with |- exists ok s', (_ ≫= _) ?st = _ /\ _ => set (s3 := st) end.
  assert (Hfi2 : g_fontInfo s3 !! i = Some fi2).
  { cbn. apply list_lookup_insert_eq. rewrite length_insert. exact Hl. }
  assert (Hb3 : heap s3 !! b = Some buf1) by (cbn; apply lookup_insert_eq).
  destruct (bfttfDecodeFont_live fi2 (heap s3) b buf1 eq_refl Hb3) as [[Hdec Hc] | (Hdec & Hgt & Hal)].
  { cbn. apply u32_range. }
  { cbn. rewrite Hlen1. apply u32_le. lia. }
  - rewrite (bind_run _ _ _ _ _ (decode_font_run _ _ _ _ _ Hfi2 Hdec)). cbn [negb].
    erewrite bind_run by (eapply free_data_run; [exact Hfi2 | reflexivity | exact Hb3]).
    erewrite bind_run by (apply set_data_run; exact Hfi2).
    erewrite bind_run by (apply set_size_run; cbn; apply list_lookup_insert_eq;
                          rewrite !length_insert; exact Hl).
    eexists false, _. split; [reflexivity |].
    split; [reflexivity |]. split; [eexists; cbn; rewrite <- !app_assoc; reflexivity |].
    exists fi, (with_size 0 (with_data None fi)). cbn.
    rewrite !list_insert_insert_eq, insert_insert_eq, delete_insert_id by exact Hfresh.
    repeat split; auto.
  - rewrite (bind_run _ _ _ _ _ (decode_font_run _ _ _ _ _ Hfi2 Hdec)). cbn [negb].
    eexists true, _. split; [reflexivity |].
    split; [reflexivity |]. split; [eexists; cbn; rewrite <- !app_assoc; reflexivity |].
    exists fi, fi2. cbn.
    rewrite !list_insert_insert_eq, !insert_insert_eq.
    split; [exact Hfi |]. split; [reflexivity |].
    exists (decoded (u32 n) 0 buf1).
    assert (Hld : Z.of_nat (length (decoded (u32 n) 0 buf1)) = n).
    { cbn in Hgt. rewrite length_decoded; [exact Hlen1 | exact Hgt | lia |].
      rewrite Hlen1. pose proof (u32_le n). lia. }
    rewrite Hld. repeat split; auto.
Qed.


(** ** bfttfInitialize: the container and the loop body *)

Lemma open_container_spec title_id (s : State P) :
  exists ok s',
    open_container P title_id s = Some (ok, s') /\
    g_bfttfInterfaceInit s' = g_bfttfInterfaceInit s /\
    g_fontInfo s' = g_fontInfo s /\ heap s' = heap s /\
    exists rest, calls s' = calls s ++ CallTitleGetInfo title_id :: rest.
Proof.
  unfold open_container.
  rewrite (bind_run _ _ _ _ _ (platform_call_run _ _ _)).
  destruct ((titleGetInfoFromStorageByTitleId P title_id (world s)).1) as [ti |].
  2: { eexists false, _. split; [reflexivity |]. cbn. repeat split.
       exists []. reflexivity. }
  rewrite (bind_run _ _ _ _ _ (platform_call_run _ _ _)).
  match goal with |- context [negb ?c] => destruct c end; cbn [negb].
  - rewrite platform_call_run. eexists _, _. split; [reflexivity |]. cbn. repeat split.
    eexists. rewrite <- !app_assoc. reflexivity.
  - eexists false, _. split; [reflexivity |]. cbn. repeat split.
    eexists. rewrite <- !app_assoc. reflexivity.
Qed.

Lemma slot_step_from i (s0 s s' : State P) ok :
  g_bfttfInterfaceInit s = g_bfttfInterfaceInit s0 ->
  g_fontInfo s = g_fontInfo s0 -> heap s = heap s0 ->
  (exists cs, calls s = calls s0 ++ cs) ->
  slot_step i s s' ok -> slot_step i s0 s' ok.
Proof.
  intros Hi Hg Hh [cs0 Hc] (Hi' & [cs Hc'] & fi & fi' & Hfi & Hg' & Hok).
  rewrite Hg, Hh in *. split; [congruence |].
  split; [exists (cs0 ++ cs); rewrite Hc', Hc, app_assoc; reflexivity |].
  exists fi, fi'. auto.
Qed.

Lemma slot_step_skip i (s s' : State P) fi :
  g_fontInfo s !! i = Some fi ->
  g_bfttfInterfaceInit s' = g_bfttfInterfaceInit s ->
  g_fontInfo s' = g_fontInfo s -> heap s' = heap s ->
  (exists cs, calls s' = calls s ++ cs) ->
  slot_step i s s' false.
Proof.
  intros Hfi Hi Hg Hh Hc. split; [exact Hi |]. split; [exact Hc |].
  exists fi, fi. rewrite list_insert_id by exact Hfi. auto.
Qed.

Lemma font_body_spec i prev (s : State P) fi :
  g_fontInfo s !! i = Some fi ->
  exists ok prev' s',
    font_body P i prev s = Some ((ok, prev'), s') /\ slot_step i s s' ok.
Proof.
  intros Hfi. unfold font_body.
  rewrite (bind_run _ _ _ _ _ (font_info_run _ _ _ Hfi)).
  destruct (fi_title_id fi =? prev); cbn [negb].
  - destruct (fetch_font_spec i s fi Hfi) as (ok & s' & Hrun & Hstep).
    rewrite (bind_run _ _ _ _ _ Hrun). eauto.
  - destruct (open_container_spec (fi_title_id fi) s)
      as (ok & s1 & Hrun & Hi & Hg & Hh & rest & Hc).
    rewrite (bind_run _ _ _ _ _ Hrun).
    destruct ok; cbn [negb].
    + assert (Hfi1 : g_fontInfo s1 !! i = Some fi) by (rewrite Hg; exact Hfi).
      destruct (fetch_font_spec i s1 fi Hfi1) as (ok & s' & Hrun' & Hstep).
      rewrite (bind_run _ _ _ _ _ Hrun').
      eexists _, _, _. split; [reflexivity |].
      eapply slot_step_from; eauto.
    + eexists _, _, _. split; [reflexivity |].
      apply (slot_step_skip i s s1 fi); eauto.
Qed.

(** ** bfttfInitialize: the loop *)

Lemma released_size fi fi' : released fi fi' -> fi_size fi' = 0.
Proof. intros (_ & _ & H & _). exact H. Qed.

Lemma slot_step_failed_released fi fi' :
  fi_size fi = 0 ->
  fi' = fi \/ fi' = with_data None fi \/ fi' = with_size 0 (with_data None fi) ->
  released fi fi'.
Proof.
  intros Hs [-> | [-> | ->]]; unfold released; cbn; auto.
Qed.

Lemma font_loop_spec idx : forall count prev (s : State P),
  NoDup idx ->
  (forall i, i ∈ idx -> exists fi, g_fontInfo s !! i = Some fi /\ fi_size fi = 0) ->
  0 <= count -> count + Z.of_nat (length idx) < 2 ^ 32 ->
  exists count' s',
    font_loop P idx count prev s = Some (count', s') /\ loop_post idx s s' count count'.
Proof.
  induction idx as [| i idx IH]; intros count prev s Hnd Hpre Hc0 Hcb.
  - exists count, s. split; [reflexivity |].
    unfold loop_post. split_and!; auto; try lia.
    + intros i fi fi' Hin. apply elem_of_nil in Hin. contradiction.
    + intros i j fi' fj' Hin. apply elem_of_nil in Hin. contradiction.
    + split; [lia |].
      intros (i & fi' & Hin & _). apply elem_of_nil in Hin. contradiction.
  - apply NoDup_cons in Hnd as [Hni Hnd].
    destruct (Hpre i) as (fi & Hfi & Hsz); [left |].
    destruct (font_body_spec i prev s fi Hfi) as (ok & prev' & s1 & Hrun & Hstep).
    cbn [font_loop]. rewrite (bind_run _ _ _ _ _ Hrun).
    destruct Hstep as (Hi1 & _ & fi0 & fi' & Hfi0 & Hg1 & Hok).
    assert (fi0 = fi) as -> by congruence. clear Hfi0.
    assert (Hl : (i < length (g_fontInfo s))%nat) by (eapply lookup_lt_Some, Hfi).
    assert (Hs1i : g_fontInfo s1 !! i = Some fi')
      by (rewrite Hg1; apply list_lookup_insert_eq; exact Hl).
    assert (Hs1ne : forall j, j <> i -> g_fontInfo s1 !! j = g_fontInfo s !! j)
      by (intros j Hj; rewrite Hg1; apply list_lookup_insert_ne; congruence).
    assert (Hheap1 : forall b buf, heap s !! b = Some buf -> heap s1 !! b = Some buf).
    { intros b buf Hb. destruct ok.
      - destruct Hok as (buf0 & _ & _ & _ & ->).
        rewrite lookup_insert_ne; [exact Hb |].
        intros <-. rewrite fresh_block_None in Hb. discriminate.
      - destruct Hok as [-> _]. exact Hb. }
    set (count1 := if ok then u32 (count + 1) else count).
    assert (Hc1 : count1 = if ok then count + 1 else count).
    { unfold count1. destruct ok; [apply u32_small | reflexivity].
      cbn [length] in Hcb. lia. }
    destruct (IH count1 prev' s1 Hnd) as (count' & s' & Hrun' & Hpost).
    { intros j Hj. destruct (Hpre j) as (fj & Hfj & Hsj); [right; exact Hj |].
      exists fj. split; [| exact Hsj]. rewrite Hs1ne; [exact Hfj |].
      intros ->. contradiction. }
    { rewrite Hc1. destruct ok; lia. }
    { rewrite Hc1. cbn [length] in Hcb. destruct ok; lia. }
    exists count', s'. split; [exact Hrun' |].
    destruct Hpost as (Hi' & Hlen' & Hout' & Hheap' & Hin' & Hdom' & Hdis' & Hle' & Hiff').
    assert (Hfresh' : forall k fk', k ∈ idx -> g_fontInfo s' !! k = Some fk' ->
              8 < fi_size fk' -> fi_data fk' = Some (fresh_block (heap s), 0) -> ok = false).
    { intros k fk' Hk Hfk' Hgt Hd.
      assert (Hki : k <> i) by (intros ->; contradiction).
      destruct (Hpre k) as (fk & Hfk & _); [right; exact Hk |].
      destruct (Hin' k fk fk' Hk) as [(b & buf & Hdb & Hn1 & _) | Hrel];
        [rewrite Hs1ne; assumption | assumption | | apply released_size in Hrel; lia].
      destruct ok; [| reflexivity].
      destruct Hok as (buf0 & _ & _ & _ & Hh).
      rewrite Hdb in Hd. injection Hd as ->.
      rewrite Hh, lookup_insert_eq in Hn1. discriminate. }
    assert (Hs'i : g_fontInfo s' !! i = Some fi') by (rewrite Hout'; assumption).
    assert (Hokfi : if ok then loaded (heap s) (heap s') fi' /\ 8 < fi_size fi'
                    else released fi fi').
    { destruct ok.
      - destruct Hok as (buf0 & Hfi' & Hgt & Hal & Hh). split; [| exact Hgt].
        exists (fresh_block (heap s)), buf0. rewrite Hfi' in *. cbn in *.
        repeat split; auto using fresh_block_None.
        apply Hheap'. rewrite Hh. apply lookup_insert_eq.
      - destruct Hok as [_ Hc]. apply slot_step_failed_released; assumption. }
    unfold loop_post. split_and!; [| | | | | | | | split].
    + congruence.
    + rewrite Hlen', Hg1. apply length_insert.
    + intros j Hj. rewrite Hout', Hs1ne; [reflexivity | |].
      * intros ->. apply Hj. left.
      * intros Hin. apply Hj. right. exact Hin.
    + intros b buf Hb. apply Hheap', Hheap1, Hb.
    + intros k fk fk' Hk Hfk Hfk'. apply elem_of_cons in Hk as [-> | Hk].
      * assert (fk = fi) as -> by congruence. assert (fk' = fi') as -> by congruence.
        destruct ok; [left; apply Hokfi | right; exact Hokfi].
      * assert (Hki : k <> i) by (intros ->; contradiction).
        destruct (Hin' k fk fk' Hk) as [Hld | Hrel]; [rewrite Hs1ne; assumption | assumption | | right; exact Hrel].
        left. destruct Hld as (b & buf & Hd & Hn1 & Hb' & Hrest).
        exists b, buf. repeat split; try tauto.
        destruct (heap s !! b) as [buf0 |] eqn:Hb0; [| reflexivity].
        apply Hheap1 in Hb0. congruence.
    + intros b Hb. destruct (Hdom' b Hb) as [Hb1 | (k & fk' & Hk & Hfk' & Hgt & Hd)].
      * destruct ok.
        -- destruct Hok as (buf0 & Hfi' & Hgt & Hal & Hh).
           destruct (decide (b = fresh_block (heap s))) as [-> | Hne].
           ++ right. exists i, fi'. split; [left |]. split; [exact Hs'i |].
              split; [exact Hgt |]. rewrite Hfi'. reflexivity.
           ++ left. rewrite Hh, lookup_insert_ne in Hb1 by congruence. exact Hb1.
        -- destruct Hok as [Hh _]. left. rewrite <- Hh. exact Hb1.
      * right. exists k, fk'. split; [right; exact Hk | auto].
    + intros k l fk' fl' Hk Hl' Hfk' Hfl' Hgk Hgl Hd.
      assert (Hhead : forall f', g_fontInfo s' !! i = Some f' -> 8 < fi_size f' ->
                ok = true /\ fi_data f' = Some (fresh_block (heap s), 0)).
      { intros f' Hf' Hgt. assert (f' = fi') as -> by congruence.
        destruct ok; [| apply released_size in Hokfi; lia].
        destruct Hok as (buf0 & -> & _). auto. }
      apply elem_of_cons in Hk as [-> | Hk]; apply elem_of_cons in Hl' as [-> | Hl'].
      * reflexivity.
      * destruct (Hhead _ Hfk' Hgk) as [Hok' Hdk]. rewrite Hdk in Hd.
        rewrite (Hfresh' l fl' Hl' Hfl' Hgl (eq_sym Hd)) in Hok'. discriminate.
      * destruct (Hhead _ Hfl' Hgl) as [Hok' Hdl]. rewrite Hdl in Hd.
        rewrite (Hfresh' k fk' Hk Hfk' Hgk Hd) in Hok'. discriminate.
      * eapply Hdis'; eauto.
    + rewrite Hc1 in Hle'. destruct ok; lia.
    + intros Hlt. destruct ok.
      * exists i, fi'. split; [left |]. split; [exact Hs'i | apply Hokfi].
      * rewrite Hc1 in Hiff'. destruct (proj1 Hiff' Hlt) as (k & fk' & Hk & Hfk' & Hgt).
        exists k, fk'. split; [right; exact Hk | auto].
    + intros (k & fk' & Hk & Hfk' & Hgt). apply elem_of_cons in Hk as [-> | Hk].
      * assert (fk' = fi') as -> by congruence. destruct ok.
        -- rewrite Hc1 in Hle'. lia.
        -- apply released_size in Hokfi. lia.
      * assert (count1 < count') by (apply Hiff'; eauto).
        rewrite Hc1 in H. destruct ok; lia.
Qed.

(** ** bfttfInitialize *)

Lemma loaded_size h h' fi' : loaded h h' fi' -> 8 < fi_size fi'.
Proof. intros (b & buf & _ & _ & _ & _ & H & _). exact H. Qed.

Lemma bfttfInitialize_again (s : State P) :
  g_bfttfInterfaceInit s = true ->
  bfttfInitialize P s =
    Some (true, set_world P (romfsFreeContext P (world s)) CallRomfsFreeContext s).
Proof.
  intros H. unfold bfttfInitialize.
  rewrite (bind_run _ _ s s s eq_refl), H. reflexivity.
Qed.

Lemma bfttfInitialize_no_nca (s : State P) :
  g_bfttfInterfaceInit s = false ->
  (calloc_NcaContext P (world s)).1 = false ->
  exists s',
    bfttfInitialize P s = Some (false, s') /\
    g_bfttfInterfaceInit s' = false /\ g_fontInfo s' = g_fontInfo s /\ heap s' = heap s /\
    calls s' = calls s ++ [CallCallocNcaContext; CallRomfsFreeContext].
Proof.
  intros H Hc. unfold bfttfInitialize.
  rewrite (bind_run _ _ s s s eq_refl), H.
  rewrite (bind_run _ _ _ _ _ (platform_call_run _ _ _)), Hc. cbn [negb].
  eexists. split; [reflexivity |]. cbn. rewrite <- app_assoc. auto.
Qed.

Lemma bfttfInitialize_loop (s : State P) :
  g_bfttfInterfaceInit s = false ->
  (calloc_NcaContext P (world s)).1 = true ->
  forall count' s1,
    font_loop P (seq 0 g_fontInfoCount) 0 0
      (set_world P (calloc_NcaContext P (world s)).2 CallCallocNcaContext s)
      = Some (count', s1) ->
    exists s',
      bfttfInitialize P s = Some (0 <? count', s') /\
      g_bfttfInterfaceInit s' = (0 <? count') /\
      g_fontInfo s' = g_fontInfo s1 /\ heap s' = heap s1 /\
      calls s' = calls s1 ++ [CallRomfsFreeContext; CallFreeNcaContext].
Proof.
  intros H Hc count' s1 Hloop. unfold bfttfInitialize.
  rewrite (bind_run _ _ s s s eq_refl), H.
  rewrite (bind_run _ _ _ _ _ (platform_call_run _ _ _)), Hc. cbn [negb].
  rewrite (bind_run _ _ _ _ _ Hloop).
  eexists. split; [reflexivity |]. cbn. rewrite <- app_assoc. auto.
Qed.

Lemma bfttfInitialize_post (s : State P) :
  g_bfttfInterfaceInit s = false ->
  length (g_fontInfo s) = g_fontInfoCount ->
  Forall (fun fi => fi_size fi = 0) (g_fontInfo s) ->
  exists ret s',
    bfttfInitialize P s = Some (ret, s') /\
    g_bfttfInterfaceInit s' = ret /\
    (ret = true <->
     exists i fi', g_fontInfo s' !! i = Some fi' /\ loaded (heap s) (heap s') fi') /\
    (forall i fi, g_fontInfo s !! i = Some fi ->
       exists fi', g_fontInfo s' !! i = Some fi' /\
                   (loaded (heap s) (heap s') fi' \/ released fi fi')) /\
    (forall b buf, heap s !! b = Some buf -> heap s' !! b = Some buf) /\
    (forall b, is_Some (heap s' !! b) ->
       is_Some (heap s !! b) \/
       exists i fi', g_fontInfo s' !! i = Some fi' /\ fi_data fi' = Some (b, 0) /\
                     loaded (heap s) (heap s') fi') /\
    (forall i j fi' fj',
       g_fontInfo s' !! i = Some fi' -> g_fontInfo s' !! j = Some fj' ->
       loaded (heap s) (heap s') fi' -> loaded (heap s) (heap s') fj' ->
       fi_data fi' = fi_data fj' -> i = j) /\
    length (g_fontInfo s') = length (g_fontInfo s).
Proof.
  intros Hinit Hlen Hsz.
  assert (Hsz' : forall i fi, g_fontInfo s !! i = Some fi -> fi_size fi = 0)
    by (intros i fi Hfi; eapply (proj1 (Forall_lookup _ _) Hsz), Hfi).
  destruct ((calloc_NcaContext P (world s)).1) eqn:Hc.
  - set (s0 := set_world P (calloc_NcaContext P (world s)).2 CallCallocNcaContext s).
    destruct (font_loop_spec (seq 0 g_fontInfoCount) 0 0 s0) as (count' & s1 & Hloop & Hpost).
    { apply NoDup_seq. }
    { intros i Hi. apply elem_of_seq in Hi.
      destruct (lookup_lt_is_Some_2 (g_fontInfo s) i) as [fi Hfi]; [lia |].
      exists fi. split; [exact Hfi | eapply Hsz', Hfi]. }
    { lia. }
    { rewrite length_seq. unfold g_fontInfoCount. lia. }
    destruct (bfttfInitialize_loop s Hinit Hc count' s1 Hloop)
      as (s' & Hrun & Hi' & Hg' & Hh' & _).
    destruct Hpost as (_ & Hlen1 & _ & Hheap & Hin & Hdom & Hdis & Hle & Hiff).
    change (heap s0) with (heap s) in *. change (g_fontInfo s0) with (g_fontInfo s) in *.
    assert (Hidx : forall i fi', g_fontInfo s1 !! i = Some fi' -> i ∈ seq 0 g_fontInfoCount).
    { intros i fi' Hfi'. apply lookup_lt_Some in Hfi'. apply elem_of_seq. lia. }
    assert (Hcls : forall i fi', g_fontInfo s1 !! i = Some fi' ->
              loaded (heap s) (heap s1) fi' \/ fi_size fi' = 0).
    { intros i fi' Hfi'.
      destruct (lookup_lt_is_Some_2 (g_fontInfo s) i) as [fi Hfi];
        [apply lookup_lt_Some in Hfi'; lia |].
      destruct (Hin i fi fi' (Hidx _ _ Hfi') Hfi Hfi') as [? | Hr]; [auto |].
      right. eapply released_size, Hr. }
    exists (0 <? count'), s'. rewrite Hg', Hh'.
    split_and!; [exact Hrun | exact Hi' | split | | exact Hheap | | | exact Hlen1].
    + intros Hret. apply Z.ltb_lt in Hret.
      destruct (proj1 Hiff Hret) as (i & fi' & _ & Hfi' & Hgt).
      exists i, fi'. split; [exact Hfi' |].
      destruct (Hcls i fi' Hfi') as [? | ?]; [assumption | lia].
    + intros (i & fi' & Hfi' & Hld). apply Z.ltb_lt, Hiff.
      exists i, fi'. split; [eapply Hidx, Hfi' |]. split; [exact Hfi' |].
      eapply loaded_size, Hld.
    + intros i fi Hfi.
      destruct (lookup_lt_is_Some_2 (g_fontInfo s1) i) as [fi' Hfi'];
        [apply lookup_lt_Some in Hfi; lia |].
      exists fi'. split; [exact Hfi' |]. eapply Hin; eauto.
    + intros b Hb. destruct (Hdom b Hb) as [? | (i & fi' & _ & Hfi' & Hgt & Hd)]; [auto |].
      right. exists i, fi'. split; [exact Hfi' |]. split; [exact Hd |].
      destruct (Hcls i fi' Hfi') as [? | ?]; [assumption | lia].
    + intros i j fi' fj' Hfi' Hfj' Hli Hlj Hd.
      eapply Hdis; eauto using loaded_size.
  - destruct (bfttfInitialize_no_nca s Hinit Hc) as (s' & Hrun & Hi' & Hg' & Hh' & _).
    exists false, s'. rewrite Hg', Hh'.
    split_and!; [exact Hrun | exact Hi' | split | | auto | auto | | reflexivity].
    + discriminate.
    + intros (i & fi' & _ & b & buf & _ & Hn & Hb & _). congruence.
    + intros i fi Hfi. exists fi. split; [exact Hfi |]. right.
      unfold released. repeat split; eauto.
    + intros i j fi' fj' _ _ (b & buf & _ & Hn & Hb & _). congruence.
Qed.

(** ** bfttfInitialize against what the platform serves *)

Lemma open_container_served title_id (s : State P) :
  exists s',
    open_container P title_id s = Some (reply (serve_open P title_id (world s)), s') /\
    g_bfttfInterfaceInit s' = g_bfttfInterfaceInit s /\
    g_fontInfo s' = g_fontInfo s /\ heap s' = heap s /\
    world s' = reply_world (serve_open P title_id (world s)) /\
    calls s' = calls s ++ reply_calls (serve_open P title_id (world s)).
Proof.
  unfold open_container, serve_open.
  rewrite (bind_run _ _ _ _ _ (platform_call_run _ _ _)).
  destruct ((titleGetInfoFromStorageByTitleId P title_id (world s)).1) as [ti |].
  2: { eexists. split; [reflexivity |]. cbn. auto. }
  rewrite (bind_run _ _ _ _ _ (platform_call_run _ _ _)). cbn [world set_world].
  destruct ((ncaInitializeContext P ti
               (titleGetInfoFromStorageByTitleId P title_id (world s)).2).1); cbn [negb].
  - rewrite platform_call_run. eexists. split; [reflexivity |]. cbn.
    rewrite <- !app_assoc. auto.
  - eexists. split; [reflexivity |]. cbn. rewrite <- !app_assoc. auto.
Qed.

Lemma fetch_font_served i (s : State P) fi :
  g_fontInfo s !! i = Some fi ->
  exists s',
    fetch_font P i s = Some (fetched (reply (serve_font P (fi_path fi) (world s))), s') /\
    world s' = reply_world (serve_font P (fi_path fi) (world s)) /\
    calls s' = calls s ++ reply_calls (serve_font P (fi_path fi) (world s)) /\
    forall n content,
      reply (serve_font P (fi_path fi) (world s)) = inr (n, content) ->
      g_fontInfo s' !! i =
        Some (mkFontInfo (fi_title_id fi) (fi_path fi) (u32 n)
                (Some (fresh_block (heap s), 0))) /\
      heap s' !! fresh_block (heap s) = Some content.
Proof.
  intros Hfi. unfold fetch_font, serve_font.
  rewrite (bind_run _ _ _ _ _ (font_info_run _ _ _ Hfi)).
  rewrite (bind_run _ _ _ _ _ (platform_call_run _ _ _)).
  set (r1 := romfsGetFileEntryByPath P (fi_path fi) (world s)).
  set (s1 := set_world P _ _ s).
  assert (Hl : (i < length (g_fontInfo s))%nat) by (eapply lookup_lt_Some, Hfi).
  destruct (r1.1) as [e |].
  2: { exists s1. split; [reflexivity |]. cbn. split_and!; auto. discriminate. }
  set (n := u64 (file_entry_size P e)).
  destruct (Z.eqb_spec n 0) as [Hn0 | Hn0].
  { exists s1. split; [reflexivity |]. cbn. split_and!; auto. discriminate. }
  assert (Hn : 0 < n < 2 ^ 64)
    by (pose proof (u64_range (file_entry_size P e)) as Hr; fold n in Hr; lia).
  change (r1.2) with (world s1).
  destruct ((malloc_succeeds P n (world s1)).1) eqn:Hm.
  2: { rewrite (bind_run _ _ _ _ _ (malloc_run_fail _ _ Hm)).
       erewrite bind_run by (apply set_data_run; exact Hfi).
       eexists. split; [reflexivity |]. cbn. rewrite <- app_assoc.
       split_and!; auto. discriminate. }
  rewrite (bind_run _ _ _ _ _ (malloc_run_ok _ _ Hm)).
  set (b := fresh_block (heap s1)).
  erewrite bind_run by (apply set_data_run; exact Hfi).
  set (fi1 := with_data (Some (b, 0)) fi).
  match goal with |- context [read_entry P i e n ≫= _] =>
    match goal with |- exists s', (_ ≫= _) ?st = _ /\ _ => set (s2 := st) end end.
  assert (Hfi1 : g_fontInfo s2 !! i = Some fi1)
    by (cbn; apply list_lookup_insert_eq; exact Hl).
  assert (Hb2 : heap s2 !! b = Some (replicate (Z.to_nat n) Byte.x00))
    by (cbn; apply lookup_insert_eq).
  change ((malloc_succeeds P n (world s1)).2) with (world s2).
  destruct ((romfsReadFileEntryData P e n 0 (world s2)).1) as [bs |] eqn:Hr.
  2: { rewrite (bind_run _ _ _ _ _ (read_entry_run_fail _ _ _ _ _ Hfi1 Hr)). cbn [negb].
       erewrite bind_run by (eapply free_data_run; [exact Hfi1 | reflexivity | exact Hb2]).
       erewrite bind_run by (apply set_data_run; exact Hfi1).
       eexists. split; [reflexivity |]. cbn. rewrite <- !app_assoc.
       split_and!; auto. discriminate. }
  destruct (write_bytes_fresh n bs) as (buf1 & Hw & Hlen1); [lia |].
  assert (Hinto : read_into n bs = buf1) by (unfold read_into; rewrite Hw; reflexivity).
  rewrite Hinto.
  rewrite (bind_run _ _ _ _ _ (read_entry_run_ok _ _ _ _ _ _ _ _ _ Hfi1 Hr eq_refl Hb2 Hw)).
  cbn [negb].
  erewrite bind_run by (apply set_size_run; cbn; exact Hfi1).
  set (fi2 := with_size (u32 n) fi1).
  match goal with |- exists s', (_ ≫= _) ?st = _ /\ _ => set (s3 := st) end.
  assert (Hfi2 : g_fontInfo s3 !! i = Some fi2).
  { cbn. apply list_lookup_insert_eq. rewrite length_insert. exact Hl. }
  assert (Hb3 : heap s3 !! b = Some buf1) by (cbn; apply lookup_insert_eq).
  destruct (bfttfDecodeFont_live fi2 (heap s3) b buf1 eq_refl Hb3)
    as [[Hdec Hc] | (Hdec & Hgt & Hal)].
  { cbn. apply u32_range. }
  { cbn. rewrite Hlen1. apply u32_le. lia. }
  - assert (Hpre : (8 <? u32 n) && (u32 n mod 4 =? 0) = false).
    { cbn in Hc. apply andb_false_iff. destruct Hc as [Hc | Hc].
      - left. apply Z.ltb_ge. exact Hc.
      - right. apply Z.eqb_neq. exact Hc. }
    rewrite Hpre.
    rewrite (bind_run _ _ _ _ _ (decode_font_run _ _ _ _ _ Hfi2 Hdec)). cbn [negb].
    erewrite bind_run by (eapply free_data_run; [exact Hfi2 | reflexivity | exact Hb3]).
    erewrite bind_run by (apply set_data_run; exact Hfi2).
    erewrite bind_run by (apply set_size_run; cbn; apply list_lookup_insert_eq;
                          rewrite !length_insert; exact Hl).
    eexists. split; [reflexivity |]. cbn. rewrite <- !app_assoc.
    split_and!; auto. discriminate.
  - assert (Hpre : (8 <? u32 n) && (u32 n mod 4 =? 0) = true).
    { cbn in Hgt, Hal. apply andb_true_iff. split.
      - apply Z.ltb_lt. exact Hgt.
      - apply Z.eqb_eq. exact Hal. }
    rewrite Hpre.
    rewrite (bind_run _ _ _ _ _ (decode_font_run _ _ _ _ _ Hfi2 Hdec)). cbn [negb].
    eexists. split; [reflexivity |]. cbn. rewrite <- !app_assoc.
    split_and!; auto.
    intros n' content [= <- <-].
    rewrite !list_insert_insert_eq. split.
    + apply list_lookup_insert_eq. exact Hl.
    + apply lookup_insert_eq.
Qed.

Lemma font_body_served i prev (s : State P) fi :
  g_fontInfo s !! i = Some fi ->
  exists s',
    font_body P i prev s =
      Some ((fetched (reply (serve_entry P prev fi (world s))).1,
             (reply (serve_entry P prev fi (world s))).2), s') /\
    world s' = reply_world (serve_entry P prev fi (world s)) /\
    calls s' = calls s ++ reply_calls (serve_entry P prev fi (world s)) /\
    slot_step i s s' (fetched (reply (serve_entry P prev fi (world s))).1) /\
    forall n content,
      (reply (serve_entry P prev fi (world s))).1 = inr (n, content) ->
      g_fontInfo s' !! i =
        Some (mkFontInfo (fi_title_id fi) (fi_path fi) (u32 n)
                (Some (fresh_block (heap s), 0))) /\
      heap s' !! fresh_block (heap s) = Some content.
Proof.
  intros Hfi.
  destruct (font_body_spec i prev s fi Hfi) as (ok0 & prev0 & s0 & Hrun0 & Hstep).
  revert Hrun0. unfold font_body, serve_entry.
  rewrite (bind_run _ _ _ _ _ (font_info_run _ _ _ Hfi)).
  destruct (fi_title_id fi =? prev); cbn [negb].
  - destruct (fetch_font_served i s fi Hfi) as (s' & Hrun & Hw & Hc & Hld).
    rewrite (bind_run _ _ _ _ _ Hrun). intros [= <- <- <-].
    exists s'. cbn [reply reply_world reply_calls fst snd]. auto.
  - destruct (open_container_served (fi_title_id fi) s)
      as (s1 & Hrun1 & Hi1 & Hg1 & Hh1 & Hw1 & Hc1).
    rewrite (bind_run _ _ _ _ _ Hrun1).
    destruct (reply (serve_open P (fi_title_id fi) (world s))); cbn [negb].
    + assert (Hfi1 : g_fontInfo s1 !! i = Some fi) by (rewrite Hg1; exact Hfi).
      destruct (fetch_font_served i s1 fi Hfi1) as (s' & Hrun & Hw & Hc & Hld).
      rewrite (bind_run _ _ _ _ _ Hrun). rewrite Hw1 in *. intros [= <- <- <-].
      exists s'. cbn [reply reply_world reply_calls fst snd].
      split_and!; auto.
      * rewrite Hc, Hc1, app_assoc. reflexivity.
      * rewrite <- Hh1. exact Hld.
    + intros [= <- <- <-].
      exists s1. cbn [reply reply_world reply_calls fst snd fetched].
      split_and!; auto. discriminate.
Qed.

Lemma font_loop_served m : forall k count prev (s : State P),
  length (g_fontInfo s) = (k + m)%nat ->
  (forall i fi, g_fontInfo s !! i = Some fi -> (k <= i)%nat -> fi_size fi = 0) ->
  0 <= count -> count + Z.of_nat m < 2 ^ 32 ->
  exists count' s',
    font_loop P (seq k m) count prev s = Some (count', s') /\
    world s' = reply_world (serve_table P (drop k (g_fontInfo s)) prev (world s)) /\
    calls s' = calls s ++ reply_calls (serve_table P (drop k (g_fontInfo s)) prev (world s)) /\
    length (reply (serve_table P (drop k (g_fontInfo s)) prev (world s))) = m /\
    (count < count' <->
     exists j n content,
       reply (serve_table P (drop k (g_fontInfo s)) prev (world s)) !! j
         = Some (inr (n, content))) /\
    forall j fi fi' r,
      g_fontInfo s !! (k + j)%nat = Some fi ->
      g_fontInfo s' !! (k + j)%nat = Some fi' ->
      reply (serve_table P (drop k (g_fontInfo s)) prev (world s)) !! j = Some r ->
      match r with
      | inr (n, content) =>
          fi_size fi' = u32 n /\
          exists b, fi_data fi' = Some (b, 0) /\ heap s !! b = None /\
                    heap s' !! b = Some content
      | inl _ => released fi fi'
      end.
Proof.
  induction m as [| m IH]; intros k count prev s Hlen Hsz Hc0 Hcb.
  - rewrite drop_ge by lia. exists count, s. cbn.
    rewrite app_nil_r. split_and!; auto.
    + split; [lia |]. intros (j & n & c & Hj). discriminate.
    + intros j fi fi' r _ _ Hr. discriminate.
  - destruct (lookup_lt_is_Some_2 (g_fontInfo s) k) as [fi Hfi]; [lia |].
    rewrite (drop_S _ _ _ Hfi). cbn [seq font_loop serve_table].
    destruct (font_body_served k prev s fi Hfi) as (s1 & Hrun & Hw1 & Hc1 & Hstep & Hld).
    rewrite (bind_run _ _ _ _ _ Hrun).
    set (r := serve_entry P prev fi (world s)) in *.
    set (ok := fetched (reply r).1) in *.
    destruct Hstep as (Hi1 & _ & fi0 & fi1 & Hfi0 & Hg1 & Hok).
    assert (fi0 = fi) as -> by congruence. clear Hfi0.
    assert (Hs1ne : forall j, j <> k -> g_fontInfo s1 !! j = g_fontInfo s !! j)
      by (intros j Hj; rewrite Hg1; apply list_lookup_insert_ne; congruence).
    assert (Hs1k : g_fontInfo s1 !! k = Some fi1)
      by (rewrite Hg1; apply list_lookup_insert_eq; lia).
    assert (Hheap1 : forall b buf, heap s !! b = Some buf -> heap s1 !! b = Some buf).
    { intros b buf Hb. destruct ok.
      - destruct Hok as (buf0 & _ & _ & _ & ->).
        rewrite lookup_insert_ne; [exact Hb |].
        intros <-. rewrite fresh_block_None in Hb. discriminate.
      - destruct Hok as [-> _]. exact Hb. }
    set (count1 := if ok then u32 (count + 1) else count).
    assert (Hcount1 : count1 = if ok then count + 1 else count).
    { unfold count1. destruct ok; [apply u32_small | reflexivity]. lia. }
    assert (Hdrop : drop (S k) (g_fontInfo s1) = drop (S k) (g_fontInfo s)).
    { rewrite Hg1. apply drop_insert_lt. lia. }
    assert (Hsz1 : forall i f, g_fontInfo s1 !! i = Some f -> (S k <= i)%nat -> fi_size f = 0).
    { intros i f Hf Hi. rewrite Hs1ne in Hf by lia. eapply Hsz; [exact Hf | lia]. }
    assert (Hlen1 : length (g_fontInfo s1) = (S k + m)%nat)
      by (rewrite Hg1, length_insert; lia).
    destruct (IH (S k) count1 (reply r).2 s1 Hlen1 Hsz1) as
      (count' & s' & Hrun' & Hw' & Hc' & Hlr & Hiff & Hslots).
    { rewrite Hcount1. destruct ok; lia. }
    { rewrite Hcount1. destruct ok; lia. }
    destruct (font_loop_spec (seq (S k) m) count1 (reply r).2 s1)
      as (count'' & s'' & Hrun'' & Hpost).
    { apply NoDup_seq. }
    { intros i Hi. apply elem_of_seq in Hi.
      destruct (lookup_lt_is_Some_2 (g_fontInfo s1) i) as [f Hf]; [lia |].
      exists f. split; [exact Hf |]. eapply Hsz1; [exact Hf | lia]. }
    { rewrite Hcount1. destruct ok; lia. }
    { rewrite length_seq, Hcount1. destruct ok; lia. }
    rewrite Hrun' in Hrun''. injection Hrun'' as <- <-.
    destruct Hpost as (_ & _ & Hout & Hheap & _ & _ & _ & Hle & _).
    rewrite Hdrop, Hw1 in *.
    set (t := serve_table P (drop (S k) (g_fontInfo s)) (reply r).2 (reply_world r)) in *.
    exists count', s'. cbn [reply reply_world reply_calls].
    split_and!; [exact Hrun' | exact Hw' | | | split |].
    + rewrite Hc', Hc1, app_assoc. reflexivity.
    + cbn [length]. rewrite Hlr. reflexivity.
    + intros Hlt. destruct (reply r).1 as [f | [n content]] eqn:Hr.
      * assert (Hlt1 : count1 < count') by (rewrite Hcount1; exact Hlt).
        destruct (proj1 Hiff Hlt1) as (j & n & c & Hj).
        exists (S j), n, c. exact Hj.
      * exists 0%nat, n, content. reflexivity.
    + intros (j & n & c & Hj). destruct j as [| j].
      * cbn in Hj. injection Hj as Hr. unfold ok in Hcount1. rewrite Hr in Hcount1.
        cbn in Hcount1. lia.
      * assert (Hlt1 : count1 < count') by (apply Hiff; exists j, n, c; exact Hj).
        rewrite Hcount1 in Hlt1. destruct ok; lia.
    + intros j f f' x Hf Hf' Hx. destruct j as [| j].
      * rewrite Nat.add_0_r in Hf, Hf'.
        assert (f = fi) as -> by congruence.
        rewrite Hout in Hf' by (rewrite elem_of_seq; lia).
        assert (f' = fi1) as -> by congruence.
        cbn in Hx. injection Hx as <-.
        destruct (reply r).1 as [e | [n content]] eqn:Hr.
        -- cbn in Hok. destruct Hok as [_ Hcases].
           apply slot_step_failed_released; [| exact Hcases].
           eapply Hsz; [exact Hfi | lia].
        -- destruct (Hld n content eq_refl) as [Hslot Hblock].
           rewrite Hs1k in Hslot. injection Hslot as ->. cbn.
           split; [reflexivity |]. exists (fresh_block (heap s)).
           split_and!; [reflexivity | apply fresh_block_None | apply Hheap, Hblock].
      * replace (k + S j)%nat with (S k + j)%nat in Hf, Hf' by lia.
        rewrite <- Hs1ne in Hf by lia. cbn in Hx.
        pose proof (Hslots j f f' x Hf Hf' Hx) as Hj.
        destruct x as [e | [n content]]; [exact Hj |].
        destruct Hj as (Hsize & b & Hd & Hnone & Hb).
        split; [exact Hsize |]. exists b. split_and!; [exact Hd | | exact Hb].
        destruct (heap s !! b) as [buf0 |] eqn:Hb0; [| reflexivity].
        apply Hheap1 in Hb0. congruence.
Qed.

(** C6.  From a state in which the cache is not initialised and no slot
    has a size, [bfttfInitialize] returns, and its result is the new
    value of [g_bfttfInterfaceInit].  When the temporary NCA context is
    allocated, the run is the one [serve_table] describes from the
    platform's answers: every entry of the table is served in order,
    whatever the entries before it ended with; the result is true exactly
    when some entry was fetched and decoded; the slot of such an entry
    holds the length of its file and a block allocated by this call with
    the decoded bytes, and the slot of an entry that failed, for whichever
    of the six reasons, has size 0 and a pointer that is null or
    untouched; the platform is left as the last entry left it, the two
    contexts released, and the calls made are those of the entries.
    When the NCA context is not allocated the result is false and
    nothing but the trace changes.  In both cases blocks that were live
    stay as they were and the only new live blocks are those of loaded
    slots, so nothing a failed entry allocated is left. *)
Theorem bfttfInitialize_outcome (s : State P) :
  g_bfttfInterfaceInit s = false ->
  length (g_fontInfo s) = g_fontInfoCount ->
  Forall (fun fi => fi_size fi = 0) (g_fontInfo s) ->
  exists ret s',
    bfttfInitialize P s = Some (ret, s') /\
    g_bfttfInterfaceInit s' = ret /\
    (ret = true <->
     exists i fi', g_fontInfo s' !! i = Some fi' /\ loaded (heap s) (heap s') fi') /\
    (forall i fi, g_fontInfo s !! i = Some fi ->
       exists fi', g_fontInfo s' !! i = Some fi' /\
                   (loaded (heap s) (heap s') fi' \/ released fi fi')) /\
    (forall b buf, heap s !! b = Some buf -> heap s' !! b = Some buf) /\
    (forall b, is_Some (heap s' !! b) ->
       is_Some (heap s !! b) \/
       exists i fi', g_fontInfo s' !! i = Some fi' /\ fi_data fi' = Some (b, 0) /\
                     loaded (heap s) (heap s') fi') /\
    if (calloc_NcaContext P (world s)).1 then
      let t := serve_table P (g_fontInfo s) 0 (calloc_NcaContext P (world s)).2 in
      length (reply t) = g_fontInfoCount /\
      (ret = true <-> exists i n content, reply t !! i = Some (inr (n, content))) /\
      (forall i fi fi' r,
         g_fontInfo s !! i = Some fi -> g_fontInfo s' !! i = Some fi' ->
         reply t !! i = Some r ->
         match r with
         | inr (n, content) =>
             fi_size fi' = u32 n /\
             exists b, fi_data fi' = Some (b, 0) /\ heap s !! b = None /\
                       heap s' !! b = Some content
         | inl _ => released fi fi'
         end) /\
      world s' = free_NcaContext P (romfsFreeContext P (reply_world t)) /\
      calls s' = calls s ++ [CallCallocNcaContext] ++ reply_calls t
                   ++ [CallRomfsFreeContext; CallFreeNcaContext]
    else
      ret = false /\ g_fontInfo s' = g_fontInfo s /\ heap s' = heap s /\
      world s' = romfsFreeContext P (calloc_NcaContext P (world s)).2 /\
      calls s' = calls s ++ [CallCallocNcaContext; CallRomfsFreeContext].
Proof.
  intros Hinit Hlen Hsz.
  destruct (bfttfInitialize_post s Hinit Hlen Hsz)
    as (ret & s' & Hrun & Hi & Hiff & Hslots & Hheap & Hdom & _).
  exists ret, s'. split_and!; auto.
  revert Hrun. unfold bfttfInitialize.
  rewrite (bind_run _ _ s s s eq_refl), Hinit.
  rewrite (bind_run _ _ _ _ _ (platform_call_run _ _ _)).
  destruct ((calloc_NcaContext P (world s)).1); cbn [negb].
  - set (s0 := set_world P (calloc_NcaContext P (world s)).2 CallCallocNcaContext s).
    destruct (font_loop_served g_fontInfoCount 0 0 0 s0)
      as (count' & s1 & Hloop & Hw1 & Hc1 & Hlr & Hcount & Hserved).
    { exact Hlen. }
    { intros i fi Hfi _. eapply (proj1 (Forall_lookup _ _) Hsz), Hfi. }
    { lia. }
    { unfold g_fontInfoCount. cbn. lia. }
    rewrite (bind_run _ _ _ _ _ Hloop).
    intros [= <- <-]. cbn zeta.
    change (drop 0 (g_fontInfo s0)) with (g_fontInfo s) in *.
    change (world s0) with (calloc_NcaContext P (world s)).2 in *.
    split_and!.
    + exact Hlr.
    + rewrite <- Hcount. split; [apply Z.ltb_lt | apply Z.ltb_lt].
    + intros i fi fi' r Hfi Hfi' Hr. exact (Hserved i fi fi' r Hfi Hfi' Hr).
    + cbn. rewrite Hw1. reflexivity.
    + cbn. rewrite Hc1. cbn. rewrite <- !app_assoc. reflexivity.
  - intros [= <- <-]. cbn. rewrite <- app_assoc. auto.
Qed.

(** After [bfttfInitialize] on a cache whose slots are all empty, every
    data pointer is the start of a live block of its own. *)
Lemma bfttfInitialize_owned (s : State P) ret s' :
  g_bfttfInterfaceInit s = false ->
  length (g_fontInfo s) = g_fontInfoCount ->
  Forall (fun fi => fi_size fi = 0 /\ fi_data fi = None) (g_fontInfo s) ->
  bfttfInitialize P s = Some (ret, s') ->
  length (g_fontInfo s') = g_fontInfoCount /\ owned s'.
Proof.
  intros Hinit Hlen Hall Hrun.
  assert (Hsz : Forall (fun fi => fi_size fi = 0) (g_fontInfo s))
    by (eapply Forall_impl; [exact Hall | intros fi [? _]; assumption]).
  destruct (bfttfInitialize_post s Hinit Hlen Hsz)
    as (ret0 & s0 & Hrun0 & _ & _ & Hslots & _ & _ & Hdis & Hlen').
  rewrite Hrun in Hrun0. injection Hrun0 as <- <-.
  split; [congruence |].
  assert (Hcls : forall i fi', g_fontInfo s' !! i = Some fi' ->
            loaded (heap s) (heap s') fi' \/ fi_data fi' = None).
  { intros i fi' Hfi'.
    destruct (lookup_lt_is_Some_2 (g_fontInfo s) i) as [fi Hfi];
      [apply lookup_lt_Some in Hfi'; lia |].
    destruct (Hslots i fi Hfi) as (fi'' & Hfi'' & Hc).
    assert (fi'' = fi') as -> by congruence.
    destruct Hc as [? | (_ & _ & _ & [Hn | He])]; [auto | auto |].
    right. rewrite He. eapply (proj1 (Forall_lookup _ _) Hall), Hfi. }
  intros i fi' p Hfi' Hd.
  destruct (Hcls i fi' Hfi') as [Hld | Hn]; [| congruence].
  assert (Hld' := Hld). destruct Hld' as (b & buf & Hdb & _ & Hb & _).
  rewrite Hdb in Hd. injection Hd as <-. cbn [fst snd].
  split; [reflexivity |]. split; [eauto |].
  intros j fj q Hfj Hq Hqb.
  destruct (Hcls j fj Hfj) as [Hlj | Hn]; [| congruence].
  assert (Hlj' := Hlj). destruct Hlj' as (b' & buf' & Hdb' & _).
  rewrite Hdb' in Hq. injection Hq as <-. cbn [fst] in Hqb. subst b'.
  symmetry. eapply Hdis; eauto. congruence.
Qed.

(** ** The trace of platform calls *)

Lemma font_body_calls i prev (s : State P) r s' :
  font_body P i prev s = Some (r, s') -> exists cs, calls s' = calls s ++ cs.
Proof.
  intros H. assert (H' := H). unfold font_body in H'.
  apply bind_Some in H' as (fi & s0 & Hfi & _). apply font_info_Some in Hfi as [Hfi _].
  destruct (font_body_spec i prev s fi Hfi) as (ok & prev' & s'' & Hrun & _ & Hc & _).
  rewrite Hrun in H. injection H as _ <-. exact Hc.
Qed.

Lemma font_loop_calls idx : forall count prev (s : State P) count' s',
  font_loop P idx count prev s = Some (count', s') -> exists cs, calls s' = calls s ++ cs.
Proof.
  induction idx as [| i idx IH]; intros count prev s count' s' H.
  - injection H as _ <-. exists []. rewrite app_nil_r. reflexivity.
  - cbn [font_loop] in H. apply bind_Some in H as ([ok prev'] & s1 & Hb & Hl).
    apply font_body_calls in Hb as [cs1 Hc1]. apply IH in Hl as [cs2 Hc2].
    exists (cs1 ++ cs2). rewrite Hc2, Hc1, app_assoc. reflexivity.
Qed.

Lemma bfttfInitialize_flag (s : State P) r s' :
  bfttfInitialize P s = Some (r, s') -> g_bfttfInterfaceInit s' = r.
Proof.
  intros H. destruct (g_bfttfInterfaceInit s) eqn:Hinit.
  - rewrite bfttfInitialize_again in H by exact Hinit. injection H as <- <-. exact Hinit.
  - destruct ((calloc_NcaContext P (world s)).1) eqn:Hc.
    + destruct (font_loop P (seq 0 g_fontInfoCount) 0 0
                  (set_world P (calloc_NcaContext P (world s)).2 CallCallocNcaContext s))
        as [[count' s1] |] eqn:Hloop.
      * destruct (bfttfInitialize_loop s Hinit Hc count' s1 Hloop) as (s2 & Hrun & Hi & _).
        rewrite Hrun in H. injection H as <- <-. exact Hi.
      * unfold bfttfInitialize in H.
        rewrite (bind_run _ _ s s s eq_refl), Hinit in H.
        rewrite (bind_run _ _ _ _ _ (platform_call_run _ _ _)), Hc in H. cbn [negb] in H.
        unfold mbind at 1, M_bind in H. rewrite Hloop in H. discriminate.
    + destruct (bfttfInitialize_no_nca s Hinit Hc) as (s2 & Hrun & Hi & _).
      rewrite Hrun in H. injection H as <- <-. exact Hi.
Qed.

Lemma bfttfInitialize_starts (s : State P) r s' :
  g_bfttfInterfaceInit s = false ->
  bfttfInitialize P s = Some (r, s') ->
  exists rest, calls s' = calls s ++ CallCallocNcaContext :: rest.
Proof.
  intros Hinit H. destruct ((calloc_NcaContext P (world s)).1) eqn:Hc.
  - destruct (font_loop P (seq 0 g_fontInfoCount) 0 0
                (set_world P (calloc_NcaContext P (world s)).2 CallCallocNcaContext s))
      as [[count' s1] |] eqn:Hloop.
    + destruct (bfttfInitialize_loop s Hinit Hc count' s1 Hloop) as (s2 & Hrun & _ & _ & _ & Hcalls).
      rewrite Hrun in H. injection H as _ <-.
      apply font_loop_calls in Hloop as [cs Hcs]. cbn in Hcs.
      eexists. rewrite Hcalls, Hcs, <- !app_assoc. reflexivity.
    + unfold bfttfInitialize in H.
      rewrite (bind_run _ _ s s s eq_refl), Hinit in H.
      rewrite (bind_run _ _ _ _ _ (platform_call_run _ _ _)), Hc in H. cbn [negb] in H.
      unfold mbind at 1, M_bind in H. rewrite Hloop in H. discriminate.
  - destruct (bfttfInitialize_no_nca s Hinit Hc) as (s2 & Hrun & _ & _ & _ & Hcalls).
    rewrite Hrun in H. injection H as _ <-. eexists. rewrite Hcalls. reflexivity.
Qed.

(** C7 (amended).  The result of [bfttfInitialize] is the value it leaves
    in [g_bfttfInterfaceInit].  After a call that returned true, a second
    call returns true, leaves the flag, every slot and the heap as they
    are, and its only platform call is the release of its own, never
    initialised, RomFS context.  After a call that returned false, a
    second call is not short-cut: it starts over, with the allocation of
    the NCA context as its first platform call. *)
Theorem bfttfInitialize_twice (s : State P) r1 s1 :
  bfttfInitialize P s = Some (r1, s1) ->
  g_bfttfInterfaceInit s1 = r1 /\
  (r1 = true ->
     exists s2,
       bfttfInitialize P s1 = Some (true, s2) /\
       g_bfttfInterfaceInit s2 = true /\ g_fontInfo s2 = g_fontInfo s1 /\
       heap s2 = heap s1 /\ calls s2 = calls s1 ++ [CallRomfsFreeContext]) /\
  (r1 = false ->
     forall r2 s2, bfttfInitialize P s1 = Some (r2, s2) ->
       exists rest, calls s2 = calls s1 ++ CallCallocNcaContext :: rest).
Proof.
  intros H. apply bfttfInitialize_flag in H. split; [exact H |]. split.
  - intros ->. eexists. split; [apply bfttfInitialize_again, H |]. cbn. auto.
  - intros -> r2 s2 H2. eapply bfttfInitialize_starts; eauto.
Qed.

(** C3 (amended).  When the container of entry [i] differs from
    [prev_title_id] and its open fails, the entry is skipped, and the
    slots, the heap and [prev_title_id] are as before.  An entry [j]
    processed next whose container differs from [prev_title_id], as the
    container of [i] does, therefore opens its container afresh: the
    title lookup is the first platform call of its iteration; the font is
    fetched when this attempt succeeds and skipped when it fails. *)
Theorem open_failure_retried (s : State P) i j prev fi fj s1 :
  g_fontInfo s !! i = Some fi -> g_fontInfo s !! j = Some fj ->
  fi_title_id fi <> prev ->
  fi_title_id fj = fi_title_id fi \/ fi_title_id fj <> prev ->
  open_container P (fi_title_id fi) s = Some (false, s1) ->
  font_body P i prev s = Some ((false, prev), s1) /\
  g_fontInfo s1 = g_fontInfo s /\ heap s1 = heap s /\
  exists r s2 rest,
    font_body P j prev s1 = Some (r, s2) /\
    calls s2 = calls s1 ++ CallTitleGetInfo (fi_title_id fj) :: rest /\
    (forall s1', open_container P (fi_title_id fj) s1 = Some (true, s1') ->
       exists ok, fetch_font P j s1' = Some (ok, s2) /\ r = (ok, fi_title_id fj)) /\
    (forall s1', open_container P (fi_title_id fj) s1 = Some (false, s1') ->
       r = (false, prev) /\ s2 = s1').
Proof.
  intros Hfi Hfj Hne Hid Hopen.
  assert (Hneb : (fi_title_id fi =? prev) = false) by (apply Z.eqb_neq, Hne).
  assert (Hnebj : (fi_title_id fj =? prev) = false)
    by (apply Z.eqb_neq; destruct Hid as [-> | ?]; assumption).
  clear Hid.
  destruct (open_container_spec (fi_title_id fi) s) as (ok0 & s0 & Hrun0 & _ & Hg & Hh & _).
  rewrite Hopen in Hrun0. injection Hrun0 as <- <-.
  split_and!; [| exact Hg | exact Hh |].
  { unfold font_body. rewrite (bind_run _ _ _ _ _ (font_info_run _ _ _ Hfi)), Hneb.
    cbn [negb]. rewrite (bind_run _ _ _ _ _ Hopen). reflexivity. }
  assert (Hfj1 : g_fontInfo s1 !! j = Some fj) by (rewrite Hg; exact Hfj).
  unfold font_body. rewrite (bind_run _ _ _ _ _ (font_info_run _ _ _ Hfj1)), Hnebj.
  cbn [negb].
  destruct (open_container_spec (fi_title_id fj) s1)
    as (ok1 & s1' & Hrun1 & _ & Hg1 & _ & rest1 & Hc1).
  rewrite (bind_run _ _ _ _ _ Hrun1). destruct ok1; cbn [negb].
  - assert (Hfj1' : g_fontInfo s1' !! j = Some fj) by (rewrite Hg1; exact Hfj1).
    destruct (fetch_font_spec j s1' fj Hfj1') as (ok & s2 & Hrun2 & _ & [cs Hc2] & _).
    rewrite (bind_run _ _ _ _ _ Hrun2).
    eexists _, _, _. split; [reflexivity |]. split_and!.
    + rewrite Hc2, Hc1, <- app_assoc. reflexivity.
    + intros s1'' Ho. rewrite Hrun1 in Ho. injection Ho as <-. eauto.
    + intros s1'' Ho. rewrite Hrun1 in Ho. discriminate.
  - eexists _, _, _. split; [reflexivity |]. split_and!.
    + exact Hc1.
    + intros s1'' Ho. rewrite Hrun1 in Ho. discriminate.
    + intros s1'' Ho. rewrite Hrun1 in Ho. injection Ho as <-. auto.
Qed.

(** ** bfttfExit is defined on a cache that owns its buffers *)

Lemma exit_loop_defined idx : forall (s : State P),
  NoDup idx ->
  (forall i, i ∈ idx ->
     exists fi, g_fontInfo s !! i = Some fi /\
       forall p, fi_data fi = Some p ->
         p.2 = 0 /\ is_Some (heap s !! p.1) /\
         forall j fj q, j ∈ idx -> j <> i -> g_fontInfo s !! j = Some fj ->
                        fi_data fj = Some q -> q.1 <> p.1) ->
  exists s', exit_loop P idx s = Some (tt, s').
Proof.
  induction idx as [| i idx IH]; intros s Hnd Hpre.
  - exists s. reflexivity.
  - apply NoDup_cons in Hnd as [Hni Hnd].
    destruct (Hpre i) as (fi & Hfi & Hp); [left |].
    assert (Hl : (i < length (g_fontInfo s))%nat) by (eapply lookup_lt_Some, Hfi).
    cbn [exit_loop]. rewrite (bind_run _ _ _ _ _ (set_size_run i 0 s fi Hfi)).
    set (s1 := set_fontInfo P _ s).
    assert (Hfi1 : g_fontInfo s1 !! i = Some (with_size 0 fi))
      by (cbn; apply list_lookup_insert_eq; exact Hl).
    assert (Hne1 : forall j, j <> i -> g_fontInfo s1 !! j = g_fontInfo s !! j)
      by (intros j Hj; cbn; apply list_lookup_insert_ne; congruence).
    assert (Hfree : exists s2, free_data P i s1 = Some (tt, s2) /\
              g_fontInfo s2 = g_fontInfo s1 /\
              forall b, (forall p, fi_data fi = Some p -> b <> p.1) ->
                        heap s2 !! b = heap s !! b).
    { destruct (fi_data fi) as [[b0 off] |] eqn:Hd.
      - destruct (Hp _ eq_refl) as (Hoff & [buf Hb] & _). cbn [fst snd] in *. subst off.
        exists (set_heap P (delete b0 (heap s1)) s1).
        split; [eapply free_data_run; [exact Hfi1 | exact Hd | exact Hb] |].
        split; [reflexivity |].
        intros b Hb'. cbn. apply lookup_delete_ne. intros <-. eapply Hb'; reflexivity.
      - exists s1. split; [| auto].
        unfold free_data. rewrite (bind_run _ _ _ _ _ (font_info_run _ _ _ Hfi1)).
        cbn [with_size fi_data]. rewrite Hd. reflexivity. }
    destruct Hfree as (s2 & Hrun2 & Hg2 & Hh2).
    rewrite (bind_run _ _ _ _ _ Hrun2).
    apply IH; [exact Hnd |].
    intros j Hj. assert (Hji : j <> i) by (intros ->; contradiction).
    destruct (Hpre j) as (fj & Hfj & Hpj); [right; exact Hj |].
    exists fj. split; [rewrite Hg2, Hne1; assumption |].
    intros q Hq. destruct (Hpj q Hq) as (Hoff & Hlive & Hdis).
    split; [exact Hoff |]. split.
    + rewrite Hh2; [exact Hlive |].
      intros p Hpd Heq.
      destruct (Hp p Hpd) as (_ & _ & Hdisi).
      eapply (Hdisi j fj q); [right; exact Hj | exact Hji | exact Hfj | exact Hq | exact Heq].
    + intros k fk r Hk Hkj Hfk Hr.
      assert (Hki : k <> i) by (intros ->; contradiction).
      rewrite Hg2, Hne1 in Hfk by exact Hki.
      eapply Hdis; [right; exact Hk | exact Hkj | exact Hfk | exact Hr].
Qed.

Lemma bfttfExit_defined (s : State P) :
  length (g_fontInfo s) = g_fontInfoCount -> owned s ->
  exists s', bfttfExit P s = Some (tt, s').
Proof.
  intros Hlen Hown.
  destruct (exit_loop_defined (seq 0 g_fontInfoCount) s) as [s1 Hrun].
  { apply NoDup_seq. }
  { intros i Hi. apply elem_of_seq in Hi.
    destruct (lookup_lt_is_Some_2 (g_fontInfo s) i) as [fi Hfi]; [lia |].
    exists fi. split; [exact Hfi |]. intros p Hp.
    destruct (Hown i fi p Hfi Hp) as (Hoff & Hlive & Hdis).
    split; [exact Hoff |]. split; [exact Hlive |].
    intros j fj q _ Hji Hfj Hq Heq. apply Hji. eapply Hdis; eauto. }
  unfold bfttfExit. rewrite (bind_run _ _ _ _ _ Hrun). eexists. reflexivity.
Qed.

(** C9.  On a cache that owns its buffers [bfttfExit] returns, and after
    it [bfttfGetFontByType] returns false for every font type and every
    descriptor, whatever the slots held before. *)
Theorem bfttfGetFontByType_after_exit (s : State P) :
  length (g_fontInfo s) = g_fontInfoCount -> owned s ->
  exists s',
    bfttfExit P s = Some (tt, s') /\
    forall fd font_type,
      bfttfGetFontByType P fd font_type s' = Some ((false, fd), s').
Proof.
  intros Hlen Hown. destruct (bfttfExit_defined s Hlen Hown) as [s' Hrun].
  exists s'. split; [exact Hrun |].
  intros fd font_type. eapply lookup_after_exit; eauto.
Qed.

(** * Further properties of the code *)

(** ** bfttfDecodeFont: safety, effect and frame *)



Lemma decoded_keeps_tail_at size base (buf : list byte) :
  8 < size -> size mod 4 = 0 -> 0 <= base -> base + size <= Z.of_nat (length buf) ->
  drop (Z.to_nat (base + size - 8)) (decoded size base buf)
    = drop (Z.to_nat (base + size - 8)) buf.
Proof.
  intros Hs Ha Hb Hl.
  destruct (Z.lt_ge_cases size 16) as [Hlt | Hge].
  - unfold decoded, words_decoded.
    replace (Z.to_nat ((size - 16) / 4)) with 0%nat
      by (assert ((size - 16) / 4 < 0) by (apply Z.div_lt_upper_bound; lia); lia).
    cbn [xor_words]. rewrite take_drop. reflexivity.
  - assert (Hq : size - 16 = 4 * ((size - 16) / 4)).
    { apply Z.div_exact; [lia |]. rewrite <- Zminus_mod_idemp_l, Ha. reflexivity. }
    assert (0 <= (size - 16) / 4) by (apply Z.div_pos; lia).
    replace (Z.to_nat (base + size - 8))
      with (Z.to_nat (base + 8) + 4 * words_decoded size)%nat
      by (unfold words_decoded; lia).
    rewrite <- !drop_drop.
    destruct (take_decoded size base buf) as [_ Hd]; [lia | lia |].
    rewrite Hd. apply drop_xor_words.
    apply (words_decoded_fit size base buf); lia.
Qed.

Lemma xor_words_word n : forall (j : nat) (l : list byte),
  (j < n)%nat -> (4 * n <= length l)%nat ->
  take 4 (drop (4 * j) (xor_words n l)) = xor_word (take 4 (drop (4 * j) l)).
Proof.
  induction n as [| n IH]; intros j l Hj Hl; [lia |].
  cbn [xor_words]. destruct j as [| j].
  - replace (4 * 0)%nat with 0%nat by lia. rewrite !drop_0.
    rewrite (take_app_length' _ _ 4 (eq_sym (length_xor_word _))).
    reflexivity.
  - replace (4 * S j)%nat with (4 + 4 * j)%nat by lia.
    rewrite <- !drop_drop.
    rewrite (drop_app_length' _ _ 4 (eq_sym (length_xor_word _))).
    apply IH; [lia | rewrite length_drop; lia].
Qed.

Lemma le_combine_xor_word (bs : list byte) :
  length bs = 4%nat -> le_combine (xor_word bs) = Z.lxor (le_combine bs) g_bfttfKey.
Proof.
  intros Hl. unfold xor_word. rewrite le_combine_split.
  change (2 ^ (Z.of_nat 4 * 8)) with (2 ^ 32).
  apply Z.mod_small, lxor_key_bound.
  pose proof (le_combine_bound bs) as H. rewrite Hl in H. exact H.
Qed.

(** X1.  On a slot whose data pointer points into a live block with at
    least [size] bytes from the pointer on, [bfttfDecodeFont] returns:
    the loop ends and every access is inside the block.  Its result is
    true exactly when the size is above 8 and a multiple of 4. *)
Theorem bfttfDecodeFont_safe fi (h : gmap positive (list byte)) b base buf :
  fi_data fi = Some (b, base) -> h !! b = Some buf ->
  0 <= fi_size fi < 2 ^ 32 ->
  0 <= base -> base + fi_size fi <= Z.of_nat (length buf) ->
  exists r h',
    bfttfDecodeFont (Some fi) h = Some (r, h') /\
    (r = true <-> 8 < fi_size fi /\ fi_size fi mod 4 = 0).
Proof.
  intros Hd Hb Hs Hbase Hl.
  destruct (Z.le_gt_cases (fi_size fi) 8) as [Hle | Hgt].
  { exists false, h. split; [| split; [discriminate | lia]].
    apply bfttfDecodeFont_rejects. right. exists fi. auto. }
  destruct (Z.eq_dec (fi_size fi mod 4) 0) as [Ha | Ha].
  - eexists true, _. split; [| tauto].
    eapply bfttfDecodeFont_decoded; eauto; lia.
  - exists false, h. split; [| split; [discriminate | tauto]].
    apply bfttfDecodeFont_rejects. right. exists fi. auto.
Qed.

(** X2.  What a successful decode does to the buffer: the block keeps its
    length; the 8 bytes at the pointer and the last 8 bytes of the
    [size] bytes are left as they were; every 32-bit word at an offset
    8, 12, ... below [size - 8] is the old word XORed with
    [g_bfttfKey]. *)
Theorem bfttfDecodeFont_effect fi (h : gmap positive (list byte)) b base buf :
  fi_data fi = Some (b, base) -> h !! b = Some buf ->
  8 < fi_size fi < 2 ^ 32 -> fi_size fi mod 4 = 0 ->
  0 <= base -> base + fi_size fi <= Z.of_nat (length buf) ->
  exists buf',
    bfttfDecodeFont (Some fi) h = Some (true, <[b := buf']> h) /\
    length buf' = length buf /\
    take (Z.to_nat (base + 8)) buf' = take (Z.to_nat (base + 8)) buf /\
    drop (Z.to_nat (base + fi_size fi - 8)) buf'
      = drop (Z.to_nat (base + fi_size fi - 8)) buf /\
    forall k, 0 <= k -> 8 + 4 * k < fi_size fi - 8 ->
      exists w, load_u32 buf (base + (8 + 4 * k)) = Some w /\
                load_u32 buf' (base + (8 + 4 * k)) = Some (Z.lxor w g_bfttfKey).
Proof.
  intros Hd Hb Hs Ha Hbase Hl.
  exists (decoded (fi_size fi) base buf).
  split; [apply bfttfDecodeFont_decoded; assumption |].
  split; [apply length_decoded; lia |].
  destruct (take_decoded (fi_size fi) base buf) as [Ht Hdr]; [lia | lia |].
  split; [exact Ht |].
  split; [apply decoded_keeps_tail_at; lia |].
  intros k Hk Hlt.
  assert (Hq : 4 * ((fi_size fi - 16) / 4) = fi_size fi - 16).
  { symmetry. apply Z.div_exact; [lia |].
    rewrite <- Zminus_mod_idemp_l, Ha. reflexivity. }
  assert (Hfit := words_decoded_fit (fi_size fi) base buf ltac:(lia) Hbase Hl).
  assert (Hkn : (Z.to_nat k < words_decoded (fi_size fi))%nat)
    by (unfold words_decoded; lia).
  unfold load_u32, in_bounds.
  rewrite length_decoded by lia.
  destruct (Z.leb_spec 0 (base + (8 + 4 * k))) as [_ | ?]; [| lia].
  destruct (Z.leb_spec (base + (8 + 4 * k) + 4) (Z.of_nat (length buf))) as [_ | ?]; [| lia].
  cbn [andb]. eexists. split; [reflexivity |]. f_equal.
  replace (Z.to_nat (base + (8 + 4 * k))) with (Z.to_nat (base + 8) + 4 * Z.to_nat k)%nat
    by lia.
  rewrite <- !drop_drop, Hdr, xor_words_word by assumption.
  apply le_combine_xor_word.
  rewrite length_take, !length_drop. rewrite length_drop in Hfit. lia.
Qed.


(** ** bfttfExit: what is freed *)

Lemma exit_step_inv i (s : State P) u1 s1 u2 s2 :
  set_size P i 0 s = Some (u1, s1) -> free_data P i s1 = Some (u2, s2) ->
  exists fi,
    g_fontInfo s !! i = Some fi /\
    g_fontInfo s2 = <[i := with_size 0 fi]> (g_fontInfo s) /\
    g_bfttfInterfaceInit s2 = g_bfttfInterfaceInit s /\
    world s2 = world s /\ calls s2 = calls s /\
    match fi_data fi with
    | None => heap s2 = heap s
    | Some p => is_Some (heap s !! p.1) /\ p.2 = 0 /\ heap s2 = delete p.1 (heap s)
    end.
Proof.
  intros H1 H2. apply set_size_Some in H1 as (fi & Hfi & ->).
  apply free_data_Some in H2 as (fi2 & Hfi2 & Hs2).
  assert (Hl : (i < length (g_fontInfo s))%nat) by (eapply lookup_lt_Some, Hfi).
  cbn in Hfi2. rewrite list_lookup_insert_eq in Hfi2 by exact Hl.
  injection Hfi2 as <-. cbn [with_size fi_data] in Hs2.
  exists fi. split; [exact Hfi |].
  destruct Hs2 as [[Hd ->] | (p & h & Hd & Hf & ->)]; rewrite Hd; cbn.
  - auto 10.
  - apply free_Some in Hf as (Hlive & Hoff & ->). cbn in Hlive. auto 10.
Qed.

Lemma exit_step_data i (l : list BfttfFontInfo) fi j :
  l !! i = Some fi ->
  fi_data <$> (<[i := with_size 0 fi]> l) !! j = fi_data <$> l !! j.
Proof.
  intros Hfi. destruct (decide (j = i)) as [-> | Hne].
  - rewrite list_lookup_insert_eq by (eapply lookup_lt_Some, Hfi). rewrite Hfi. reflexivity.
  - rewrite list_lookup_insert_ne by congruence. reflexivity.
Qed.

Lemma exit_loop_heap_mono idx : forall (s : State P) u s',
  exit_loop P idx s = Some (u, s') ->
  forall b, heap s !! b = None -> heap s' !! b = None.
Proof.
  induction idx as [| i idx IH]; intros s u s' H b Hb.
  - injection H as _ <-. exact Hb.
  - cbn [exit_loop] in H.
    apply bind_Some in H as (u1 & s1 & H1 & H). apply bind_Some in H as (u2 & s2 & H2 & H).
    destruct (exit_step_inv i s u1 s1 u2 s2 H1 H2) as (fi & _ & _ & _ & _ & _ & Hh).
    eapply IH; [exact H |].
    destruct (fi_data fi) as [p |].
    + destruct Hh as (_ & _ & ->). rewrite lookup_delete_None. auto.
    + rewrite Hh. exact Hb.
Qed.

Lemma exit_loop_heap idx : forall (s : State P) u s',
  exit_loop P idx s = Some (u, s') ->
  (forall i fi b base, i ∈ idx -> g_fontInfo s !! i = Some fi ->
     fi_data fi = Some (b, base) -> heap s' !! b = None) /\
  (forall b, (forall i fi base, i ∈ idx -> g_fontInfo s !! i = Some fi ->
                fi_data fi <> Some (b, base)) ->
     heap s' !! b = heap s !! b).
Proof.
  induction idx as [| i idx IH]; intros s u s' H.
  - injection H as _ <-. split; [| reflexivity].
    intros i fi b base Hin. apply elem_of_nil in Hin. contradiction.
  - cbn [exit_loop] in H.
    apply bind_Some in H as (u1 & s1 & H1 & H). apply bind_Some in H as (u2 & s2 & H2 & H).
    destruct (exit_step_inv i s u1 s1 u2 s2 H1 H2) as (fi & Hfi & Hg & _ & _ & _ & Hh).
    assert (Hmono := exit_loop_heap_mono idx s2 u s' H).
    destruct (IH s2 u s' H) as [IH1 IH2]. clear IH.
    assert (Hdata : forall j, fi_data <$> g_fontInfo s2 !! j = fi_data <$> g_fontInfo s !! j)
      by (intros j; rewrite Hg; apply exit_step_data, Hfi).
    split.
    + intros i0 fi0 b base Hin Hfi0 Hd0.
      apply elem_of_cons in Hin as [-> | Hin].
      * assert (fi0 = fi) as -> by congruence. rewrite Hd0 in Hh.
        destruct Hh as (_ & _ & Hh). apply Hmono. rewrite Hh. apply lookup_delete_eq.
      * specialize (Hdata i0). rewrite Hfi0 in Hdata.
        destruct (g_fontInfo s2 !! i0) as [f2 |] eqn:Hf2; [| discriminate].
        injection Hdata as Hdata. eapply (IH1 i0 f2 b base); [exact Hin | exact Hf2 | congruence].
    + intros b Hnot. rewrite IH2.
      * destruct (fi_data fi) as [[b0 off] |] eqn:Hd; [| congruence].
        destruct Hh as (_ & _ & ->). apply lookup_delete_ne. intros <-.
        eapply (Hnot i fi off); [left | exact Hfi | exact Hd].
      * intros j f2 base Hj Hf2 Hd2.
        specialize (Hdata j). rewrite Hf2 in Hdata.
        destruct (g_fontInfo s !! j) as [fj |] eqn:Hfj; [| discriminate].
        injection Hdata as Hdata.
        eapply (Hnot j fj base); [right; exact Hj | exact Hfj | congruence].
Qed.

Lemma bfttfExit_heap (s : State P) u s' :
  length (g_fontInfo s) = g_fontInfoCount ->
  bfttfExit P s = Some (u, s') ->
  (forall b, slot_block s b -> heap s' !! b = None) /\
  (forall b, ~ slot_block s b -> heap s' !! b = heap s !! b) /\
  world s' = world s /\ calls s' = calls s.
Proof.
  intros Hlen H. unfold bfttfExit in H. apply bind_Some in H as (u1 & s1 & H1 & H2).
  injection H2 as _ <-. cbn [heap world calls set_init].
  destruct (exit_loop_heap _ _ _ _ H1) as [Hin Hout].
  destruct (exit_loop_slots _ _ _ _ H1) as (_ & Hw & Hc & _).
  split_and!; [| | exact Hw | exact Hc].
  - intros b (i & fi & base & Hfi & Hd). eapply Hin; [| exact Hfi | exact Hd].
    apply elem_of_seq. apply lookup_lt_Some in Hfi. lia.
  - intros b Hnot. apply Hout. intros i fi base _ Hfi Hd. apply Hnot.
    exists i, fi, base. auto.
Qed.

(** X4.  On a cache that owns its buffers, [bfttfExit] returns and frees
    exactly the buffers of the slots: no block a slot points into is live
    afterwards, every other block is as it was; the flag is cleared,
    every size is 0, and no call is made to the platform. *)
Theorem bfttfExit_frees_slot_buffers (s : State P) :
  length (g_fontInfo s) = g_fontInfoCount -> owned s ->
  exists s',
    bfttfExit P s = Some (tt, s') /\
    g_bfttfInterfaceInit s' = false /\
    Forall (fun fi => fi_size fi = 0) (g_fontInfo s') /\
    (forall b, slot_block s b -> heap s' !! b = None) /\
    (forall b, ~ slot_block s b -> heap s' !! b = heap s !! b) /\
    world s' = world s /\ calls s' = calls s.
Proof.
  intros Hlen Hown. destruct (bfttfExit_defined s Hlen Hown) as [s' Hrun].
  exists s'. split; [exact Hrun |].
  destruct (bfttfExit_slots s tt s' Hrun) as [Hflag Hsl].
  destruct (bfttfExit_heap s tt s' Hlen Hrun) as (Hin & Hout & Hw & Hc).
  split_and!; try assumption.
  apply Forall_lookup. intros i fi' Hfi'. rewrite Hsl in Hfi'.
  destruct (decide (i < g_fontInfoCount)%nat) as [Hlt | Hge].
  - destruct (g_fontInfo s !! i) as [fi |]; [| discriminate].
    injection Hfi' as <-. reflexivity.
  - apply lookup_lt_Some in Hfi'. lia.
Qed.

Lemma state_eq (s s' : State P) :
  g_bfttfInterfaceInit s = g_bfttfInterfaceInit s' -> g_fontInfo s = g_fontInfo s' ->
  heap s = heap s' -> world s = world s' -> calls s = calls s' -> s = s'.
Proof. destruct s, s'. cbn. intros -> -> -> -> ->. reflexivity. Qed.

Lemma exit_loop_length idx : forall (s : State P) u s',
  exit_loop P idx s = Some (u, s') -> length (g_fontInfo s') = length (g_fontInfo s).
Proof.
  induction idx as [| i idx IH]; intros s u s' H.
  - injection H as _ <-. reflexivity.
  - cbn [exit_loop] in H.
    apply bind_Some in H as (u1 & s1 & H1 & H). apply bind_Some in H as (u2 & s2 & H2 & H).
    destruct (exit_step_inv i s u1 s1 u2 s2 H1 H2) as (fi & _ & Hg & _).
    apply IH in H. rewrite H, Hg. apply length_insert.
Qed.

Lemma bfttfExit_length (s : State P) u s' :
  bfttfExit P s = Some (u, s') -> length (g_fontInfo s') = length (g_fontInfo s).
Proof.
  unfold bfttfExit. intros H. apply bind_Some in H as (u1 & s1 & H1 & H2).
  injection H2 as _ <-. apply exit_loop_length in H1. exact H1.
Qed.

Lemma no_buffers_owned (s : State P) :
  Forall (fun fi => fi_data fi = None) (g_fontInfo s) -> owned s.
Proof.
  intros Hall i fi p Hfi Hp.
  rewrite (proj1 (Forall_lookup _ _) Hall i fi Hfi) in Hp. discriminate.
Qed.

Lemma no_buffers_no_slot_block (s : State P) b :
  Forall (fun fi => fi_data fi = None) (g_fontInfo s) -> ~ slot_block s b.
Proof.
  intros Hall (i & fi & base & Hfi & Hd).
  rewrite (proj1 (Forall_lookup _ _) Hall i fi Hfi) in Hd. discriminate.
Qed.

Lemma bfttfExit_keeps_no_buffers (s : State P) u s' :
  Forall (fun fi => fi_data fi = None) (g_fontInfo s) ->
  bfttfExit P s = Some (u, s') ->
  Forall (fun fi => fi_data fi = None) (g_fontInfo s').
Proof.
  intros Hall H. apply bfttfExit_slots in H as [_ Hsl].
  apply Forall_lookup. intros i fi' Hfi'. rewrite Hsl in Hfi'.
  destruct (decide (i < g_fontInfoCount)%nat).
  - destruct (g_fontInfo s !! i) as [fi |] eqn:Hfi; [| discriminate].
    injection Hfi' as <-. cbn. eapply (proj1 (Forall_lookup _ _) Hall), Hfi.
  - eapply (proj1 (Forall_lookup _ _) Hall), Hfi'.
Qed.

(** X5.  On a cache that holds no buffer (as before any initialisation)
    [bfttfExit] returns and leaves the heap as it is, and it can be
    repeated: a second [bfttfExit] returns and changes nothing. *)
Theorem bfttfExit_without_buffers (s : State P) :
  length (g_fontInfo s) = g_fontInfoCount ->
  Forall (fun fi => fi_data fi = None) (g_fontInfo s) ->
  exists s',
    bfttfExit P s = Some (tt, s') /\ heap s' = heap s /\
    bfttfExit P s' = Some (tt, s').
Proof.
  intros Hlen Hall.
  destruct (bfttfExit_defined s Hlen (no_buffers_owned s Hall)) as [s' Hrun].
  assert (Hall' := bfttfExit_keeps_no_buffers s tt s' Hall Hrun).
  assert (Hlen' : length (g_fontInfo s') = g_fontInfoCount)
    by (rewrite (bfttfExit_length s tt s' Hrun); exact Hlen).
  destruct (bfttfExit_heap s tt s' Hlen Hrun) as (_ & Hout & _).
  exists s'. split; [exact Hrun |].
  split; [apply map_eq; intros b; apply Hout, no_buffers_no_slot_block, Hall |].
  destruct (bfttfExit_defined s' Hlen' (no_buffers_owned s' Hall')) as [s'' Hrun'].
  rewrite Hrun'. do 2 f_equal.
  destruct (bfttfExit_slots s tt s' Hrun) as [Hflag Hsl].
  destruct (bfttfExit_slots s' tt s'' Hrun') as [Hflag' Hsl'].
  destruct (bfttfExit_heap s' tt s'' Hlen' Hrun') as (_ & Hout' & Hw' & Hc').
  apply state_eq; try congruence.
  - apply list_eq. intros i. rewrite Hsl', Hsl.
    destruct (decide (i < g_fontInfoCount)%nat); [| reflexivity].
    destruct (g_fontInfo s !! i); reflexivity.
  - apply map_eq. intros b. apply Hout', no_buffers_no_slot_block, Hall'.
Qed.

(** ** bfttfInitialize composed with the other operations *)

Lemma bfttfInitialize_slot_cases (s : State P) ret s' :
  g_bfttfInterfaceInit s = false ->
  length (g_fontInfo s) = g_fontInfoCount ->
  Forall (fun fi => fi_size fi = 0) (g_fontInfo s) ->
  bfttfInitialize P s = Some (ret, s') ->
  length (g_fontInfo s') = g_fontInfoCount /\
  forall i fi', g_fontInfo s' !! i = Some fi' ->
    exists fi, g_fontInfo s !! i = Some fi /\
               (loaded (heap s) (heap s') fi' \/ released fi fi').
Proof.
  intros Hinit Hlen Hsz Hrun.
  destruct (bfttfInitialize_post s Hinit Hlen Hsz)
    as (ret0 & s0 & Hrun0 & _ & _ & Hslots & _ & _ & _ & Hlen').
  rewrite Hrun in Hrun0. injection Hrun0 as <- <-.
  split; [congruence |]. intros i fi' Hfi'.
  destruct (lookup_lt_is_Some_2 (g_fontInfo s) i) as [fi Hfi];
    [apply lookup_lt_Some in Hfi'; lia |].
  destruct (Hslots i fi Hfi) as (fi'' & Hfi'' & Hc).
  exists fi. split; [exact Hfi |]. congruence.
Qed.

Lemma bfttfExit_heap_mono (s : State P) u s' b :
  bfttfExit P s = Some (u, s') -> heap s !! b = None -> heap s' !! b = None.
Proof.
  unfold bfttfExit. intros H Hb. apply bind_Some in H as (u1 & s1 & H1 & H2).
  injection H2 as _ <-. cbn. eapply exit_loop_heap_mono; eauto.
Qed.

(** X6.  [bfttfInitialize] on a cache whose slots are all empty, followed
    by [bfttfExit], leaks nothing and frees nothing else: both return,
    and the heap after the two is the heap before them, whatever the
    platform did and however many fonts were loaded. *)
Theorem bfttfInitialize_then_exit (s : State P) :
  g_bfttfInterfaceInit s = false ->
  length (g_fontInfo s) = g_fontInfoCount ->
  Forall (fun fi => fi_size fi = 0 /\ fi_data fi = None) (g_fontInfo s) ->
  exists ret s1 s2,
    bfttfInitialize P s = Some (ret, s1) /\
    bfttfExit P s1 = Some (tt, s2) /\
    heap s2 = heap s /\ g_bfttfInterfaceInit s2 = false.
Proof.
  intros Hinit Hlen Hall.
  assert (Hsz : Forall (fun fi => fi_size fi = 0) (g_fontInfo s))
    by (eapply Forall_impl; [exact Hall | intros fi [? _]; assumption]).
  destruct (bfttfInitialize_post s Hinit Hlen Hsz)
    as (ret & s1 & Hrun & _ & _ & _ & Hheap & Hdom & _).
  destruct (bfttfInitialize_owned s ret s1 Hinit Hlen Hall Hrun) as [Hlen1 Hown1].
  destruct (bfttfInitialize_slot_cases s ret s1 Hinit Hlen Hsz Hrun) as [_ Hcases].
  destruct (bfttfExit_defined s1 Hlen1 Hown1) as [s2 Hexit].
  destruct (bfttfExit_heap s1 tt s2 Hlen1 Hexit) as (Hin & Hout & _).
  exists ret, s1, s2. split_and!; [exact Hrun | exact Hexit | | eapply bfttfExit_slots, Hexit].
  apply map_eq. intros b.
  destruct (heap s !! b) as [buf |] eqn:Hb.
  - rewrite Hout; [apply Hheap, Hb |].
    intros (i & fi' & base & Hfi' & Hd).
    destruct (Hcases i fi' Hfi') as (fi & Hfi & [Hld | Hrel]).
    + destruct Hld as (b0 & buf0 & Hd0 & Hn & _). congruence.
    + destruct Hrel as (_ & _ & _ & [Hn | He]); [congruence |].
      rewrite He in Hd. destruct (proj1 (Forall_lookup _ _) Hall i fi Hfi). congruence.
  - destruct (heap s1 !! b) as [buf1 |] eqn:Hb1.
    + destruct (Hdom b) as [[? ?] | (i & fi' & Hfi' & Hd & _)]; [eauto | congruence |].
      apply Hin. exists i, fi', 0. auto.
    + eapply bfttfExit_heap_mono; [exact Hexit | exact Hb1].
Qed.

(** X7.  After [bfttfInitialize] on a cache whose slots had no size, the
    lookup of an in-range type succeeds exactly for the slots loaded by
    that call; the view it returns starts 8 bytes into the slot's live
    block, and every byte of the view can be read: it ends inside the
    block.  For every other slot the lookup returns false and leaves the
    descriptor alone. *)
Theorem bfttfInitialize_then_lookup (s : State P) :
  g_bfttfInterfaceInit s = false ->
  length (g_fontInfo s) = g_fontInfoCount ->
  Forall (fun fi => fi_size fi = 0) (g_fontInfo s) ->
  exists ret s1,
    bfttfInitialize P s = Some (ret, s1) /\
    forall fd font_type, 0 <= font_type < BfttfFontType_Total ->
      exists fi', g_fontInfo s1 !! Z.to_nat font_type = Some fi' /\
        ((loaded (heap s) (heap s1) fi' /\
          exists b,
            bfttfGetFontByType P (Some fd) font_type s1
              = Some ((true, Some (mkFontData font_type (fi_size fi' - 8) (Some (b, 8)))), s1)
            /\ forall k, 0 <= k < fi_size fi' - 8 ->
                 is_Some (read_byte (heap s1) (b, 8) k))
         \/ (fi_size fi' = 0 /\
             bfttfGetFontByType P (Some fd) font_type s1 = Some ((false, Some fd), s1))).
Proof.
  intros Hinit Hlen Hsz.
  destruct (bfttfInitialize_post s Hinit Hlen Hsz) as (ret & s1 & Hrun & _).
  destruct (bfttfInitialize_slot_cases s ret s1 Hinit Hlen Hsz Hrun) as [Hlen1 Hcases].
  exists ret, s1. split; [exact Hrun |].
  intros fd font_type Hty.
  destruct (lookup_lt_is_Some_2 (g_fontInfo s1) (Z.to_nat font_type)) as [fi' Hfi'];
    [unfold BfttfFontType_Total in Hty; rewrite Hlen1; unfold g_fontInfoCount; lia |].
  exists fi'. split; [exact Hfi' |].
  unfold bfttfGetFontByType.
  destruct (Z.leb_spec BfttfFontType_Total font_type) as [? | _]; [lia |].
  rewrite (bind_run _ _ _ _ _ (font_info_run _ _ _ Hfi')).
  destruct (Hcases _ _ Hfi') as (fi & Hfi & [Hld | Hrel]).
  - left. split; [exact Hld |].
    destruct Hld as (b & buf & Hd & _ & Hb & Hsize & Hgt & _).
    exists b. rewrite Hd.
    destruct (Z.leb_spec (fi_size fi') 8) as [? | _]; [lia |].
    assert (Hr : 0 <= fi_size fi' < 2 ^ 32) by (rewrite Hsize; apply u32_range).
    rewrite u32_small by lia. split; [reflexivity |].
    intros k Hk. unfold read_byte. cbn [fst snd]. rewrite Hb. cbn [mbind option_bind].
    destruct (Z.leb_spec 0 (8 + k)) as [_ | ?]; [| lia].
    apply lookup_lt_is_Some_2.
    assert (fi_size fi' <= Z.of_nat (length buf)) by (rewrite Hsize; apply u32_le; lia).
    lia.
  - right. apply released_size in Hrel. split; [exact Hrel |].
    destruct (fi_data fi'); [| reflexivity].
    destruct (Z.leb_spec (fi_size fi') 8) as [_ | ?]; [reflexivity | lia].
Qed.

(** X8.  After [bfttfExit] on a cache that owns its buffers the cache can
    be initialised again: [bfttfInitialize] returns, its result is the
    new flag, and it is true exactly when some slot was loaded by it. *)
Theorem bfttfExit_then_initialize (s : State P) :
  length (g_fontInfo s) = g_fontInfoCount -> owned s ->
  exists s1 ret s2,
    bfttfExit P s = Some (tt, s1) /\
    bfttfInitialize P s1 = Some (ret, s2) /\
    g_bfttfInterfaceInit s2 = ret /\
    (ret = true <->
     exists i fi', g_fontInfo s2 !! i = Some fi' /\ loaded (heap s1) (heap s2) fi').
Proof.
  intros Hlen Hown. destruct (bfttfExit_defined s Hlen Hown) as [s1 Hexit].
  destruct (bfttfExit_slots s tt s1 Hexit) as [Hflag Hsl].
  assert (Hlen1 : length (g_fontInfo s1) = g_fontInfoCount)
    by (rewrite (bfttfExit_length s tt s1 Hexit); exact Hlen).
  assert (Hsz : Forall (fun fi => fi_size fi = 0) (g_fontInfo s1)).
  { apply Forall_lookup. intros i fi' Hfi'. rewrite Hsl in Hfi'.
    destruct (decide (i < g_fontInfoCount)%nat).
    - destruct (g_fontInfo s !! i); [| discriminate]. injection Hfi' as <-. reflexivity.
    - apply lookup_lt_Some in Hfi'. lia. }
  destruct (bfttfInitialize_post s1 Hflag Hlen1 Hsz) as (ret & s2 & Hrun & Hi & Hiff & _).
  exists s1, ret, s2. auto.
Qed.

(** ** The platform calls of one iteration *)

Lemma appends_ret (Q : Call -> Prop) {A} (a : A) : appends Q (mret a : M P A).
Proof.
  intros s a' s' [= <- <-]. exists []. rewrite app_nil_r. auto.
Qed.

Lemma appends_bind (Q : Call -> Prop) {A B} (m : M P A) (f : A -> M P B) :
  appends Q m -> (forall a, appends Q (f a)) -> appends Q (m ≫= f).
Proof.
  intros Hm Hf s b s' H. apply bind_Some in H as (a & s1 & H1 & H2).
  apply Hm in H1 as (cs1 & Hc1 & HQ1). apply Hf in H2 as (cs2 & Hc2 & HQ2).
  exists (cs1 ++ cs2). split; [rewrite Hc2, Hc1, app_assoc; reflexivity |].
  apply Forall_app. auto.
Qed.

Lemma appends_platform_call (Q : Call -> Prop) {A} c (f : World P -> A * World P) :
  Q c -> appends Q (platform_call P c f).
Proof.
  intros HQ s a s' H. rewrite platform_call_run in H. injection H as _ <-.
  exists [c]. split; [reflexivity | auto].
Qed.

Lemma appends_silent (Q : Call -> Prop) {A} (m : M P A) :
  (forall s a s', m s = Some (a, s') -> calls s' = calls s) -> appends Q m.
Proof.
  intros Hm s a s' H. exists []. rewrite app_nil_r. split; [eapply Hm, H | auto].
Qed.

Lemma appends_font_info (Q : Call -> Prop) i : appends Q (font_info P i).
Proof.
  apply appends_silent. intros s a s' H. apply font_info_Some in H as [_ ->]. reflexivity.
Qed.

Lemma appends_set_size (Q : Call -> Prop) i n : appends Q (set_size P i n).
Proof.
  apply appends_silent. intros s a s' H. apply set_size_Some in H as (fi & _ & ->).
  reflexivity.
Qed.

Lemma appends_set_data (Q : Call -> Prop) i p : appends Q (set_data P i p).
Proof.
  apply appends_silent. intros s a s' H. unfold set_data in H.
  apply bind_Some in H as (fi & s1 & H1 & H2). apply font_info_Some in H1 as [_ ->].
  injection H2 as _ <-. reflexivity.
Qed.

Lemma appends_free_data (Q : Call -> Prop) i : appends Q (free_data P i).
Proof.
  apply appends_silent. intros s a s' H.
  apply free_data_Some in H as (fi & _ & [[_ ->] | (p & h & _ & _ & ->)]); reflexivity.
Qed.

Lemma appends_malloc (Q : Call -> Prop) n : Q (CallMalloc n) -> appends Q (malloc P n).
Proof.
  intros HQ. unfold malloc. apply appends_bind; [apply appends_platform_call, HQ |].
  intros [|]; [| apply appends_ret].
  apply appends_silent. intros s a s' H. unfold alloc_block in H.
  destruct (alloc n (heap s)). injection H as _ <-. reflexivity.
Qed.

Lemma appends_read_entry (Q : Call -> Prop) i e n :
  (forall path, Q (CallRomfsReadFileEntryData path n)) -> appends Q (read_entry P i e n).
Proof.
  intros HQ. unfold read_entry. apply appends_bind; [apply appends_font_info |].
  intros fi. apply appends_bind; [apply appends_platform_call, HQ |].
  intros [bs |]; [| apply appends_ret].
  apply appends_bind; [| intros; apply appends_ret].
  apply appends_silent. intros s a s' H. unfold write_block in H.
  destruct (fi_data fi) as [[b off] |]; [| discriminate].
  destruct (heap s !! b) as [buf |]; [| discriminate].
  destruct (write_bytes buf off n bs); [| discriminate].
  injection H as _ <-. reflexivity.
Qed.

Lemma appends_decode_font (Q : Call -> Prop) i : appends Q (decode_font P i).
Proof.
  unfold decode_font. apply appends_bind; [apply appends_font_info |].
  intros fi. apply appends_silent. intros s a s' H. unfold decode_block in H.
  destruct (bfttfDecodeFont (Some fi) (heap s)) as [[r h] |]; [| discriminate].
  injection H as _ <-. reflexivity.
Qed.

Lemma appends_fetch_font i :
  appends (fun c => container_call c = false) (fetch_font P i).
Proof.
  unfold fetch_font. apply appends_bind; [apply appends_font_info |].
  intros fi. apply appends_bind; [apply appends_platform_call; reflexivity |].
  intros [e |]; [| apply appends_ret].
  destruct (u64 (file_entry_size P e) =? 0); [apply appends_ret |].
  apply appends_bind; [apply appends_malloc; reflexivity |].
  intros p. apply appends_bind; [apply appends_set_data |].
  intros _. destruct p as [p |]; [| apply appends_ret].
  apply appends_bind; [apply appends_read_entry; reflexivity |].
  intros [|]; cbn [negb].
  - apply appends_bind; [apply appends_set_size |]. intros _.
    apply appends_bind; [apply appends_decode_font |]. intros [|]; cbn [negb].
    + apply appends_ret.
    + repeat (apply appends_bind;
              [first [apply appends_free_data | apply appends_set_data
                     | apply appends_set_size] | intros _]).
      apply appends_ret.
  - repeat (apply appends_bind;
            [first [apply appends_free_data | apply appends_set_data] | intros _]).
    apply appends_ret.
Qed.

(** X9.  An entry whose title id equals [prev_title_id], the container
    opened last, is fetched from the contexts at hand: its iteration
    returns, is the fetch alone, makes no title lookup and initialises
    neither context again, and leaves [prev_title_id] as it is. *)
Theorem font_body_same_container (s : State P) j prev fj :
  g_fontInfo s !! j = Some fj -> fi_title_id fj = prev ->
  exists ok s',
    font_body P j prev s = Some ((ok, prev), s') /\
    fetch_font P j s = Some (ok, s') /\
    exists cs, calls s' = calls s ++ cs /\ Forall (fun c => container_call c = false) cs.
Proof.
  intros Hfj Hid.
  destruct (fetch_font_spec j s fj Hfj) as (ok & s' & Hrun & _).
  exists ok, s'. split_and!; [| exact Hrun | eapply appends_fetch_font, Hrun].
  unfold font_body. rewrite (bind_run _ _ _ _ _ (font_info_run _ _ _ Hfj)).
  rewrite (proj2 (Z.eqb_eq _ _) Hid). cbn [negb].
  rewrite (bind_run _ _ _ _ _ Hrun). reflexivity.
Qed.

(** X10.  When the temporary NCA context cannot be allocated,
    [bfttfInitialize] returns false at once: the flag stays false, no
    slot and no buffer is touched, and the only platform calls are the
    failed allocation and the release of the unused RomFS context. *)
Theorem bfttfInitialize_without_nca_context (s : State P) :
  g_bfttfInterfaceInit s = false ->
  (calloc_NcaContext P (world s)).1 = false ->
  exists s',
    bfttfInitialize P s = Some (false, s') /\
    g_bfttfInterfaceInit s' = false /\ g_fontInfo s' = g_fontInfo s /\ heap s' = heap s /\
    calls s' = calls s ++ [CallCallocNcaContext; CallRomfsFreeContext].
Proof.
  intros H Hc. unfold bfttfInitialize.
  rewrite (bind_run _ _ s s s eq_refl), H.
  rewrite (bind_run _ _ _ _ _ (platform_call_run _ _ _)), Hc. cbn [negb].
  eexists. split; [reflexivity |]. cbn. rewrite <- app_assoc. auto.
Qed.

(** ** bfttfInitialize: what a loaded slot holds *)

Lemma write_bytes_whole n (bs : list byte) :
  Z.of_nat (length bs) = n ->
  write_bytes (replicate (Z.to_nat n) Byte.x00) 0 n bs = Some bs.
Proof.
  intros Hl. unfold write_bytes.
  rewrite take_ge by lia. rewrite length_replicate.
  destruct (Z.leb_spec (0 + Z.of_nat (length bs)) (Z.of_nat (Z.to_nat n))) as [_ | ?];
    [| lia].
  cbn [Z.leb andb Z.to_nat take app Nat.add].
  rewrite drop_ge by (rewrite length_replicate; lia).
  rewrite app_nil_r. reflexivity.
Qed.

(** X18.  When the platform resolves the path of entry [i] to a file of
    [n] bytes, grants the allocation and reads the [n] bytes [bs], and
    [n] truncated to 32 bits is above 8 and a multiple of 4, the fetch
    succeeds: the slot gets that truncated size and a pointer to a new
    block, and the block holds the decoded file, [bs] with the words from
    offset 8 up to 8 bytes before the end XORed with the key. *)
Theorem fetch_font_loads (s : State P) i fi e bs :
  g_fontInfo s !! i = Some fi ->
  let r1 := romfsGetFileEntryByPath P (fi_path fi) (world s) in
  let n := u64 (file_entry_size P e) in
  let r2 := malloc_succeeds P n r1.2 in
  let r3 := romfsReadFileEntryData P e n 0 r2.2 in
  r1.1 = Some e -> r2.1 = true -> r3.1 = Some bs ->
  Z.of_nat (length bs) = n -> 8 < u32 n -> u32 n mod 4 = 0 ->
  exists s',
    fetch_font P i s = Some (true, s') /\
    g_fontInfo s' !! i
      = Some (mkFontInfo (fi_title_id fi) (fi_path fi) (u32 n)
                (Some (fresh_block (heap s), 0))) /\
    heap s' = <[fresh_block (heap s) := decoded (u32 n) 0 bs]> (heap s) /\
    world s' = r3.2.
Proof.
  intros Hfi r1 n r2 r3 He Hm Hr Hlen Hgt Hal.
  assert (Hl : (i < length (g_fontInfo s))%nat) by (eapply lookup_lt_Some, Hfi).
  assert (Hn : 0 <= n < 2 ^ 64) by apply u64_range.
  assert (Hn8 : 8 < n) by (pose proof (u32_le n); lia).
  unfold fetch_font.
  rewrite (bind_run _ _ _ _ _ (font_info_run _ _ _ Hfi)).
  rewrite (bind_run _ _ _ _ _ (platform_call_run _ _ _)).
  fold r1. rewrite He. fold n.
  destruct (Z.eqb_spec n 0) as [? | _]; [lia |].
  set (s1 := set_world P r1.2 _ s).
  assert (Hm1 : (malloc_succeeds P n (world s1)).1 = true) by exact Hm.
  rewrite (bind_run _ _ _ _ _ (malloc_run_ok _ _ Hm1)).
  set (b := fresh_block (heap s1)).
  erewrite bind_run by (apply set_data_run; exact Hfi).
  set (fi1 := with_data (Some (b, 0)) fi).
  match goal with |- exists s', (_ ≫= _) ?st = _ /\ _ => set (s2 := st) end.
  assert (Hfi1 : g_fontInfo s2 !! i = Some fi1)
    by (cbn; apply list_lookup_insert_eq; exact Hl).
  assert (Hb2 : heap s2 !! b = Some (replicate (Z.to_nat n) Byte.x00))
    by (cbn; apply lookup_insert_eq).
  assert (Hr2 : (romfsReadFileEntryData P e n 0 (world s2)).1 = Some bs) by exact Hr.
  rewrite (bind_run _ _ _ _ _
             (read_entry_run_ok _ _ _ _ _ _ _ _ _ Hfi1 Hr2 eq_refl Hb2
                (write_bytes_whole n bs Hlen))).
  cbn [negb].
  erewrite bind_run by (apply set_size_run; cbn; exact Hfi1).
  set (fi2 := with_size (u32 n) fi1).
  match goal with |- exists s', (_ ≫= _) ?st = _ /\ _ => set (s3 := st) end.
  assert (Hfi2 : g_fontInfo s3 !! i = Some fi2).
  { cbn. apply list_lookup_insert_eq. rewrite length_insert. exact Hl. }
  assert (Hb3 : heap s3 !! b = Some bs) by (cbn; apply lookup_insert_eq).
  assert (Hdec : bfttfDecodeFont (Some fi2) (heap s3)
                 = Some (true, <[b := decoded (u32 n) 0 bs]> (heap s3))).
  { apply (bfttfDecodeFont_decoded fi2 (heap s3) b 0 bs); cbn;
      [reflexivity | exact Hb3 | pose proof (u32_range n); lia | exact Hal | lia |].
    pose proof (u32_le n). lia. }
  rewrite (bind_run _ _ _ _ _ (decode_font_run _ _ _ _ _ Hfi2 Hdec)). cbn [negb].
  eexists. split; [reflexivity |]. cbn.
  rewrite !insert_insert_eq.
  split; [| auto].
  rewrite list_insert_insert_eq. apply list_lookup_insert_eq. exact Hl.
Qed.

(** X19.  After [bfttfInitialize] on a cache whose slots are all empty,
    the size of every slot is 0 exactly when its data pointer is null,
    and every non-null data pointer is the start of a live block that no
    other slot points into. *)
Theorem bfttfInitialize_keeps_invariant (s : State P) :
  g_bfttfInterfaceInit s = false ->
  length (g_fontInfo s) = g_fontInfoCount ->
  Forall (fun fi => fi_size fi = 0 /\ fi_data fi = None) (g_fontInfo s) ->
  exists ret s',
    bfttfInitialize P s = Some (ret, s') /\
    Forall (fun fi => fi_size fi = 0 <-> fi_data fi = None) (g_fontInfo s') /\
    owned s'.
Proof.
  intros Hinit Hlen Hall.
  assert (Hsz : Forall (fun fi => fi_size fi = 0) (g_fontInfo s))
    by (eapply Forall_impl; [exact Hall | intros fi [? _]; assumption]).
  destruct (bfttfInitialize_post s Hinit Hlen Hsz) as (ret & s' & Hrun & _).
  destruct (bfttfInitialize_owned s ret s' Hinit Hlen Hall Hrun) as [_ Hown].
  destruct (bfttfInitialize_slot_cases s ret s' Hinit Hlen Hsz Hrun) as [_ Hcases].
  exists ret, s'. split_and!; [exact Hrun | | exact Hown].
  apply Forall_lookup. intros i fi' Hfi'.
  destruct (Hcases i fi' Hfi') as (fi & Hfi & [Hld | Hrel]).
  - destruct Hld as (b & buf & Hd & _ & _ & _ & Hgt & _). rewrite Hd.
    split; [lia | discriminate].
  - destruct Hrel as (_ & _ & H0 & [Hn | He]); [tauto |].
    rewrite He. destruct (proj1 (Forall_lookup _ _) Hall i fi Hfi) as [_ Hd]. tauto.
Qed.

End CacheProperties.

(** ** Instances on concrete caches *)

Lemma bfttfGetFontByType_view_witness :
  bfttfGetFontByType (quiet_platform file24) (Some (mkFontData 0 0 None)) 0 one_font_state
    = Some ((true, Some (mkFontData 0 (24 - 8) (Some (ptr_add (1%positive, 0) 8)))),
            one_font_state)
  /\ read_byte (heap one_font_state) (ptr_add (1%positive, 0) 8) 0
     = read_byte (heap one_font_state) (1%positive, 0) 8.
Proof.
  apply (proj1 (bfttfGetFontByType_view (quiet_platform file24) one_font_state
                  (mkFontData 0 0 None) 0)
           (mkFontInfo 0x0100000000000811 "/nintendo_udsg-r_std_003.bfttf" 24
              (Some (1%positive, 0))));
    [reflexivity | reflexivity | cbn; lia | reflexivity].
Defined.

Lemma bfttfGetFontByType_frame_witness :
  one_font_state = one_font_state /\
  (false = false -> Some (mkFontData 0 0 None) = Some (mkFontData 0 0 None)) /\
  (false = true ->
     exists d fi p,
       Some (mkFontData 0 0 None) = Some d /\ 1 < BfttfFontType_Total /\
       g_fontInfo one_font_state !! Z.to_nat 1 = Some fi /\
       8 < fi_size fi /\ fi_data fi = Some p /\
       Some (mkFontData 0 0 None)
         = Some (mkFontData 1 (u32 (fi_size fi - 8)) (Some (ptr_add p 8)))).
Proof.
  apply (bfttfGetFontByType_frame (quiet_platform file24) one_font_state
           (Some (mkFontData 0 0 None)) 1 false (Some (mkFontData 0 0 None)) one_font_state).
  reflexivity.
Defined.

Lemma one_font_state_owned : owned one_font_state.
Proof.
  intros i fi p Hfi Hp.
  assert (Hi : i = 0%nat /\ p = (1%positive, 0)).
  { do 7 (destruct i as [| i]; [cbn in Hfi; injection Hfi as <-; cbn in Hp;
                                 first [discriminate | injection Hp as <-; auto] |]).
    discriminate. }
  destruct Hi as [-> ->]. split; [reflexivity |]. split; [eexists; reflexivity |].
  intros j fj q Hfj Hq _.
  do 7 (destruct j as [| j]; [first [reflexivity
                                    | cbn in Hfj; injection Hfj as <-; discriminate] |]).
  discriminate.
Defined.

Lemma bfttfGetFontByType_after_exit_witness :
  exists s',
    bfttfExit (quiet_platform file24) one_font_state = Some (tt, s') /\
    forall fd font_type,
      bfttfGetFontByType (quiet_platform file24) fd font_type s' = Some ((false, fd), s').
Proof.
  apply (bfttfGetFontByType_after_exit (quiet_platform file24) one_font_state);
    [reflexivity | exact one_font_state_owned].
Defined.

(** ** The decode loop on a 12-byte font *)

(** C1.  The code on a 12-byte font (8 header bytes and the payload word
    aa bb cc dd): the loop condition [8 < 12 - 8] is false at once, so
    [bfttfDecodeFont] succeeds without touching a byte, and the view that
    [bfttfGetFontByType] returns holds the payload word as fetched, not the
    word XORed with the key. *)
Theorem decode12_payload_unchanged :
  bfttfDecodeFont (Some (mkFontInfo 0 "" 12 (Some (1%positive, 0)))) {[1%positive := file12]}
    = Some (true, {[1%positive := file12]})
  /\ exists s fd,
       bfttfInitialize (quiet_platform file12) (initial_state (quiet_platform file12) 0%nat)
         = Some (true, s)
       /\ bfttfGetFontByType (quiet_platform file12) (Some (mkFontData 0 0 None)) 0 s
          = Some ((true, Some fd), s)
       /\ fd_size fd = 4
       /\ view_bytes (heap s) fd = Some <$> drop 8 file12
       /\ view_bytes (heap s) fd <> Some <$> xor_word (drop 8 file12).
Proof.
  split; [vm_compute; reflexivity |].
  destruct (bfttfInitialize (quiet_platform file12) (initial_state (quiet_platform file12) 0%nat))
    as [[r s] |] eqn:Hi; [| vm_compute in Hi; discriminate].
  destruct r; [| vm_compute in Hi; discriminate].
  exists s, (mkFontData 0 4 (Some (1%positive, 8))).
  split; [reflexivity |].
  vm_compute in Hi. injection Hi as <-.
  split; [vm_compute; reflexivity |].
  split; [reflexivity |].
  split; [vm_compute; reflexivity |].
  vm_compute. discriminate.
Qed.

(** ** Teardown keeps the pointers *)

(** C5.  The code on a cache whose first slot is loaded: [bfttfExit] frees
    the block and sets the size to 0, but the slot keeps its data pointer,
    which now dangles: the size is 0 and the pointer is not null.  A
    second [bfttfExit] frees the same pointer again. *)
Theorem bfttfExit_leaves_dangling_pointer :
  exists s',
    bfttfExit (quiet_platform file24) one_font_state = Some (tt, s')
    /\ g_bfttfInterfaceInit s' = false
    /\ (fi_size <$> g_fontInfo s' !! 0%nat) = Some 0
    /\ (fi_data <$> g_fontInfo s' !! 0%nat) = Some (Some (1%positive, 0))
    /\ heap s' !! 1%positive = None
    /\ bfttfExit (quiet_platform file24) s' = None.
Proof.
  destruct (bfttfExit (quiet_platform file24) one_font_state) as [[[] s'] |] eqn:He;
    [| vm_compute in He; discriminate].
  exists s'. split; [reflexivity |].
  vm_compute in He. injection He as <-.
  repeat split; vm_compute; reflexivity.
Qed.

(** ** Runs of bfttfInitialize *)

(** On the platform whose lookup of title 0100000000000810 fails once,
    entry 1 ends with a container-open failure and every other entry of
    the table is fetched. *)
Lemma serve_table_flaky_title :
  (fun r => match r with inl f => Some f | inr _ => None end)
    <$> reply (serve_table flaky_title_platform g_fontInfo_init 0 0%nat)
  = [None; Some ContainerOpenFailure; None; None; None; None; None].
Proof. vm_compute. reflexivity. Qed.

Lemma bfttfInitialize_outcome_witness :
  exists ret s',
    bfttfInitialize flaky_title_platform (initial_state flaky_title_platform 0%nat)
      = Some (ret, s') /\
    g_bfttfInterfaceInit s' = ret /\
    (ret = true <->
     exists i fi', g_fontInfo s' !! i = Some fi' /\ loaded ∅ (heap s') fi') /\
    (forall i fi, g_fontInfo_init !! i = Some fi ->
       exists fi', g_fontInfo s' !! i = Some fi' /\
                   (loaded ∅ (heap s') fi' \/ released fi fi')) /\
    (forall b buf, (∅ : gmap positive (list byte)) !! b = Some buf -> heap s' !! b = Some buf) /\
    (forall b, is_Some (heap s' !! b) ->
       is_Some ((∅ : gmap positive (list byte)) !! b) \/
       exists i fi', g_fontInfo s' !! i = Some fi' /\ fi_data fi' = Some (b, 0) /\
                     loaded ∅ (heap s') fi') /\
    let t := serve_table flaky_title_platform g_fontInfo_init 0 0%nat in
    length (reply t) = g_fontInfoCount /\
    (ret = true <-> exists i n content, reply t !! i = Some (inr (n, content))) /\
    (forall i fi fi' r,
       g_fontInfo_init !! i = Some fi -> g_fontInfo s' !! i = Some fi' ->
       reply t !! i = Some r ->
       match r with
       | inr (n, content) =>
           fi_size fi' = u32 n /\
           exists b, fi_data fi' = Some (b, 0) /\
                     (∅ : gmap positive (list byte)) !! b = None /\
                     heap s' !! b = Some content
       | inl _ => released fi fi'
       end) /\
    world s' = reply_world t /\
    calls s' = [CallCallocNcaContext] ++ reply_calls t
                 ++ [CallRomfsFreeContext; CallFreeNcaContext].
Proof.
  apply (bfttfInitialize_outcome flaky_title_platform
           (initial_state flaky_title_platform 0%nat));
    [reflexivity | reflexivity | repeat constructor].
Defined.

Lemma bfttfInitialize_twice_witness :
  exists s1,
    bfttfInitialize (quiet_platform file24) (initial_state (quiet_platform file24) 0%nat)
      = Some (true, s1) /\
    g_bfttfInterfaceInit s1 = true /\
    (true = true ->
       exists s2,
         bfttfInitialize (quiet_platform file24) s1 = Some (true, s2) /\
         g_bfttfInterfaceInit s2 = true /\ g_fontInfo s2 = g_fontInfo s1 /\
         heap s2 = heap s1 /\ calls s2 = calls s1 ++ [CallRomfsFreeContext]) /\
    (true = false ->
       forall r2 s2, bfttfInitialize (quiet_platform file24) s1 = Some (r2, s2) ->
         exists rest, calls s2 = calls s1 ++ CallCallocNcaContext :: rest).
Proof.
  destruct (bfttfInitialize (quiet_platform file24)
              (initial_state (quiet_platform file24) 0%nat)) as [[r s1] |] eqn:H;
    [| vm_compute in H; discriminate].
  destruct r; [| vm_compute in H; discriminate].
  exists s1. split; [reflexivity |].
  apply (bfttfInitialize_twice (quiet_platform file24)
           (initial_state (quiet_platform file24) 0%nat) true s1 H).
Defined.

(** C7, as stated, fails: on [low_memory_platform] the first call returns
    false with every slot empty; the second call is no no-op: it reads
    all seven files, fills the slots, and returns true. *)
Lemma bfttfInitialize_second_call_works :
  exists s1 s2,
    bfttfInitialize low_memory_platform (initial_state low_memory_platform 0%nat)
      = Some (false, s1) /\
    bfttfInitialize low_memory_platform s1 = Some (true, s2) /\
    fi_size <$> g_fontInfo s1 = [0; 0; 0; 0; 0; 0; 0] /\
    fi_size <$> g_fontInfo s2 = [24; 24; 24; 24; 24; 24; 24] /\
    file_reads (calls s1) = [] /\
    length (file_reads (calls s2)) = 7%nat.
Proof.
  destruct (bfttfInitialize low_memory_platform (initial_state low_memory_platform 0%nat))
    as [[r s1] |] eqn:H1; [| vm_compute in H1; discriminate].
  destruct r; [vm_compute in H1; discriminate |].
  destruct (bfttfInitialize low_memory_platform s1) as [[r s2] |] eqn:H2.
  2: { vm_compute in H1. injection H1 as <-. vm_compute in H2. discriminate. }
  destruct r.
  2: { vm_compute in H1. injection H1 as <-. vm_compute in H2. discriminate. }
  exists s1, s2. split; [reflexivity |]. split; [exact H2 |].
  vm_compute in H1. injection H1 as <-. vm_compute in H2. injection H2 as <-.
  repeat split; vm_compute; reflexivity.
Qed.

Lemma open_failure_retried_witness :
  font_body flaky_title_platform 1 0x0100000000000811
      (initial_state flaky_title_platform 2%nat)
    = Some ((false, 0x0100000000000811),
            mkState (P := flaky_title_platform) false g_fontInfo_init ∅ 3%nat
              [CallTitleGetInfo 0x0100000000000810]) /\
  g_fontInfo_init = g_fontInfo_init /\
  (∅ : gmap positive (list byte)) = ∅ /\
  exists r s2 rest,
    font_body flaky_title_platform 2 0x0100000000000811
        (mkState (P := flaky_title_platform) false g_fontInfo_init ∅ 3%nat
           [CallTitleGetInfo 0x0100000000000810])
      = Some (r, s2) /\
    calls s2 = [CallTitleGetInfo 0x0100000000000810]
                 ++ CallTitleGetInfo 0x0100000000000810 :: rest /\
    (forall s1', open_container flaky_title_platform 0x0100000000000810
                   (mkState (P := flaky_title_platform) false g_fontInfo_init ∅ 3%nat
                      [CallTitleGetInfo 0x0100000000000810]) = Some (true, s1') ->
       exists ok, fetch_font flaky_title_platform 2 s1' = Some (ok, s2)
                  /\ r = (ok, 0x0100000000000810)) /\
    (forall s1', open_container flaky_title_platform 0x0100000000000810
                   (mkState (P := flaky_title_platform) false g_fontInfo_init ∅ 3%nat
                      [CallTitleGetInfo 0x0100000000000810]) = Some (false, s1') ->
       r = (false, 0x0100000000000811) /\ s2 = s1').
Proof.
  apply (open_failure_retried flaky_title_platform
           (initial_state flaky_title_platform 2%nat) 1 2 0x0100000000000811
           (mkFontInfo 0x0100000000000810 "/nintendo_ext_003.bfttf" 0 None)
           (mkFontInfo 0x0100000000000810 "/nintendo_ext2_003.bfttf" 0 None));
    [reflexivity | reflexivity | discriminate | left; reflexivity | reflexivity].
Defined.

(** C3, as stated, fails: on [flaky_title_platform] the open of container
    0100000000000810 fails for entry 1, which is skipped; entry 2, of the
    same container, is not skipped: the container is opened a second
    time, and the font is loaded. *)
Lemma open_failure_not_skipped :
  exists s,
    bfttfInitialize flaky_title_platform (initial_state flaky_title_platform 0%nat)
      = Some (true, s) /\
    take 11 (calls s) =
      [CallCallocNcaContext;
       CallTitleGetInfo 0x0100000000000811;
       CallNcaInitializeContext 0x0100000000000811;
       CallRomfsInitializeContext 0x0100000000000811;
       CallRomfsGetFileEntryByPath "/nintendo_udsg-r_std_003.bfttf";
       CallMalloc 24;
       CallRomfsReadFileEntryData "/nintendo_udsg-r_std_003.bfttf" 24;
       CallTitleGetInfo 0x0100000000000810;
       CallTitleGetInfo 0x0100000000000810;
       CallNcaInitializeContext 0x0100000000000810;
       CallRomfsInitializeContext 0x0100000000000810] /\
    title_lookups (calls s) =
      [0x0100000000000811; 0x0100000000000810; 0x0100000000000810;
       0x0100000000000812; 0x0100000000000814; 0x0100000000000813] /\
    fi_size <$> g_fontInfo s = [24; 0; 24; 24; 24; 24; 24] /\
    file_reads (calls s) !! 1%nat = Some "/nintendo_ext2_003.bfttf"%string.
Proof.
  destruct (bfttfInitialize flaky_title_platform (initial_state flaky_title_platform 0%nat))
    as [[r s] |] eqn:H; [| vm_compute in H; discriminate].
  destruct r; [| vm_compute in H; discriminate].
  exists s. split; [reflexivity |].
  vm_compute in H. injection H as <-.
  repeat split; vm_compute; reflexivity.
Qed.

(** * nxdt_utils.h: the alignment macros *)

Lemma land_bit_not w x m :
  0 <= w -> 0 <= x < 2 ^ w -> Z.land x (bit_not w m) = Z.ldiff x m.
Proof.
  intros Hw Hx. apply Z.bits_inj'. intros n Hn.
  rewrite Z.land_spec, Z.ldiff_spec. unfold bit_not, wrap.
  destruct (Z.lt_ge_cases n w) as [Hlt | Hge].
  - rewrite Z.mod_pow2_bits_low by lia. rewrite Z.lnot_spec by lia. reflexivity.
  - rewrite Z.mod_pow2_bits_high by lia.
    rewrite <- (Z.mod_small x (2 ^ w)) by lia.
    rewrite Z.mod_pow2_bits_high by lia. reflexivity.
Qed.

Lemma pow2_mask w k :
  0 <= k < w -> wrap w (2 ^ k - 1) = Z.ones k.
Proof.
  intros Hk. unfold wrap. rewrite Z.ones_equiv.
  assert (0 < 2 ^ k) by (apply Z.pow_pos_nonneg; lia).
  assert (2 ^ k < 2 ^ w) by (apply Z.pow_lt_mono_r; lia).
  apply Z.mod_small. lia.
Qed.

Lemma ldiff_ones x k : 0 <= k -> Z.ldiff x (Z.ones k) = x - x mod 2 ^ k.
Proof.
  intros Hk. rewrite Z.ldiff_ones_r by lia.
  rewrite Z.shiftr_div_pow2, Z.shiftl_mul_pow2 by lia.
  assert (0 < 2 ^ k) by (apply Z.pow_pos_nonneg; lia).
  rewrite (Z.mod_eq x (2 ^ k)) by lia. lia.
Qed.

Lemma ALIGN_DOWN_eq w x k :
  0 <= k < w -> 0 <= x < 2 ^ w -> ALIGN_DOWN w x (2 ^ k) = x - x mod 2 ^ k.
Proof.
  intros Hk Hx. unfold ALIGN_DOWN.
  rewrite land_bit_not by lia. rewrite pow2_mask by lia. apply ldiff_ones. lia.
Qed.

(** X11.  [IS_ALIGNED(x, y)] for a power of two [y] tests divisibility
    by [y]. *)
Theorem IS_ALIGNED_pow2 x k :
  0 <= k -> (IS_ALIGNED x (2 ^ k) = true <-> x mod 2 ^ k = 0).
Proof.
  intros Hk. unfold IS_ALIGNED. rewrite Z.eqb_eq.
  replace (2 ^ k - 1) with (Z.ones k) by (rewrite Z.ones_equiv; lia).
  rewrite Z.land_ones by lia. reflexivity.
Qed.

(** X12.  [ALIGN_DOWN(x, y)] for a power of two [y] below the width is
    the greatest multiple of [y] that is at most [x]. *)
Theorem ALIGN_DOWN_spec w x k :
  0 <= k < w -> 0 <= x < 2 ^ w ->
  ALIGN_DOWN w x (2 ^ k) mod 2 ^ k = 0 /\
  ALIGN_DOWN w x (2 ^ k) <= x < ALIGN_DOWN w x (2 ^ k) + 2 ^ k /\
  IS_ALIGNED (ALIGN_DOWN w x (2 ^ k)) (2 ^ k) = true.
Proof.
  intros Hk Hx. rewrite ALIGN_DOWN_eq by assumption.
  assert (Hp : 0 < 2 ^ k) by (apply Z.pow_pos_nonneg; lia).
  pose proof (Z.mod_pos_bound x (2 ^ k) Hp) as Hm.
  assert (Hz : (x - x mod 2 ^ k) mod 2 ^ k = 0).
  { rewrite Zminus_mod_idemp_r, Z.sub_diag. apply Z.mod_0_l. lia. }
  split; [exact Hz |]. split; [lia |].
  apply IS_ALIGNED_pow2; [lia | exact Hz].
Qed.

(** X13.  On operands of an unsigned type of at least 32 bits (no
    promotion to [int]): [ALIGN_UP(x, y)] for a power of two [y], when
    [x + y - 1] fits the width, is the least multiple of [y] that is at
    least [x]; it returns [x] itself exactly when [x] is aligned.  When
    [x + y - 1] does not fit, the sum wraps and the result is 0. *)
Theorem ALIGN_UP_spec w x k :
  32 <= w -> 0 <= k < w -> 0 <= x < 2 ^ w ->
  (x + (2 ^ k - 1) < 2 ^ w ->
     ALIGN_UP w x (2 ^ k) mod 2 ^ k = 0 /\
     x <= ALIGN_UP w x (2 ^ k) < x + 2 ^ k /\
     (ALIGN_UP w x (2 ^ k) = x <-> IS_ALIGNED x (2 ^ k) = true)) /\
  (2 ^ w <= x + (2 ^ k - 1) -> ALIGN_UP w x (2 ^ k) = 0).
Proof.
  intros _ Hk Hx.
  assert (Hp : 0 < 2 ^ k) by (apply Z.pow_pos_nonneg; lia).
  assert (Hpw : 2 ^ k < 2 ^ w) by (apply Z.pow_lt_mono_r; lia).
  assert (Hy : wrap w (2 ^ k - 1) = 2 ^ k - 1) by (unfold wrap; apply Z.mod_small; lia).
  assert (Hup : forall v, 0 <= v < 2 ^ w -> wrap w (x + wrap w (2 ^ k - 1)) = v ->
                          ALIGN_UP w x (2 ^ k) = v - v mod 2 ^ k).
  { intros v Hv Hs. unfold ALIGN_UP. rewrite Hs.
    change (Z.land v (bit_not w (wrap w (2 ^ k - 1)))) with (ALIGN_DOWN w v (2 ^ k)).
    apply ALIGN_DOWN_eq; assumption. }
  split.
  - intros Hfit.
    rewrite (Hup (x + (2 ^ k - 1))); [| lia | rewrite Hy; unfold wrap; apply Z.mod_small; lia].
    set (v := x + (2 ^ k - 1)).
    pose proof (Z.mod_pos_bound v (2 ^ k) Hp) as Hm.
    pose proof (Z.mod_pos_bound x (2 ^ k) Hp) as Hmx.
    assert (Hz : (v - v mod 2 ^ k) mod 2 ^ k = 0).
    { rewrite Zminus_mod_idemp_r, Z.sub_diag. apply Z.mod_0_l. lia. }
    assert (Hge : x <= v - v mod 2 ^ k).
    { destruct (Z.le_gt_cases x (v - v mod 2 ^ k)) as [? | Hlt]; [assumption | exfalso].
      (* a multiple of y strictly between x - y and x, yet x <= v *)
      pose proof (Z.div_mod v (2 ^ k) ltac:(lia)) as Hdv.
      pose proof (Z.div_mod x (2 ^ k) ltac:(lia)) as Hdx.
      assert (Hq : v / 2 ^ k <= x / 2 ^ k) by (apply Z.div_le_mono; unfold v; lia || lia).
      assert (Hq' : x / 2 ^ k <= v / 2 ^ k) by (apply Z.div_le_mono; unfold v; lia).
      assert (Heq : v / 2 ^ k = x / 2 ^ k) by lia.
      destruct (Z.eq_dec (x mod 2 ^ k) 0) as [H0 | H0]; [lia |].
      assert (v mod 2 ^ k = x mod 2 ^ k + (2 ^ k - 1)) by (unfold v in *; nia).
      lia. }
    split; [exact Hz |]. split; [unfold v in *; lia |].
    rewrite IS_ALIGNED_pow2 by lia. split.
    + intros He. rewrite <- He. exact Hz.
    + intros H0.
      assert (Hvm : v mod 2 ^ k = 2 ^ k - 1).
      { unfold v. rewrite <- Zplus_mod_idemp_l, H0, Z.add_0_l. apply Z.mod_small. lia. }
      unfold v in *. lia.
  - intros Hov.
    rewrite (Hup (x + (2 ^ k - 1) - 2 ^ w)); [| lia |].
    + rewrite Z.mod_small by lia. lia.
    + rewrite Hy. unfold wrap. symmetry. apply (Z.mod_unique _ _ 1); lia.
Qed.

(** X14.  [IS_POWER_OF_TWO(x)] holds exactly for the powers of two and
    for 0. *)
Theorem IS_POWER_OF_TWO_spec w x :
  0 < w -> 0 <= x < 2 ^ w ->
  (IS_POWER_OF_TWO w x = true <-> x = 0 \/ exists k, 0 <= k /\ x = 2 ^ k).
Proof.
  intros Hw Hx. unfold IS_POWER_OF_TWO. rewrite Z.eqb_eq.
  destruct (Z.eq_dec x 0) as [-> | Hx0].
  { rewrite Z.land_0_l. tauto. }
  assert (Hm : wrap w (x - 1) = x - 1) by (unfold wrap; apply Z.mod_small; lia).
  rewrite Hm. split.
  - intros Hl. right. exists (Z.log2 x).
    pose proof (Z.log2_nonneg x) as Hk. split; [exact Hk |].
    destruct (Z.log2_spec x ltac:(lia)) as [Hlo Hhi].
    destruct (Z.eq_dec x (2 ^ Z.log2 x)) as [? | Hne]; [assumption | exfalso].
    assert (Hb1 : Z.testbit x (Z.log2 x) = true) by (apply Z.bit_log2; lia).
    assert (Hlog : Z.log2 (x - 1) = Z.log2 x).
    { apply Z.log2_unique; [exact Hk |]. rewrite <- Z.add_1_r in Hhi. lia. }
    assert (Hb2 : Z.testbit (x - 1) (Z.log2 x) = true).
    { rewrite <- Hlog. apply Z.bit_log2.
      assert (0 < 2 ^ Z.log2 x) by (apply Z.pow_pos_nonneg; lia). lia. }
    assert (Hb : Z.testbit (Z.land x (x - 1)) (Z.log2 x) = true)
      by (rewrite Z.land_spec, Hb1, Hb2; reflexivity).
    rewrite Hl, Z.bits_0 in Hb. discriminate.
  - intros [? | (k & Hk & ->)]; [contradiction |].
    replace (2 ^ k - 1) with (Z.ones k) by (rewrite Z.ones_equiv; lia).
    rewrite Z.land_ones by lia. apply Z.mod_same.
    assert (0 < 2 ^ k) by (apply Z.pow_pos_nonneg; lia). lia.
Qed.

(** * nacp.h: the inline helpers *)

Lemma nacpIsValidIconContext_iff ic :
  nacpIsValidIconContext (Some ic) = true <-> valid_icon ic.
Proof.
  unfold nacpIsValidIconContext, valid_icon.
  rewrite !andb_true_iff, Z.ltb_lt, !negb_true_iff, Z.eqb_neq.
  destruct (icon_data ic); cbn; intuition congruence.
Qed.

Lemma icon_at_lookup (h : gmap positive NacpObj) p l i :
  h !! p.1 = Some (ObjIcons l) -> p.2 = 0 -> 0 <= i ->
  icon_at h p i = l !! Z.to_nat i.
Proof.
  intros Hh Hp Hi. unfold icon_at. rewrite Hh, Hp.
  destruct (Z.leb_spec 0 i); [reflexivity | lia].
Qed.

Lemma drop_take_cons {A} (l : list A) (i count : nat) :
  (i < count)%nat -> (count <= length l)%nat ->
  exists x, l !! i = Some x /\ drop i (take count l) = x :: drop (S i) (take count l).
Proof.
  intros Hi Hc. destruct (lookup_lt_is_Some_2 l i) as [x Hx]; [lia |].
  exists x. split; [exact Hx |].
  apply drop_S. rewrite lookup_take_lt by lia. exact Hx.
Qed.

Lemma valid_icons_run n : forall fuel (h : gmap positive NacpObj) count p l i,
  h !! p.1 = Some (ObjIcons l) -> p.2 = 0 ->
  0 <= i -> i + Z.of_nat n = count -> count < 2 ^ 8 ->
  (n <= fuel)%nat -> (Z.to_nat count <= length l)%nat ->
  exists r,
    valid_icons fuel h count (Some p) i = Some r /\
    (r = true <-> Forall valid_icon (drop (Z.to_nat i) (take (Z.to_nat count) l))).
Proof.
  induction n as [| n IH]; intros fuel h count p l i Hh Hp Hi Hn Hc Hf Hl.
  - exists true. split.
    + destruct fuel; cbn [valid_icons];
        destruct (Z.ltb_spec i count); (lia || reflexivity).
    + replace (Z.to_nat i) with (Z.to_nat count) by lia.
      rewrite drop_ge by (rewrite length_take; lia). split; auto.
  - destruct fuel as [| fuel]; [lia |]. cbn [valid_icons].
    destruct (Z.ltb_spec i count) as [_ | ?]; [| lia].
    rewrite (icon_at_lookup h p l i Hh Hp Hi).
    destruct (drop_take_cons l (Z.to_nat i) (Z.to_nat count)) as (ic & Hic & Hdrop);
      [lia | lia |].
    rewrite Hic, Hdrop. cbn [mbind option_bind].
    destruct (nacpIsValidIconContext (Some ic)) eqn:Hv; cbn [negb].
    + apply nacpIsValidIconContext_iff in Hv.
      assert (Hu : u8 (i + 1) = i + 1) by (unfold u8; apply Z.mod_small; lia).
      rewrite Hu.
      destruct (IH fuel h count p l (i + 1) Hh Hp) as (r & Hrun & Hr); try lia.
      exists r. split; [exact Hrun |].
      replace (Z.to_nat (i + 1)) with (S (Z.to_nat i)) in Hr by lia.
      rewrite Hr, Forall_cons. tauto.
    + exists false. split; [reflexivity |]. split; [discriminate |].
      rewrite Forall_cons. intros [Hv' _].
      apply nacpIsValidIconContext_iff in Hv'. congruence.
Qed.

(** X15.  [nacpIsValidContext] on a context whose icon array, when there
    is one, holds [icon_count] icon contexts: it returns, and the result
    is true exactly when the NCA context, the file entry and the NACP
    data are non-null, the icon array is null exactly when [icon_count]
    is 0, and each of the first [icon_count] icons has a language below
    [NacpLanguage_Count], a non-zero size and non-null data. *)
Theorem nacpIsValidContext_spec (NP : NacpPlatform) (c : NacpContext NP)
    (h : gmap positive NacpObj) (icons : list NacpIconContext) :
  0 <= icon_count c < 2 ^ 8 ->
  (forall p, icon_ctx c = Some p ->
     p.2 = 0 /\ h !! p.1 = Some (ObjIcons icons) /\
     (Z.to_nat (icon_count c) <= length icons)%nat) ->
  exists r,
    nacpIsValidContext NP (Some c) h = Some r /\
    (r = true <->
     nca_ctx c <> None /\ romfs_file_entry c <> None /\ data c <> None /\
     (icon_count c = 0 <-> icon_ctx c = None) /\
     Forall valid_icon (take (Z.to_nat (icon_count c)) icons)).
Proof.
  intros Hc Hicons. unfold nacpIsValidContext.
  destruct (nca_ctx c) as [p1 |]; cbn [is_null orb];
    [| exists false; split; [reflexivity | split; [discriminate | tauto]]].
  destruct (romfs_file_entry c) as [p2 |]; cbn [is_null orb];
    [| exists false; split; [reflexivity | split; [discriminate | tauto]]].
  destruct (data c) as [p3 |]; cbn [is_null orb];
    [| exists false; split; [reflexivity | split; [discriminate | tauto]]].
  destruct (Z.eqb_spec (icon_count c) 0) as [H0 | H0];
    destruct (icon_ctx c) as [p |] eqn:Hp; cbn [is_null negb andb orb].
  - exists false. split; [reflexivity |]. split; [discriminate |].
    intros (_ & _ & _ & [Hx _] & _). specialize (Hx H0). discriminate.
  - exists true. split; [rewrite H0; reflexivity |]. split; [| reflexivity].
    intros _. rewrite H0. cbn [Z.to_nat take]. rewrite take_0.
    split_and!; try discriminate; [tauto | constructor].
  - destruct (Hicons p eq_refl) as (Hoff & Hh & Hlen).
    destruct (valid_icons_run (Z.to_nat (icon_count c)) 256 h (icon_count c) p icons 0)
      as (r & Hrun & Hr); try lia; try assumption.
    exists r. split; [exact Hrun |]. rewrite Hr. cbn [Z.to_nat drop].
    split; [intros HF; split_and!; try discriminate; [split; [lia | discriminate] | exact HF]
           | tauto].
  - exists false. split; [reflexivity |]. split; [discriminate |].
    intros (_ & _ & _ & [_ Hx] & _). specialize (Hx eq_refl). contradiction.
Qed.

(** X16.  Whenever [nacpFreeContext] returns, the context is all zero;
    [nacpIsValidContext] then rejects it, and a second [nacpFreeContext]
    on it returns and frees nothing: the heap is unchanged. *)
Theorem nacpFreeContext_twice (NP : NacpPlatform) (c : NacpContext NP)
    (h : gmap positive NacpObj) (w : NWorld NP) c' h' w' :
  nacpFreeContext NP (Some c) h w = Some (c', h', w') ->
  c' = Some (nacp_zero NP) /\
  nacpIsValidContext NP c' h' = Some false /\
  exists w'', nacpFreeContext NP c' h' w' = Some (c', h', w'').
Proof.
  unfold nacpFreeContext at 1. intros H.
  destruct (free_if (data c) h) as [h1 |]; [| discriminate]. cbn [mbind option_bind] in H.
  destruct (icon_ctx c) as [p |].
  - destruct (free_icons 256 (icon_count c) p 0 h1) as [hi |]; [| discriminate].
    cbn [mbind option_bind] in H.
    destruct (free_obj p hi) as [h2 |]; [| discriminate]. cbn [mbind option_bind] in H.
    destruct (free_if (authoring_tool_xml c) h2) as [h3 |]; [| discriminate].
    injection H as <- <- <-.
    split; [reflexivity |]. split; [reflexivity |]. eexists. reflexivity.
  - cbn [mbind option_bind] in H.
    destruct (free_if (authoring_tool_xml c) h1) as [h3 |]; [| discriminate].
    injection H as <- <- <-.
    split; [reflexivity |]. split; [reflexivity |]. eexists. reflexivity.
Qed.

Lemma freed_nil (h : gmap positive NacpObj) : freed [] h h.
Proof. intros b. rewrite decide_False by apply not_elem_of_nil. reflexivity. Qed.

Lemma freed_app bs1 bs2 (h h1 h2 : gmap positive NacpObj) :
  freed bs1 h h1 -> freed bs2 h1 h2 -> freed (bs1 ++ bs2) h h2.
Proof.
  intros H1 H2 b. rewrite H2. destruct (decide (b ∈ bs2)) as [Hin | Hnin].
  - rewrite decide_True by (apply elem_of_app; auto). reflexivity.
  - rewrite H1. destruct (decide (b ∈ bs1)) as [Hin1 | Hnin1].
    + rewrite decide_True by (apply elem_of_app; auto). reflexivity.
    + rewrite decide_False; [reflexivity |].
      intros Hin. apply elem_of_app in Hin as [? | ?]; contradiction.
Qed.

Lemma freed_live bs (h h' : gmap positive NacpObj) b :
  freed bs h h' -> b ∉ bs -> h' !! b = h !! b.
Proof. intros Hf Hb. rewrite Hf, decide_False by exact Hb. reflexivity. Qed.

Lemma free_if_freed (p : option ptr) (h : gmap positive NacpObj) :
  (forall q, p = Some q -> q.2 = 0 /\ is_Some (h !! q.1)) ->
  exists h', free_if p h = Some h' /\ freed (option_list (fst <$> p)) h h'.
Proof.
  intros Hp. destruct p as [q |]; cbn [free_if fmap option_fmap option_map option_list].
  - destruct (Hp q eq_refl) as [Hoff [x Hx]]. unfold free_obj. rewrite Hx, Hoff.
    eexists. split; [reflexivity |]. intros b.
    destruct (decide (b ∈ _)) as [Hin | Hnin].
    + apply (list_elem_of_singleton b q.1) in Hin as ->. apply lookup_delete_eq.
    + apply lookup_delete_ne. intros <-. apply Hnin.
      apply (list_elem_of_singleton q.1 q.1). reflexivity.
  - exists h. split; [reflexivity | apply freed_nil].
Qed.

Lemma icon_blocks_cons ic rest :
  icon_blocks (ic :: rest) = option_list (fst <$> icon_data ic) ++ icon_blocks rest.
Proof. unfold icon_blocks. cbn. destruct (icon_data ic); reflexivity. Qed.

Lemma free_icons_run n : forall fuel count p l i (h : gmap positive NacpObj),
  h !! p.1 = Some (ObjIcons l) -> p.2 = 0 ->
  0 <= i -> i + Z.of_nat n = count -> count < 2 ^ 8 ->
  (n <= fuel)%nat -> (Z.to_nat count <= length l)%nat ->
  (forall ic q, ic ∈ drop (Z.to_nat i) (take (Z.to_nat count) l) ->
                icon_data ic = Some q -> q.2 = 0) ->
  NoDup (icon_blocks (drop (Z.to_nat i) (take (Z.to_nat count) l))) ->
  (forall b, b ∈ icon_blocks (drop (Z.to_nat i) (take (Z.to_nat count) l)) ->
             is_Some (h !! b) /\ b <> p.1) ->
  exists h',
    free_icons fuel count p i h = Some h' /\
    freed (icon_blocks (drop (Z.to_nat i) (take (Z.to_nat count) l))) h h'.
Proof.
  induction n as [| n IH]; intros fuel count p l i h Hh Hp Hi Hn Hc Hf Hl Hoff Hnd Hlive.
  - exists h. split.
    + destruct fuel; cbn [free_icons]; destruct (Z.ltb_spec i count); (lia || reflexivity).
    + replace (Z.to_nat i) with (Z.to_nat count) by lia.
      rewrite drop_ge by (rewrite length_take; lia). apply freed_nil.
  - destruct fuel as [| fuel]; [lia |]. cbn [free_icons].
    destruct (Z.ltb_spec i count) as [_ | ?]; [| lia].
    rewrite (icon_at_lookup h p l i Hh Hp Hi).
    destruct (drop_take_cons l (Z.to_nat i) (Z.to_nat count)) as (ic & Hic & Hdrop);
      [lia | lia |].
    rewrite Hic. cbn [mbind option_bind].
    rewrite Hdrop in Hoff, Hnd, Hlive |- *. rewrite icon_blocks_cons in Hnd, Hlive |- *.
    apply NoDup_app in Hnd as (_ & Hdisj & Hnd').
    destruct (free_if_freed (icon_data ic) h) as (h1 & Hrun1 & Hfr1).
    { intros q Hq. split; [eapply Hoff; [left | exact Hq] |].
      apply Hlive. apply elem_of_app. left. rewrite Hq. cbn. left. }
    rewrite Hrun1. cbn [mbind option_bind].
    assert (Hu : u8 (i + 1) = i + 1) by (unfold u8; apply Z.mod_small; lia).
    rewrite Hu.
    assert (Hkeep : forall b, b ∈ icon_blocks (drop (S (Z.to_nat i)) (take (Z.to_nat count) l))
                              -> h1 !! b = h !! b).
    { intros b Hb. apply (freed_live _ _ _ _ Hfr1). intros Hin. eapply Hdisj; eauto. }
    destruct (IH fuel count p l (i + 1) h1) as (h' & Hrun & Hfr); try lia; try assumption.
    + rewrite (freed_live _ _ _ _ Hfr1); [exact Hh |].
      intros Hin. assert (Hx : p.1 ∈ option_list (fst <$> icon_data ic)
                                    ++ icon_blocks (drop (S (Z.to_nat i))
                                                      (take (Z.to_nat count) l)))
        by (apply elem_of_app; auto).
      apply Hlive in Hx as [_ Hx]. contradiction.
    + replace (Z.to_nat (i + 1)) with (S (Z.to_nat i)) by lia.
      intros ic' q Hin Hq. eapply Hoff; [right; exact Hin | exact Hq].
    + replace (Z.to_nat (i + 1)) with (S (Z.to_nat i)) by lia. exact Hnd'.
    + replace (Z.to_nat (i + 1)) with (S (Z.to_nat i)) by lia.
      intros b Hb. rewrite (Hkeep b Hb). apply Hlive. apply elem_of_app. auto.
    + exists h'. split; [exact Hrun |]. eapply freed_app; [exact Hfr1 |].
      replace (S (Z.to_nat i)) with (Z.to_nat (i + 1)) by lia. exact Hfr.
Qed.

(** X17.  On a context that owns what it points to, [nacpFreeContext]
    returns and releases exactly that: the NACP data, the data of each of
    the [icon_count] icons, the icon array and the XML are no longer
    live, every other block is as it was, and the context is all zero. *)
Theorem nacpFreeContext_releases (NP : NacpPlatform) (c : NacpContext NP)
    (icons : list NacpIconContext) (h : gmap positive NacpObj) (w : NWorld NP) :
  nacp_owned c icons h ->
  exists h' w',
    nacpFreeContext NP (Some c) h w = Some (Some (nacp_zero NP), h', w') /\
    freed (nacp_blocks c icons) h h'.
Proof.
  intros (Hc & Hlen & Harr & Hnone & Hoff & Hnd & Hlive).
  unfold nacp_blocks in Hnd, Hlive |- *.
  set (B1 := option_list (fst <$> data c)) in *.
  set (B2 := icon_blocks (take (Z.to_nat (icon_count c)) icons)) in *.
  set (B3 := option_list (fst <$> icon_ctx c)) in *.
  set (B4 := option_list (fst <$> authoring_tool_xml c)) in *.
  apply NoDup_app in Hnd as (_ & Hd1 & Hnd).
  apply NoDup_app in Hnd as (Hnd2 & Hd2 & Hnd).
  apply NoDup_app in Hnd as (_ & Hd3 & _).
  unfold nacpFreeContext.
  destruct (free_if_freed (data c) h) as (h1 & Hrun1 & Hfr1).
  { intros q Hq. split; [apply Hoff; auto |].
    apply Hlive. apply elem_of_app. left. unfold B1. rewrite Hq. cbn. left. }
  rewrite Hrun1. cbn [mbind option_bind].
  assert (Hicons : exists h2,
    match icon_ctx c with
    | Some p => h' ← free_icons 256 (icon_count c) p 0 h1; free_obj p h'
    | None => Some h1
    end = Some h2 /\ freed (B2 ++ B3) h1 h2).
  { destruct (icon_ctx c) as [p |] eqn:Hp.
    - assert (Hp0 : p.2 = 0) by (apply Hoff; auto).
      assert (Hp3 : p.1 ∈ B3) by (unfold B3; cbn; left).
      assert (HpB1 : p.1 ∉ B1).
      { intros Hin. eapply Hd1; [exact Hin |]. apply elem_of_app. right.
        apply elem_of_app. auto. }
      assert (HpB2 : p.1 ∉ B2).
      { intros Hin. eapply Hd2; [exact Hin |]. apply elem_of_app. auto. }
      destruct (free_icons_run (Z.to_nat (icon_count c)) 256 (icon_count c) p icons 0 h1)
        as (hi & Hruni & Hfri); try lia; try assumption.
      + rewrite (freed_live _ _ _ _ Hfr1) by exact HpB1. apply Harr. reflexivity.
      + cbn [Z.to_nat drop]. intros ic q Hin Hq. apply Hoff. right. right. right. eauto.
      + cbn [Z.to_nat drop]. intros b Hb. split.
        * rewrite (freed_live _ _ _ _ Hfr1).
          -- apply Hlive. apply elem_of_app. right. apply elem_of_app. auto.
          -- intros Hin. eapply Hd1; [exact Hin |]. apply elem_of_app. auto.
        * intros ->. contradiction.
      + cbn [Z.to_nat drop] in Hfri. fold B2 in Hfri.
        rewrite Hruni. cbn [mbind option_bind].
        destruct (free_if_freed (Some p) hi) as (h2 & Hrun2 & Hfr2).
        { intros q [= <-]. split; [exact Hp0 |].
          rewrite (freed_live _ _ _ _ Hfri) by exact HpB2.
          rewrite (freed_live _ _ _ _ Hfr1) by exact HpB1.
          rewrite (Harr p eq_refl). eauto. }
        cbn [free_if] in Hrun2. exists h2. split; [exact Hrun2 |].
        unfold B3. eapply freed_app; eauto.
    - exists h1. split; [reflexivity |].
      assert (HB2 : B2 = []) by (unfold B2; rewrite (Hnone eq_refl), take_nil; reflexivity).
      rewrite HB2. unfold B3. cbn. apply freed_nil. }
  destruct Hicons as (h2 & Hrun2 & Hfr2). rewrite Hrun2. cbn [mbind option_bind].
  destruct (free_if_freed (authoring_tool_xml c) h2) as (h3 & Hrun3 & Hfr3).
  { intros q Hq. split; [apply Hoff; auto |].
    assert (Hq4 : q.1 ∈ B4) by (unfold B4; rewrite Hq; cbn; left).
    rewrite (freed_live _ _ _ _ Hfr2).
    - rewrite (freed_live _ _ _ _ Hfr1).
      + apply Hlive. do 3 (apply elem_of_app; right). exact Hq4.
      + intros Hin. eapply Hd1; [exact Hin |]. do 2 (apply elem_of_app; right). exact Hq4.
    - intros Hin. apply elem_of_app in Hin as [Hin | Hin].
      + eapply Hd2; [exact Hin |]. apply elem_of_app. auto.
      + eapply Hd3; eauto. }
  rewrite Hrun3. cbn [mbind option_bind].
  eexists _, _. split; [reflexivity |].
  replace (B1 ++ B2 ++ B3 ++ B4) with (B1 ++ (B2 ++ B3) ++ B4)
    by (rewrite <- !app_assoc; reflexivity).
  eapply freed_app; [exact Hfr1 |]. eapply freed_app; eauto.
Qed.

(** * Instances of the further properties *)

Lemma bfttfDecodeFont_safe_witness :
  exists r h',
    bfttfDecodeFont (Some (mkFontInfo 0 "" 24 (Some (1%positive, 0))))
      {[1%positive := file24]} = Some (r, h') /\
    (r = true <-> 8 < 24 /\ 24 mod 4 = 0).
Proof.
  apply (bfttfDecodeFont_safe (mkFontInfo 0 "" 24 (Some (1%positive, 0)))
           {[1%positive := file24]} 1%positive 0 file24);
    [reflexivity | reflexivity | cbn; lia | lia | cbn; lia].
Defined.

Lemma bfttfDecodeFont_effect_witness :
  exists buf',
    bfttfDecodeFont (Some (mkFontInfo 0 "" 24 (Some (1%positive, 0))))
      {[1%positive := file24]}
      = Some (true, <[1%positive := buf']> {[1%positive := file24]}) /\
    length buf' = length file24 /\
    take (Z.to_nat (0 + 8)) buf' = take (Z.to_nat (0 + 8)) file24 /\
    drop (Z.to_nat (0 + 24 - 8)) buf' = drop (Z.to_nat (0 + 24 - 8)) file24 /\
    forall k, 0 <= k -> 8 + 4 * k < 24 - 8 ->
      exists w, load_u32 file24 (0 + (8 + 4 * k)) = Some w /\
                load_u32 buf' (0 + (8 + 4 * k)) = Some (Z.lxor w g_bfttfKey).
Proof.
  apply (bfttfDecodeFont_effect (mkFontInfo 0 "" 24 (Some (1%positive, 0)))
           {[1%positive := file24]} 1%positive 0 file24);
    [reflexivity | reflexivity | cbn; lia | reflexivity | lia | cbn; lia].
Defined.


Lemma bfttfExit_frees_slot_buffers_witness :
  exists s',
    bfttfExit (quiet_platform file24) one_font_state = Some (tt, s') /\
    g_bfttfInterfaceInit s' = false /\
    Forall (fun fi => fi_size fi = 0) (g_fontInfo s') /\
    (forall b, slot_block one_font_state b -> heap s' !! b = None) /\
    (forall b, ~ slot_block one_font_state b -> heap s' !! b = heap one_font_state !! b) /\
    world s' = world one_font_state /\ calls s' = calls one_font_state.
Proof.
  apply (bfttfExit_frees_slot_buffers (quiet_platform file24) one_font_state);
    [reflexivity | exact one_font_state_owned].
Defined.

Lemma bfttfExit_without_buffers_witness :
  exists s',
    bfttfExit (quiet_platform file24) (initial_state (quiet_platform file24) 0%nat)
      = Some (tt, s') /\
    heap s' = heap (initial_state (quiet_platform file24) 0%nat) /\
    bfttfExit (quiet_platform file24) s' = Some (tt, s').
Proof.
  apply (bfttfExit_without_buffers (quiet_platform file24)
           (initial_state (quiet_platform file24) 0%nat));
    [reflexivity | repeat constructor].
Defined.

Lemma bfttfInitialize_then_exit_witness :
  exists ret s1 s2,
    bfttfInitialize flaky_title_platform (initial_state flaky_title_platform 0%nat)
      = Some (ret, s1) /\
    bfttfExit flaky_title_platform s1 = Some (tt, s2) /\
    heap s2 = heap (initial_state flaky_title_platform 0%nat) /\
    g_bfttfInterfaceInit s2 = false.
Proof.
  apply (bfttfInitialize_then_exit flaky_title_platform
           (initial_state flaky_title_platform 0%nat));
    [reflexivity | reflexivity | repeat constructor].
Defined.

Lemma bfttfInitialize_then_lookup_witness :
  exists ret s1,
    bfttfInitialize flaky_title_platform (initial_state flaky_title_platform 0%nat)
      = Some (ret, s1) /\
    forall fd font_type, 0 <= font_type < BfttfFontType_Total ->
      exists fi', g_fontInfo s1 !! Z.to_nat font_type = Some fi' /\
        ((loaded (heap (initial_state flaky_title_platform 0%nat)) (heap s1) fi' /\
          exists b,
            bfttfGetFontByType flaky_title_platform (Some fd) font_type s1
              = Some ((true, Some (mkFontData font_type (fi_size fi' - 8) (Some (b, 8)))), s1)
            /\ forall k, 0 <= k < fi_size fi' - 8 ->
                 is_Some (read_byte (heap s1) (b, 8) k))
         \/ (fi_size fi' = 0 /\
             bfttfGetFontByType flaky_title_platform (Some fd) font_type s1
               = Some ((false, Some fd), s1))).
Proof.
  apply (bfttfInitialize_then_lookup flaky_title_platform
           (initial_state flaky_title_platform 0%nat));
    [reflexivity | reflexivity | repeat constructor].
Defined.

Lemma bfttfExit_then_initialize_witness :
  exists s1 ret s2,
    bfttfExit (quiet_platform file24) one_font_state = Some (tt, s1) /\
    bfttfInitialize (quiet_platform file24) s1 = Some (ret, s2) /\
    g_bfttfInterfaceInit s2 = ret /\
    (ret = true <->
     exists i fi', g_fontInfo s2 !! i = Some fi' /\ loaded (heap s1) (heap s2) fi').
Proof.
  apply (bfttfExit_then_initialize (quiet_platform file24) one_font_state);
    [reflexivity | exact one_font_state_owned].
Defined.

Lemma font_body_same_container_witness :
  exists ok s',
    font_body (quiet_platform file24) 2 0x0100000000000810
        (initial_state (quiet_platform file24) 0%nat)
      = Some ((ok, 0x0100000000000810), s') /\
    fetch_font (quiet_platform file24) 2 (initial_state (quiet_platform file24) 0%nat)
      = Some (ok, s') /\
    exists cs, calls s' = calls (initial_state (quiet_platform file24) 0%nat) ++ cs /\
               Forall (fun c => container_call c = false) cs.
Proof.
  apply (font_body_same_container (quiet_platform file24)
           (initial_state (quiet_platform file24) 0%nat) 2 0x0100000000000810
           (mkFontInfo 0x0100000000000810 "/nintendo_ext2_003.bfttf" 0 None));
    reflexivity.
Defined.

Lemma bfttfInitialize_without_nca_context_witness :
  exists s',
    bfttfInitialize no_nca_platform (initial_state no_nca_platform tt) = Some (false, s') /\
    g_bfttfInterfaceInit s' = false /\
    g_fontInfo s' = g_fontInfo (initial_state no_nca_platform tt) /\
    heap s' = heap (initial_state no_nca_platform tt) /\
    calls s' = calls (initial_state no_nca_platform tt)
                 ++ [CallCallocNcaContext; CallRomfsFreeContext].
Proof.
  apply (bfttfInitialize_without_nca_context no_nca_platform
           (initial_state no_nca_platform tt)); reflexivity.
Defined.

Lemma IS_ALIGNED_pow2_witness :
  IS_ALIGNED 24 (2 ^ 2) = true <-> 24 mod 2 ^ 2 = 0.
Proof. apply (IS_ALIGNED_pow2 24 2). lia. Defined.

Lemma ALIGN_DOWN_spec_witness :
  ALIGN_DOWN 32 13 (2 ^ 2) mod 2 ^ 2 = 0 /\
  ALIGN_DOWN 32 13 (2 ^ 2) <= 13 < ALIGN_DOWN 32 13 (2 ^ 2) + 2 ^ 2 /\
  IS_ALIGNED (ALIGN_DOWN 32 13 (2 ^ 2)) (2 ^ 2) = true.
Proof. apply (ALIGN_DOWN_spec 32 13 2); lia. Defined.

Lemma ALIGN_UP_spec_witness :
  (13 + (2 ^ 2 - 1) < 2 ^ 32 ->
     ALIGN_UP 32 13 (2 ^ 2) mod 2 ^ 2 = 0 /\
     13 <= ALIGN_UP 32 13 (2 ^ 2) < 13 + 2 ^ 2 /\
     (ALIGN_UP 32 13 (2 ^ 2) = 13 <-> IS_ALIGNED 13 (2 ^ 2) = true)) /\
  (2 ^ 32 <= 13 + (2 ^ 2 - 1) -> ALIGN_UP 32 13 (2 ^ 2) = 0).
Proof. apply (ALIGN_UP_spec 32 13 2); lia. Defined.

Lemma IS_POWER_OF_TWO_spec_witness :
  IS_POWER_OF_TWO 32 64 = true <-> 64 = 0 \/ exists k, 0 <= k /\ 64 = 2 ^ k.
Proof. apply (IS_POWER_OF_TWO_spec 32 64); lia. Defined.

Lemma nacp_example_owned : nacp_owned nacp_example two_icons nacp_example_heap.
Proof.
  unfold nacp_owned. split_and!.
  - cbn. lia.
  - cbn. lia.
  - cbn. lia.
  - intros p [= <-]. reflexivity.
  - discriminate.
  - intros p [[= <-] | [[= <-] | [[=] | (ic & Hin & Hp)]]]; try reflexivity.
    cbn in Hin. apply elem_of_cons in Hin as [-> | Hin];
      [injection Hp as <-; reflexivity |].
    apply elem_of_cons in Hin as [-> | Hin]; [injection Hp as <-; reflexivity |].
    apply elem_of_nil in Hin. contradiction.
  - apply (bool_decide_unpack _). vm_compute. exact I.
  - intros b Hb. cbn in Hb.
    repeat (apply elem_of_cons in Hb as [-> | Hb]; [eexists; reflexivity |]).
    apply elem_of_nil in Hb. contradiction.
Defined.

Lemma nacpIsValidContext_spec_witness :
  exists r,
    nacpIsValidContext unit_nacp_platform (Some nacp_example) nacp_example_heap = Some r /\
    (r = true <->
     nca_ctx nacp_example <> None /\ romfs_file_entry nacp_example <> None /\
     data nacp_example <> None /\
     (icon_count nacp_example = 0 <-> icon_ctx nacp_example = None) /\
     Forall valid_icon (take (Z.to_nat (icon_count nacp_example)) two_icons)).
Proof.
  apply (nacpIsValidContext_spec unit_nacp_platform nacp_example nacp_example_heap two_icons).
  - cbn. lia.
  - intros p [= <-]. split; [reflexivity |]. split; [reflexivity | cbn; lia].
Defined.

Lemma nacpFreeContext_twice_witness :
  Some (nacp_zero unit_nacp_platform) = Some (nacp_zero unit_nacp_platform) /\
  nacpIsValidContext unit_nacp_platform (Some (nacp_zero unit_nacp_platform)) ∅ = Some false /\
  exists w'',
    nacpFreeContext unit_nacp_platform (Some (nacp_zero unit_nacp_platform)) ∅ tt
      = Some (Some (nacp_zero unit_nacp_platform), ∅, w'').
Proof.
  apply (nacpFreeContext_twice unit_nacp_platform nacp_example nacp_example_heap tt).
  vm_compute. reflexivity.
Defined.

Lemma nacpFreeContext_releases_witness :
  exists h' w',
    nacpFreeContext unit_nacp_platform (Some nacp_example) nacp_example_heap tt
      = Some (Some (nacp_zero unit_nacp_platform), h', w') /\
    freed (nacp_blocks nacp_example two_icons) nacp_example_heap h'.
Proof.
  apply (nacpFreeContext_releases unit_nacp_platform nacp_example two_icons
           nacp_example_heap tt).
  exact nacp_example_owned.
Defined.

Lemma fetch_font_loads_witness :
  exists s',
    fetch_font (quiet_platform file24) 0 (initial_state (quiet_platform file24) 0%nat)
      = Some (true, s') /\
    g_fontInfo s' !! 0%nat
      = Some (mkFontInfo 0x0100000000000811 "/nintendo_udsg-r_std_003.bfttf" 24
                (Some (1%positive, 0))) /\
    heap s' = <[1%positive := decoded 24 0 file24]> ∅ /\
    world s' = 1%nat.
Proof.
  apply (fetch_font_loads (quiet_platform file24)
           (initial_state (quiet_platform file24) 0%nat) 0
           (mkFontInfo 0x0100000000000811 "/nintendo_udsg-r_std_003.bfttf" 0 None)
           file24 file24);
    [reflexivity | reflexivity | reflexivity | reflexivity | reflexivity
    | vm_compute; reflexivity | reflexivity].
Defined.

Lemma bfttfInitialize_keeps_invariant_witness :
  exists ret s',
    bfttfInitialize flaky_title_platform (initial_state flaky_title_platform 0%nat)
      = Some (ret, s') /\
    Forall (fun fi => fi_size fi = 0 <-> fi_data fi = None) (g_fontInfo s') /\
    owned s'.
Proof.
  apply (bfttfInitialize_keeps_invariant flaky_title_platform
           (initial_state flaky_title_platform 0%nat));
    [reflexivity | reflexivity | repeat constructor].
Defined.
